(** * Dashboard_music.py: resolution cache, fallback chain, streaming loops

    A shallow embedding of the resolution-and-streaming core of
    [Dashboard_music.py] and the properties its specification states.

    Conventions of the embedding:
    - a Python [str] is a [string]: the sequence of its UTF-8 bytes.
      [PyStr] has [str.strip] and [str.lower] as they are on ASCII text;
      bytes above 127 are left unchanged by both.  [Unicode] has the two
      methods on code points, for every [str], and the cache key with
      them;
    - [time.time()] readings are integers (seconds); every reading the
      source takes is an explicit input of the model;
    - [stream_cache] is a Python dict, which keeps insertion order: an
      association list with unique keys, in insertion order;
    - everything the program asks of the outside (search, extraction,
      fallback instances, the shuffle) is a field of a [world] record. *)

From Stdlib Require Import ZArith List String Ascii Bool Lia.
From Stdlib Require Import Permutation Sorted.
From Stdlib Require Import DecimalString.
Import ListNotations.

Open Scope string_scope.
Open Scope Z_scope.
Open Scope list_scope.

(** ** Python strings *)

Module PyStr.

(** [str.isspace] on the ASCII range: TAB, LF, VT, FF, CR, FS, GS, RS, US
    and the space. *)
Definition is_space (c : ascii) : bool :=
  let n := nat_of_ascii c in
  ((9 <=? n) && (n <=? 13) || (28 <=? n) && (n <=? 32))%nat.

(** [str.lower] on one ASCII character. *)
Definition lower_char (c : ascii) : ascii :=
  let n := nat_of_ascii c in
  if ((65 <=? n) && (n <=? 90))%nat then ascii_of_nat (n + 32) else c.

(** [s.lower()], for a text of ASCII characters.  A character outside
    ASCII is left as it is, whereas [str.lower] changes those that have a
    lowercase ("Đ" to "đ"): [Unicode.lower] has them all. *)
Fixpoint lower (s : string) : string :=
  match s with
  | EmptyString => EmptyString
  | String c s' => String (lower_char c) (lower s')
  end.

Fixpoint lstrip (s : string) : string :=
  match s with
  | EmptyString => EmptyString
  | String c s' => if is_space c then lstrip s' else s
  end.

Fixpoint rstrip (s : string) : string :=
  match s with
  | EmptyString => EmptyString
  | String c s' =>
      match rstrip s' with
      | EmptyString => if is_space c then EmptyString else String c EmptyString
      | r => String c r
      end
  end.

(** [s.strip()], for a text of ASCII characters.  Whitespace outside
    ASCII (U+0085, U+00A0, U+3000 and others) is left where it is, whereas
    [str.strip] removes it: [Unicode.strip] has it all. *)
Definition strip (s : string) : string := rstrip (lstrip s).

(** [s.startswith(p)] *)
Definition startswith (p s : string) : bool := String.prefix p s.

(** Truth value of a string: [if s:] *)
Definition nonempty (s : string) : bool :=
  match s with EmptyString => false | _ => true end.

(** Equality of two characters up to ASCII case, and of two strings
    character by character: what "compared case-insensitively" means. *)
Definition same_letter (a b : ascii) : bool :=
  Ascii.eqb (lower_char a) (lower_char b).

Fixpoint caseless_eq (s t : string) : bool :=
  match s, t with
  | EmptyString, EmptyString => true
  | String a s', String b t' => same_letter a b && caseless_eq s' t'
  | _, _ => false
  end.

End PyStr.


(** ** Values received from the outside

    The fallback services answer with JSON; the program keeps whatever
    value sits in the field it reads, so resolved URLs are JSON values. *)

#[warnings="-register-all"]
Inductive json : Type :=
| JNull
| JBool (b : bool)
| JNum (n : Z)
| JStr (s : string)
| JArr (items : list json)
| JObj (fields : list (string * json)).

(** Python truth value of a parsed JSON value: [if v:] *)
Definition truthy (v : json) : bool :=
  match v with
  | JNull => false
  | JBool b => b
  | JNum n => negb (n =? 0)
  | JStr s => PyStr.nonempty s
  | JArr items => match items with [] => false | _ => true end
  | JObj fields => match fields with [] => false | _ => true end
  end.

(** Truth value of a function result that may be [None]. *)
Definition truthy_opt (r : option json) : bool :=
  match r with
  | Some v => truthy v
  | None => false
  end.

(** ** Python dicts with string keys, in insertion order *)

Module Dict.
Section WithValue.
Context {V : Type}.

Definition dict : Type := list (string * V).

Definition key (e : string * V) : string := fst e.

(** [d.get(k)] *)
Fixpoint get (k : string) (d : dict) : option V :=
  match d with
  | [] => None
  | (k', v) :: d' => if String.eqb k' k then Some v else get k d'
  end.

(** [k in d] *)
Definition has (k : string) (d : dict) : bool :=
  match get k d with Some _ => true | None => false end.

(** [del d[k]] for a key of [d].  On a missing key Python raises
    [KeyError]: [Cache.del_keys_checked] is the deleting loop with that
    failure, and [CacheFacts.expired_keys_present] and
    [CacheFacts.keys_to_remove_present] show that it never occurs. *)
Definition del (k : string) (d : dict) : dict :=
  filter (fun e => negb (String.eqb (key e) k)) d.

(** [d[k] = v]: a present key keeps its place, a new one goes last. *)
Fixpoint set (k : string) (v : V) (d : dict) : dict :=
  match d with
  | [] => [(k, v)]
  | (k', v') :: d' =>
      if String.eqb k' k then (k, v) :: d' else (k', v') :: set k v d'
  end.

Definition keys (d : dict) : list string := map key d.

(** The well-formedness of a dict: no key twice. *)
Definition wf (d : dict) : Prop := NoDup (keys d).
End WithValue.
Arguments dict : clear implicits.
End Dict.

(** ** The stream cache: [stream_cache], [cleanup_cache] *)

Module Cache.
Import Dict.

Definition CACHE_DURATION : Z := 1800.
Definition MAX_CACHE_SIZE : nat := 100.

(** An entry is [key -> (cache_time, url)]. *)
Definition entry : Type := string * (Z * json).
Definition cache : Type := dict (Z * json).

Definition cache_time (e : entry) : Z := fst (snd e).
Definition cache_url (e : entry) : json := snd (snd e).

(** [for key in keys: del stream_cache[key]] *)
Definition del_keys (ks : list string) (c : cache) : cache :=
  fold_left (fun c k => del k c) ks c.

(** The same loop with Python's failure: [None] is a [KeyError]. *)
Fixpoint del_keys_checked (ks : list string) (c : cache) : option cache :=
  match ks with
  | [] => Some c
  | k :: ks' => if has k c then del_keys_checked ks' (del k c) else None
  end.

(** The first loop of [cleanup_cache]: the keys older than the TTL. *)
Definition expired_keys (current_time : Z) (c : cache) : list string :=
  keys (filter (fun e => CACHE_DURATION <? current_time - cache_time e) c).

(** [sorted(stream_cache.items(), key=lambda x: x[1][0])].  Python's sort
    is stable, and a stable sort has one result: the insertion sort below,
    which puts an item before the items of equal time that followed it. *)
Fixpoint insert_by_time (e : entry) (l : list entry) : list entry :=
  match l with
  | [] => [e]
  | e' :: l' =>
      if cache_time e <=? cache_time e' then e :: l
      else e' :: insert_by_time e l'
  end.

Definition sorted_by_time (c : cache) : list entry :=
  fold_right insert_by_time [] c.

(** The cache after the expiry loop of [cleanup_cache]. *)
Definition sweep (current_time : Z) (c : cache) : cache :=
  del_keys (expired_keys current_time c) c.

(** [keys_to_remove] of [cleanup_cache], for a cache over capacity. *)
Definition keys_to_remove (c : cache) : list string :=
  let sorted_items := sorted_by_time c in
  keys (firstn (List.length sorted_items - MAX_CACHE_SIZE) sorted_items).

(** The capacity branch of [cleanup_cache]. *)
Definition enforce_capacity (c : cache) : cache :=
  if (MAX_CACHE_SIZE <? List.length c)%nat
  then del_keys (keys_to_remove c) c
  else c.

Definition cleanup_cache (current_time : Z) (c : cache) : cache :=
  enforce_capacity (sweep current_time c).

(** What the capacity branch removed: the entries that survived the expiry
    loop and are gone at the end. *)
Definition evicted (current_time : Z) (c : cache) : list entry :=
  filter (fun e => negb (has (key e) (cleanup_cache current_time c)))
         (sweep current_time c).

(** The operations the program performs on the cache. *)
Inductive op : Type :=
| Insert (k : string) (t : Z) (url : json)   (* stream_cache[k] = (t, url) *)
| Delete (k : string)                        (* del stream_cache[k] *)
| Cleanup (current_time : Z)                 (* cleanup_cache() *)
| Clear.                                     (* stream_cache.clear() *)

Definition apply_op (c : cache) (o : op) : cache :=
  match o with
  | Insert k t url => set k (t, url) c
  | Delete k => del k c
  | Cleanup now => cleanup_cache now c
  | Clear => []
  end.

(** The cache after a history of operations, from the empty dict the
    module starts with. *)
Definition cache_after (history : list op) : cache :=
  fold_left apply_op history [].

End Cache.

(** ** Server statistics: [SERVER_STATS], [update_stats] *)

Module Stats.

Record t : Type := mk {
  total_requests : Z;
  successful_streams : Z;
  failed_streams : Z;
  cache_hits : Z;
  cache_misses : Z;
  last_stream_time : option Z
}.

(** The counters at start-up. *)
Definition initial : t := mk 0 0 0 0 0 None.

(** [update_stats(request_type, success)]; [now] is the [datetime.now()]
    that the ['stream'] branch reads. *)
Definition update_stats (now : Z) (request_type : string) (success : bool)
    (s : t) : t :=
  let s := mk (total_requests s + 1) (successful_streams s)
              (failed_streams s) (cache_hits s) (cache_misses s)
              (last_stream_time s) in
  if String.eqb request_type "stream" then
    let s := if success
             then mk (total_requests s) (successful_streams s + 1)
                     (failed_streams s) (cache_hits s) (cache_misses s)
                     (last_stream_time s)
             else mk (total_requests s) (successful_streams s)
                     (failed_streams s + 1) (cache_hits s) (cache_misses s)
                     (last_stream_time s) in
    mk (total_requests s) (successful_streams s) (failed_streams s)
       (cache_hits s) (cache_misses s) (Some now)
  else if String.eqb request_type "cache" then
    if success
    then mk (total_requests s) (successful_streams s) (failed_streams s)
            (cache_hits s + 1) (cache_misses s) (last_stream_time s)
    else mk (total_requests s) (successful_streams s) (failed_streams s)
            (cache_hits s) (cache_misses s + 1) (last_stream_time s)
  else s.

End Stats.

(** ** The outside world *)

(** One result of [ytmusic.search]: the fields the program reads.  [None]
    is a missing key or a [None] value. *)
Record search_result : Type := {
  videoId : option string;
  title : option string
}.

(** What a call of [ytmusic.search] does. *)
Inductive search_outcome : Type :=
| SearchRaises
| SearchResults (results : list search_result).

(** One entry of [info['formats']] of yt-dlp. *)
Record audio_format : Type := {
  acodec : option string;
  vcodec : option string;
  format_url : option string
}.

(** What [ydl.extract_info] does in [get_best_audio_url_ytdlp]: it raises,
    or gives an [info] with or without a top-level ['url']. *)
Inductive extract_outcome : Type :=
| ExtractRaises
| ExtractInfo (url : option string) (formats : list audio_format).

(** What [requests.post] to a fallback instance does.  The [body] of a
    response is its parsed JSON, [None] when [response.json()] raises. *)
Inductive http_outcome : Type :=
| Timeout
| ConnectionError
| OtherError
| Response (status_code : Z) (body : option json).

(** What [ydl.extract_info] does in [get_video_info]. *)
Inductive info_outcome : Type :=
| InfoRaises
| Info (info_title info_artist info_uploader : option string).

Record world : Type := {
  (** [ytmusic] is not [None]: [YTMusic()] succeeded at start-up *)
  ytmusic_ready : bool;
  (** [ytmusic.search(query, filter=...)] *)
  ytmusic_search : string -> string -> search_outcome;
  (** [ydl.extract_info(youtube_url, download=False)] *)
  extract_info : string -> extract_outcome;
  (** [random.shuffle] of the list of instances *)
  shuffle : list string -> list string;
  (** [requests.post(f"{instance}/api/json", ...)] for a source link *)
  cobalt_post : string -> string -> http_outcome;
  (** [ydl.extract_info] of [get_video_info] *)
  video_info : json -> info_outcome;
  (** the [time.time()] of [cleanup_cache], of the cache lookup and of the
      cache store in [get_direct_stream_url]; [datetime.now()] of
      [update_stats] *)
  clock_cleanup : Z;
  clock_lookup : Z;
  clock_store : Z;
  clock_stats : Z
}.

(** ** Resolver: [search_with_ytmusic] *)

Module Resolver.

Definition watch_link (video_id : string) : string :=
  ("https://www.youtube.com/watch?v=" ++ video_id)%string.

(** [video_id = results[0].get('videoId')] followed by [if video_id:]:
    the identifier of the first result when it is there and not empty. *)
Definition first_video_id (results : list search_result) : option string :=
  match results with
  | [] => None
  | r :: _ =>
      match videoId r with
      | Some id => if PyStr.nonempty id then Some id else None
      | None => None
      end
  end.

(** [search_with_ytmusic(query)]: the link or [None], and the result
    classes that were searched, in order. *)
Definition search_with_ytmusic (w : world) (query : string)
    : option string * list string :=
  if negb (ytmusic_ready w) then (None, [])
  else
    match ytmusic_search w query "songs" with
    | SearchRaises => (None, ["songs"])
    | SearchResults results =>
        match first_video_id results with
        | Some video_id => (Some (watch_link video_id), ["songs"])
        | None =>
            match ytmusic_search w query "videos" with
            | SearchRaises => (None, ["songs"; "videos"])
            | SearchResults results =>
                match first_video_id results with
                | Some video_id =>
                    (Some (watch_link video_id), ["songs"; "videos"])
                | None => (None, ["songs"; "videos"])
                end
            end
        end
    end.

End Resolver.

(** ** Extractor chain *)

Module Extractor.

(** The loop over [formats] of [get_best_audio_url_ytdlp]. *)
Fixpoint first_audio_only (formats : list audio_format) : option string :=
  match formats with
  | [] => None
  | fmt :: rest =>
      let acodec_ok :=
        match acodec fmt with Some a => negb (String.eqb a "none") | None => true end in
      let vcodec_ok :=
        match vcodec fmt with Some v => String.eqb v "none" | None => false end in
      if acodec_ok && vcodec_ok then
        match format_url fmt with
        | Some u => if PyStr.nonempty u then Some u else first_audio_only rest
        | None => first_audio_only rest
        end
      else first_audio_only rest
  end.

(** Stage A: [get_best_audio_url_ytdlp(youtube_url)]. *)
Definition get_best_audio_url_ytdlp (w : world) (youtube_url : string)
    : option json :=
  match extract_info w youtube_url with
  | ExtractRaises => None
  | ExtractInfo (Some u) _ => Some (JStr u)
  | ExtractInfo None formats => option_map JStr (first_audio_only formats)
  end.

Definition COBALT_INSTANCES : list string :=
  [ "https://co.wuk.sh";
    "https://api.cobalt.best";
    "https://cobalt.tools";
    "https://cobalt.pub" ].

(** [audio_url[:80]] in the log line succeeds on a string and on a list,
    and raises on every other value (the handler then goes on to the next
    instance). *)
Definition sliceable (v : json) : bool :=
  match v with
  | JStr _ | JArr _ => true
  | _ => false
  end.

Definition logged (v : json) : option json :=
  if sliceable v then Some v else None.

(** The body of the [for] loop of the fallback, for one response: the URL
    it returns, or [None] when the loop goes on.  [data.get] and
    ['url' in data] need a JSON object; on another value they raise. *)
Definition accept (r : http_outcome) : option json :=
  match r with
  | Response status_code body =>
      if status_code =? 200 then
        match body with
        | Some (JObj data) =>
            let status :=
              match Dict.get "status" data with Some s => s | None => JStr "" end in
            let is_redirect :=
              match status with JStr s => String.eqb s "redirect" | _ => false end in
            if is_redirect && Dict.has "url" data then
              match Dict.get "url" data with Some u => logged u | None => None end
            else if Dict.has "url" data then
              match Dict.get "url" data with Some u => logged u | None => None end
            else if Dict.has "audio" data then
              match Dict.get "audio" data with Some u => logged u | None => None end
            else None
        | _ => None
        end
      else None
  | Timeout | ConnectionError | OtherError => None
  end.

(** The [for instance in instances] loop: the result and the instances
    that were contacted, in order. *)
Fixpoint try_instances (w : world) (youtube_url : string)
    (instances : list string) : option json * list string :=
  match instances with
  | [] => (None, [])
  | instance :: rest =>
      match accept (cobalt_post w instance youtube_url) with
      | Some audio_url => (Some audio_url, [instance])
      | None =>
          let (r, contacted) := try_instances w youtube_url rest in
          (r, instance :: contacted)
      end
  end.

(** Stage B: [get_audio_stream_from_cobalt_fallback(youtube_url)]. *)
Definition get_audio_stream_from_cobalt_fallback (w : world)
    (youtube_url : string) : option json * list string :=
  try_instances w youtube_url (shuffle w COBALT_INSTANCES).

End Extractor.

(** ** Resolution with the cache: [get_direct_stream_url] *)

Module Resolution.
Import Cache.

(** The two globals the request handlers share. *)
Record server : Type := {
  stream_cache : cache;
  SERVER_STATS : Stats.t
}.

(** [cache_key = query.strip().lower()] *)
Definition cache_key (query : string) : string :=
  PyStr.lower (PyStr.strip query).

(** The [if cache_key in stream_cache:] block: a live entry is returned,
    a stale one is deleted. *)
Definition lookup (now : Z) (k : string) (c : cache) : option json * cache :=
  match Dict.get k c with
  | Some (cache_time, audio_url) =>
      if now - cache_time <? CACHE_DURATION
      then (Some audio_url, c)
      else (None, Dict.del k c)
  | None => (None, c)
  end.

Definition is_link (query : string) : bool :=
  PyStr.startswith "http://" query || PyStr.startswith "https://" query.

(** The part of [get_direct_stream_url] after the cache lookup, up to the
    [if audio_url:] test: search, stage A, stage B.  [None] stands for
    both ways of failing (no link found; no audio URL). *)
Definition resolve (w : world) (query : string) : option json :=
  let youtube_link :=
    if is_link query then Some query
    else fst (Resolver.search_with_ytmusic w query) in
  match youtube_link with
  | None => None
  | Some youtube_link =>
      let audio_url := Extractor.get_best_audio_url_ytdlp w youtube_link in
      let audio_url :=
        if truthy_opt audio_url then audio_url
        else fst (Extractor.get_audio_stream_from_cobalt_fallback w youtube_link) in
      if truthy_opt audio_url then audio_url else None
  end.

Definition count_cache (w : world) (success : bool) (s : server) : server :=
  {| stream_cache := stream_cache s;
     SERVER_STATS :=
       Stats.update_stats (clock_stats w) "cache" success (SERVER_STATS s) |}.

Definition get_direct_stream_url (w : world) (query : string) (s : server)
    : option json * server :=
  let c := cleanup_cache (clock_cleanup w) (stream_cache s) in
  let cache_key := cache_key query in
  match lookup (clock_lookup w) cache_key c with
  | (Some audio_url, c) =>
      (Some audio_url,
       count_cache w true {| stream_cache := c; SERVER_STATS := SERVER_STATS s |})
  | (None, c) =>
      match resolve w query with
      | Some audio_url =>
          (Some audio_url,
           {| stream_cache := Dict.set cache_key (clock_store w, audio_url) c;
              SERVER_STATS := SERVER_STATS s |})
      | None =>
          (None,
           count_cache w false
             {| stream_cache := c; SERVER_STATS := SERVER_STATS s |})
      end
  end.

End Resolution.

(** ** The streaming loops of [/stream] and [/esp32_stream] *)

Module Transcode.

Definition chunk : Type := list Byte.byte.

(** The transcoding subprocess, seen from its standard output: the bytes
    written and not yet read, and the writes still to come.  The process
    has exited when nothing is left to come (a last empty write stands for
    a process that is done writing and has not exited yet). *)
Record process : Type := {
  pipe : chunk;
  pending : list chunk
}.

(** [process.poll() is not None] *)
Definition exited (p : process) : bool :=
  match pending p with [] => true | _ => false end.

(** One more write of the process reaches the pipe. *)
Definition advance (p : process) : process :=
  match pending p with
  | [] => p
  | w :: rest => {| pipe := pipe p ++ w; pending := rest |}
  end.

Fixpoint run_for (steps : nat) (p : process) : process :=
  match steps with
  | O => p
  | S n => run_for n (advance p)
  end.

(** [process.stdout.read(n)] on the buffered pipe: it waits for [n] bytes
    or for the end of the output, whichever comes first. *)
Fixpoint fill (n : nat) (buf : chunk) (coming : list chunk) : process :=
  if (n <=? List.length buf)%nat then {| pipe := buf; pending := coming |}
  else
    match coming with
    | [] => {| pipe := buf; pending := [] |}
    | w :: rest => fill n (buf ++ w) rest
    end.

Definition read (n : nat) (p : process) : chunk * process :=
  let p' := fill n (pipe p) (pending p) in
  (firstn n (pipe p'), {| pipe := skipn n (pipe p'); pending := pending p' |}).

(** [process.stdout.read()]: everything up to the end of the output. *)
Definition read_all (p : process) : chunk * process :=
  (pipe p ++ List.concat (pending p), {| pipe := []; pending := [] |}).

(** Everything the subprocess has produced or will produce from [p] on. *)
Definition output (p : process) : chunk := pipe p ++ List.concat (pending p).

(** How far the process gets while the generator is suspended or asleep,
    before each test of [process.poll()]: one number per iteration. *)
Definition schedule : Type := list nat.

(** The [while True] loop of [stream_music.generate], reading [n] bytes
    at a time: the chunks yielded until the loop ends, [None] if it has
    not ended after [fuel] iterations. *)
Fixpoint web_loop (n : nat) (fuel : nat) (sched : schedule) (p : process)
    : option (list chunk) :=
  match fuel with
  | O => None
  | S fuel' =>
      let p := run_for (hd O sched) p in
      if exited p then Some []
      else
        let (data, p') := read n p in
        match data with
        | [] =>
            if exited p' then Some []
            else web_loop n fuel' (tl sched) p'
        | _ => option_map (cons data) (web_loop n fuel' (tl sched) p')
        end
  end.

(** The [while True] loop of [esp32_stream.generate], reading
    [chunk_size] bytes at a time. *)
Fixpoint esp32_loop (chunk_size : nat) (fuel : nat) (sched : schedule)
    (p : process) : option (list chunk) :=
  match fuel with
  | O => None
  | S fuel' =>
      let p := run_for (hd O sched) p in
      if exited p then
        let (final, _) := read_all p in
        match final with
        | [] => Some []
        | _ => Some [final]
        end
      else
        let (data, p') := read chunk_size p in
        match data with
        | [] => esp32_loop chunk_size fuel' (tl sched) p'
        | _ =>
            option_map (cons data) (esp32_loop chunk_size fuel' (tl sched) p')
        end
  end.

(** [process.stdout.read(8192)] in [/stream], [chunk_size = 4096] in
    [/esp32_stream]. *)
Definition WEB_CHUNK : nat := Eval cbv in Z.to_nat 8192.
Definition ESP32_CHUNK : nat := Eval cbv in Z.to_nat 4096.

Definition web_generate : nat -> schedule -> process -> option (list chunk) :=
  web_loop WEB_CHUNK.

Definition esp32_generate : nat -> schedule -> process -> option (list chunk) :=
  esp32_loop ESP32_CHUNK.

(** Iterations that are always enough for a loop to end. *)
Definition enough (p : process) : nat :=
  S (S (List.length (output p) + List.length (pending p))).

End Transcode.

(** ** [urllib.parse.quote] with its default [safe='/'] *)

Module Quote.

Definition is_safe (c : ascii) : bool :=
  let n := nat_of_ascii c in
  ((65 <=? n) && (n <=? 90) || (97 <=? n) && (n <=? 122)
   || (48 <=? n) && (n <=? 57)
   || (n =? 95) || (n =? 46) || (n =? 45) || (n =? 126) || (n =? 47))%nat.

Definition hex_digit (n : nat) : ascii :=
  match String.get n "0123456789ABCDEF" with
  | Some c => c
  | None => "0"%char
  end.

Definition quote_char (c : ascii) : string :=
  if is_safe c then String c EmptyString
  else
    let n := nat_of_ascii c in
    String "%" (String (hex_digit (n / 16)) (String (hex_digit (n mod 16)) EmptyString)).

Fixpoint quote (s : string) : string :=
  match s with
  | EmptyString => EmptyString
  | String c s' => (quote_char c ++ quote s')%string
  end.

End Quote.

(** ** Request handlers *)

Module Endpoints.
Import Resolution.

(** A request: [request.args] (already URL-decoded by the framework) and
    [request.host]. *)
Record request : Type := {
  args : Dict.dict string;
  host : string
}.

(** [request.args.get(name, '')] *)
Definition arg (name : string) (r : request) : string :=
  match Dict.get name (args r) with
  | Some v => v
  | None => ""
  end.

(** What a handler returns: plain text, [jsonify] of a dict (its items in
    source order), or a streamed [audio/mpeg] body made by a generator
    over the output of the [ffmpeg_cmd] subprocess. *)
Inductive body : Type :=
| Text (s : string)
| Json (fields : list (string * json))
| Audio (ffmpeg_cmd : list json)
        (generate : nat -> Transcode.schedule -> Transcode.process
                    -> option (list Transcode.chunk)).

Record response : Type := {
  status : Z;
  payload : body
}.

Definition count_stream (w : world) (success : bool) (s : server) : server :=
  {| stream_cache := stream_cache s;
     SERVER_STATS :=
       Stats.update_stats (clock_stats w) "stream" success (SERVER_STATS s) |}.

Definition lit (l : list string) : list json := map JStr l.

(** [get_video_info(youtube_url)]: title and artist. *)
Definition get_video_info (w : world) (youtube_url : json) : string * string :=
  match video_info w youtube_url with
  | InfoRaises => ("Unknown", "Unknown")
  | Info t a u =>
      let uploader := match u with Some u => u | None => "Unknown" end in
      (match t with Some t => t | None => "Unknown" end,
       match a with
       | Some a => if PyStr.nonempty a then a else uploader
       | None => uploader
       end)
  end.

(** [/stream]: lines 1164-1270. *)
Definition stream_ffmpeg_cmd (audio_url : json) : list json :=
  lit ["ffmpeg"; "-reconnect"; "1"; "-reconnect_streamed"; "1";
       "-reconnect_delay_max"; "5"; "-i"]
  ++ [audio_url]
  ++ lit ["-f"; "mp3"; "-acodec"; "libmp3lame"; "-ar"; "44100"; "-ac"; "2";
          "-b:a"; "192k"; "-bufsize"; "512k"; "-max_delay"; "500000";
          "-vn"; "-"].

Definition stream_music (w : world) (req : request) (s : server)
    : response * server :=
  let query := PyStr.strip (arg "q" req) in
  if negb (PyStr.nonempty query) then
    ({| status := 400;
        payload := Text "❌ Thiếu tên bài hát. Sử dụng: /stream?q=tên_bài_hát" |}, s)
  else
    let (audio_url, s) := get_direct_stream_url w query s in
    match audio_url with
    | Some url =>
        if truthy url then
          ({| status := 200;
              payload := Audio (stream_ffmpeg_cmd url) Transcode.web_generate |},
           count_stream w true s)
        else
          ({| status := 404;
              payload := Text ("❌ Không tìm thấy bài hát: " ++ query)%string |},
           count_stream w false s)
    | None =>
        ({| status := 404;
            payload := Text ("❌ Không tìm thấy bài hát: " ++ query)%string |},
         count_stream w false s)
    end.

(** The query of [/stream_pcm]: lines 1290-1292. *)
Definition stream_pcm_query (song singer : string) : string :=
  if PyStr.nonempty singer
     && negb (String.eqb (PyStr.lower singer) "youtube")
  then (song ++ " " ++ singer)%string
  else song.

Definition pcm_not_found (query song singer : string) : response :=
  {| status := 404;
     payload := Json
       [ ("error", JStr ("Không tìm thấy bài hát: " ++ query)%string);
         ("artist", JStr (if PyStr.nonempty singer then singer else ""));
         ("title", JStr song);
         ("audio_url", JStr "");
         ("lyric_url", JStr "") ] |}.

(** [/stream_pcm]: lines 1275-1335. *)
Definition stream_pcm (w : world) (req : request) (s : server)
    : response * server :=
  let song := PyStr.strip (arg "song" req) in
  let singer := PyStr.strip (arg "singer" req) in
  if negb (PyStr.nonempty song) then
    ({| status := 400;
        payload := Json
          [ ("error", JStr "Thiếu tham số song");
            ("artist", JStr "");
            ("title", JStr "");
            ("audio_url", JStr "");
            ("lyric_url", JStr "") ] |}, s)
  else
    let query := stream_pcm_query song singer in
    let (audio_url, s) := get_direct_stream_url w query s in
    match audio_url with
    | Some url =>
        if truthy url then
          let s := count_stream w true s in
          let (title, artist) := get_video_info w url in
          let artist :=
            if PyStr.nonempty singer && String.eqb artist "Unknown"
            then singer else artist in
          let stream_url :=
            ("http://" ++ host req ++ "/esp32_stream?song=" ++ Quote.quote song
             ++ "&singer=" ++ Quote.quote singer)%string in
          ({| status := 200;
              payload := Json
                [ ("artist", JStr artist);
                  ("title", JStr title);
                  ("audio_url", JStr stream_url);
                  ("lyric_url", JStr "");
                  ("error", JStr "");
                  ("bitrate", JNum 128);
                  ("sample_rate", JNum 44100);
                  ("channels", JNum 2) ] |}, s)
        else (pcm_not_found query song singer, count_stream w false s)
    | None => (pcm_not_found query song singer, count_stream w false s)
    end.

(** The query of [/esp32_stream]: lines 1347-1349. *)
Definition esp32_stream_query (song singer : string) : string :=
  if PyStr.nonempty singer
     && negb (String.eqb (PyStr.lower singer) "youtube")
  then (song ++ " " ++ singer)%string
  else song.

Definition esp32_ffmpeg_cmd (audio_url : json) : list json :=
  lit ["ffmpeg"; "-reconnect"; "1"; "-reconnect_streamed"; "1";
       "-reconnect_delay_max"; "5"; "-i"]
  ++ [audio_url]
  ++ lit ["-f"; "mp3"; "-acodec"; "libmp3lame"; "-ar"; "24000"; "-ac"; "2";
          "-b:a"; "80k"; "-q:a"; "7"; "-bufsize"; "160k";
          "-fflags"; "+discardcorrupt"; "-max_muxing_queue_size"; "640";
          "-vn"; "-"].

(** [/esp32_stream]: lines 1338-1466. *)
Definition esp32_stream (w : world) (req : request) (s : server)
    : response * server :=
  let song := PyStr.strip (arg "song" req) in
  let singer := PyStr.strip (arg "singer" req) in
  if negb (PyStr.nonempty song) then
    ({| status := 400; payload := Text "❌ Missing song parameter" |}, s)
  else
    let query := esp32_stream_query song singer in
    let (audio_url, s) := get_direct_stream_url w query s in
    match audio_url with
    | Some url =>
        if truthy url then
          ({| status := 200;
              payload := Audio (esp32_ffmpeg_cmd url) Transcode.esp32_generate |},
           count_stream w true s)
        else
          ({| status := 404; payload := Text "❌ Song not found" |},
           count_stream w false s)
    | None =>
        ({| status := 404; payload := Text "❌ Song not found" |},
         count_stream w false s)
    end.

(** The value given to [flag] in a command line: after the program name
    the arguments of both command lines are pairs of a flag and its
    value, up to the final [-vn -]. *)
Fixpoint options_get (flag : string) (opts : list json) : option json :=
  match opts with
  | JStr f :: v :: rest =>
      if String.eqb f flag then Some v else options_get flag rest
  | _ => None
  end.

Definition cmd_option (flag : string) (cmd : list json) : option json :=
  options_get flag (tl cmd).

(** The number an ffmpeg option denotes: decimal digits, with an optional
    [k] for thousands. *)
Definition decimal (s : string) : option Z :=
  option_map (fun u => Z.of_N (N.of_uint u)) (NilEmpty.uint_of_string s).

Definition ffmpeg_number (v : json) : option Z :=
  match v with
  | JStr s =>
      let n := String.length s in
      if String.eqb (String.substring (n - 1) 1 s) "k"
      then option_map (Z.mul 1000) (decimal (String.substring 0 (n - 1) s))
      else decimal s
  | _ => None
  end.

(** A field of a [jsonify] body. *)
Definition field (name : string) (r : response) : option json :=
  match payload r with
  | Json fields => Dict.get name fields
  | _ => None
  end.

End Endpoints.

(** ** The vocabulary of the statements

    Predicates and measures that the properties below are stated with. *)

Module Spec.
Import PyStr Dict Cache Resolver Extractor Resolution Transcode.

(** Whether a string does not start with a space. *)
Definition starts_clean (s : string) : bool :=
  match s with
  | EmptyString => true
  | String c _ => negb (is_space c)
  end.

(** [e] was created no later than [e']. *)
Definition older (e e' : entry) : Prop := cache_time e <= cache_time e'.

(** Whether the key of [e] is one of [ks]. *)
Definition listed (ks : list string) (e : entry) : bool :=
  existsb (String.eqb (key e)) ks.

(** The identifier a search pass can use: that of its first result, when
    the pass returns at least one result and the identifier is there and
    not empty. *)
Definition usable_id (o : search_outcome) : option string :=
  match o with
  | SearchResults (r :: _) =>
      match videoId r with
      | Some id => if String.eqb id "" then None else Some id
      | None => None
      end
  | _ => None
  end.

(** The claim as the specification words it: whenever the song search
    yields a result, the link comes from the first song result and no
    video search is made. *)
Definition song_result_decides (w : world) (query : string) : Prop :=
  forall r rs,
    ytmusic_search w query "songs" = SearchResults (r :: rs) ->
    exists id,
      videoId r = Some id /\
      search_with_ytmusic w query = (Some (watch_link id), ["songs"]).

(** The three answers the fallback takes a URL from, for a JSON object
    [data] holding the string [u]. *)
Definition redirect_shape (data : list (string * json)) (u : string) : Prop :=
  Dict.get "status" data = Some (JStr "redirect") /\
  Dict.get "url" data = Some (JStr u).

Definition url_shape (data : list (string * json)) (u : string) : Prop :=
  Dict.get "url" data = Some (JStr u).

Definition audio_shape (data : list (string * json)) (u : string) : Prop :=
  Dict.get "url" data = None /\ Dict.get "audio" data = Some (JStr u).

(** An object with neither field. *)
Definition unrecognized (data : list (string * json)) : Prop :=
  Dict.get "url" data = None /\ Dict.get "audio" data = None.

(** Whether the lookup of [get_direct_stream_url] finds a live entry. *)
Definition live_hit (w : world) (query : string) (s : server) : bool :=
  match get (cache_key query)
            (cleanup_cache (clock_cleanup w) (stream_cache s)) with
  | Some (created, _) => clock_lookup w - created <? CACHE_DURATION
  | None => false
  end.

Definition resolution_fails (w : world) (query : string) : bool :=
  match resolve w query with Some _ => false | None => true end.


End Spec.

(** ** Scenarios: concrete worlds, servers, requests and subprocesses *)

Module Scenarios.
Import Resolution Endpoints Transcode.

(** A world in which nothing answers. *)
Definition silent : world :=
  {| ytmusic_ready := true;
     ytmusic_search := fun _ _ => SearchResults [];
     extract_info := fun _ => ExtractRaises;
     shuffle := fun l => l;
     cobalt_post := fun _ _ => Timeout;
     video_info := fun _ => InfoRaises;
     clock_cleanup := 0; clock_lookup := 0; clock_store := 0;
     clock_stats := 0 |}.

Definition with_search (f : string -> string -> search_outcome) (w : world)
    : world :=
  {| ytmusic_ready := ytmusic_ready w;
     ytmusic_search := f;
     extract_info := extract_info w;
     shuffle := shuffle w;
     cobalt_post := cobalt_post w;
     video_info := video_info w;
     clock_cleanup := clock_cleanup w; clock_lookup := clock_lookup w;
     clock_store := clock_store w; clock_stats := clock_stats w |}.

(** A song result without an identifier, and a video result with one. *)
Definition song_without_id : world :=
  with_search
    (fun _ filter =>
       if String.eqb filter "songs"
       then SearchResults [ {| videoId := None; title := Some "Hello" |} ]
       else SearchResults [ {| videoId := Some "abc123"; title := Some "Hello" |} ])
    silent.

Definition one_entry : server :=
  {| stream_cache := [("hello", (1000, JStr "https://old/a.m4a"))];
     SERVER_STATS := Stats.initial |}.

Definition at_time (t : Z) : world :=
  {| ytmusic_ready := true;
     ytmusic_search := fun _ _ =>
       SearchResults [ {| videoId := Some "abc123"; title := Some "Hello" |} ];
     extract_info := fun _ => ExtractInfo (Some "https://new/b.m4a") [];
     shuffle := fun l => l;
     cobalt_post := fun _ _ => Timeout;
     video_info := fun _ => InfoRaises;
     clock_cleanup := t; clock_lookup := t; clock_store := t;
     clock_stats := t |}.

(** A subprocess that has written its last three bytes and has exited
    before the generator tests [poll()]. *)
Definition finished : process :=
  {| pipe := [Byte.x49; Byte.x44; Byte.x33]; pending := [] |}.

(** A subprocess whose last write is one full chunk and three bytes, and
    that exits after it. *)
Definition last_write : process :=
  {| pipe := [];
     pending := [repeat Byte.xff WEB_CHUNK ++ [Byte.x65; Byte.x6e; Byte.x64]] |}.

(** [/stream_pcm?song=Shape+of+You&singer=Ed+Sheeran], as the framework
    hands it over. *)
Definition shape_of_you (host : string) : request :=
  {| args := [("song", "Shape of You"); ("singer", "Ed Sheeran")];
     host := host |}.

Definition fresh_server : server :=
  {| stream_cache := []; SERVER_STATS := Stats.initial |}.

Definition shape_request : request :=
  {| args := [("song", "Shape of You"); ("singer", "youtube")];
     host := "10.0.0.2:5000" |}.

End Scenarios.

(** ** Further parts of the program *)

(** *** [cleanup_cache] with Python's [KeyError] *)

Module CacheChecked.
Import Dict Cache.

(** [cleanup_cache] as Python runs it: [None] is a [KeyError] raised by
    one of its two [del] loops. *)
Definition cleanup_cache_checked (current_time : Z) (c : cache)
    : option cache :=
  match del_keys_checked (expired_keys current_time c) c with
  | None => None
  | Some c1 =>
      if (MAX_CACHE_SIZE <? List.length c1)%nat
      then del_keys_checked (keys_to_remove c1) c1
      else Some c1
  end.

(** Whether no key occurs twice, as a test. *)
Fixpoint distinct (ks : list string) : bool :=
  match ks with
  | [] => true
  | k :: rest => negb (existsb (String.eqb k) rest) && distinct rest
  end.

(** Whether an entry is still within the TTL at [now], as the expiry loop
    of [cleanup_cache] sees it. *)
Definition unexpired (now : Z) (e : entry) : bool :=
  now - cache_time e <=? CACHE_DURATION.

(** A small cache: one entry past the TTL at time 3000, two within. *)
Definition three_entries : cache :=
  [ ("hello", (1000, JStr "https://cdn/1.m4a"));
    ("shape of you", (2000, JStr "https://cdn/2.m4a"));
    ("https://youtu.be/x", (2500, JStr "https://cdn/3.m4a")) ].

End CacheChecked.

(** *** A history of [update_stats] calls *)

Module StatsLog.

Record call : Type := {
  call_time : Z;
  request_type : string;
  success : bool
}.

Definition replay (calls : list call) (s : Stats.t) : Stats.t :=
  fold_left
    (fun s c => Stats.update_stats (call_time c) (request_type c) (success c) s)
    calls s.

Definition is_call (type : string) (ok : bool) (c : call) : bool :=
  String.eqb (request_type c) type && Bool.eqb (success c) ok.

Definition indicator (b : bool) : Z := if b then 1 else 0.

(** How many calls of [calls] have this type and outcome. *)
Definition count (type : string) (ok : bool) (calls : list call) : Z :=
  Z.of_nat (List.length (filter (is_call type ok) calls)).

(** The time of the last ['stream'] call, if any. *)
Definition last_stream (calls : list call) : option Z :=
  match rev (filter (fun c => String.eqb (request_type c) "stream") calls) with
  | c :: _ => Some (call_time c)
  | [] => None
  end.

End StatsLog.

(** *** The cache between two requests *)

Module CacheState.
Import Dict Cache Resolution.

(** Every cached URL has a true truth value. *)
Definition all_truthy (c : cache) : Prop :=
  Forall (fun e => truthy (cache_url e) = true) c.

(** No entry of the cache was created after [t]: the clock has not run
    backwards since. *)
Definition none_after (t : Z) (c : cache) : Prop :=
  Forall (fun e => cache_time e <= t) c.

(** A world with other fallback instances. *)
Definition with_fallback (sh : list string -> list string)
    (post : string -> string -> http_outcome) (w : world) : world :=
  {| ytmusic_ready := ytmusic_ready w;
     ytmusic_search := ytmusic_search w;
     extract_info := extract_info w;
     shuffle := sh;
     cobalt_post := post;
     video_info := video_info w;
     clock_cleanup := clock_cleanup w; clock_lookup := clock_lookup w;
     clock_store := clock_store w; clock_stats := clock_stats w |}.

(** A world with another search client. *)
Definition with_client (ready : bool)
    (search : string -> string -> search_outcome) (w : world) : world :=
  {| ytmusic_ready := ready;
     ytmusic_search := search;
     extract_info := extract_info w;
     shuffle := shuffle w;
     cobalt_post := cobalt_post w;
     video_info := video_info w;
     clock_cleanup := clock_cleanup w; clock_lookup := clock_lookup w;
     clock_store := clock_store w; clock_stats := clock_stats w |}.

(** The source link that [get_direct_stream_url] hands to the extractor
    chain. *)
Definition source_link (w : world) (query : string) : option string :=
  if is_link query then Some query
  else fst (Resolver.search_with_ytmusic w query).

(** A world in which nothing answers, at time [t]. *)
Definition silent_at (t : Z) : world :=
  {| ytmusic_ready := true;
     ytmusic_search := fun _ _ => SearchResults [];
     extract_info := fun _ => ExtractRaises;
     shuffle := fun l => l;
     cobalt_post := fun _ _ => Timeout;
     video_info := fun _ => InfoRaises;
     clock_cleanup := t; clock_lookup := t; clock_store := t;
     clock_stats := t |}.

(** A server whose cache holds [three_entries]. *)
Definition warm_server : server :=
  {| stream_cache := CacheChecked.three_entries;
     SERVER_STATS := Stats.initial |}.

End CacheState.

(** *** Vocabulary for the extractor chain *)

Module ExtractorSpec.
Import Extractor.

(** A format with an audio codec and no video, as the loop of
    [get_best_audio_url_ytdlp] tests it, and with a URL that is not
    empty. *)
Definition audio_only (fmt : audio_format) : Prop :=
  acodec fmt <> Some "none" /\ vcodec fmt = Some "none".

Definition offers (fmt : audio_format) (u : string) : Prop :=
  audio_only fmt /\ format_url fmt = Some u /\ u <> "".

(** The test of the loop on one format: the URL it returns, if any. *)
Definition takes (fmt : audio_format) : option string :=
  if match acodec fmt with
     | Some a => negb (String.eqb a "none")
     | None => true
     end
     && match vcodec fmt with
        | Some v => String.eqb v "none"
        | None => false
        end
  then match format_url fmt with
       | Some u => if PyStr.nonempty u then Some u else None
       | None => None
       end
  else None.

(** A world whose extractor lists three formats: video with sound, audio
    without a URL, audio with a URL. *)
Definition listing : world :=
  {| ytmusic_ready := true;
     ytmusic_search := fun _ _ => SearchResults [];
     extract_info := fun _ =>
       ExtractInfo None
         [ {| acodec := Some "mp4a"; vcodec := Some "avc1";
              format_url := Some "https://cdn/video.mp4" |};
           {| acodec := Some "opus"; vcodec := Some "none";
              format_url := None |};
           {| acodec := None; vcodec := Some "none";
              format_url := Some "https://cdn/audio.m4a" |} ];
     shuffle := fun l => l;
     cobalt_post := fun _ _ => Timeout;
     video_info := fun _ => InfoRaises;
     clock_cleanup := 0; clock_lookup := 0; clock_store := 0;
     clock_stats := 0 |}.

(** A world whose second instance (in list order) answers with a URL that
    is a number, and whose third answers with a string. *)
Definition odd_answers : world :=
  {| ytmusic_ready := true;
     ytmusic_search := fun _ _ => SearchResults [];
     extract_info := fun _ => ExtractRaises;
     shuffle := fun l => l;
     cobalt_post := fun instance _ =>
       if String.eqb instance "https://co.wuk.sh" then ConnectionError
       else if String.eqb instance "https://api.cobalt.best"
       then Response 200 (Some (JObj [("url", JNum 5)]))
       else Response 200 (Some (JObj [("audio", JStr "https://a/b.mp3")]));
     video_info := fun _ => InfoRaises;
     clock_cleanup := 0; clock_lookup := 0; clock_store := 0;
     clock_stats := 0 |}.

End ExtractorSpec.

(** *** Vocabulary for the request handlers *)

Module HandlerSpec.
Import Resolution Endpoints.


(** Text of ASCII characters only: on it [PyStr.strip] and [PyStr.lower]
    are [str.strip] and [str.lower]. *)
Fixpoint is_ascii (s : string) : bool :=
  match s with
  | EmptyString => true
  | String c s' => (nat_of_ascii c <? 128)%nat && is_ascii s'
  end.

(** The status and the stream counters that a handler leaves. *)
Definition counted (status : Z) (before after : Stats.t) : Prop :=
  (status = 200 \/ status = 400 \/ status = 404) /\
  Stats.successful_streams after
  = Stats.successful_streams before + StatsLog.indicator (status =? 200) /\
  Stats.failed_streams after
  = Stats.failed_streams before + StatsLog.indicator (status =? 404).

(** How many calls of [update_stats] a request to a streaming endpoint
    makes, by its status and by whether its lookup found a live entry. *)
Definition stats_calls (status : Z) (hit : bool) : Z :=
  if status =? 400 then 0
  else if (status =? 200) && negb hit then 1
  else 2.

(** A request with blanks around its parameters. *)
Definition padded_request : request :=
  {| args := [("song", "  New Song "); ("singer", " YouTube ")];
     host := "10.0.0.2:5000" |}.

(** The same request without the blanks. *)
Definition plain_request : request :=
  {| args := [("singer", "YouTube"); ("song", "New Song")];
     host := "10.0.0.2:5000" |}.

End HandlerSpec.

(** *** The loop of [/download] *)

Module Download.
Import Transcode.

(** Chunks of [n] bytes, none empty, the last one possibly of another
    length. *)
Definition full_but_last (n : nat) (chunks : list chunk) : Prop :=
  Forall (fun c => c <> []) chunks /\
  Forall (fun c => List.length c = n) (removelast chunks).

(** What the subprocess of [/download] writes next: bytes to its standard
    output, or [size] bytes to its standard error.  Line 1548 opens both
    as pipes. *)
Inductive write : Type :=
| Stdout (data : chunk)
| Stderr (size : nat).

(** The subprocess of [/download]: the bytes written to its standard
    output and not yet read, the number of bytes held by the pipe of its
    standard error, and the writes still to come.  It exits after the
    last of them. *)
Record process : Type := {
  stdout : chunk;
  stderr : nat;
  pending : list write
}.

(** A write to the standard error goes through when the pipe, which holds
    [capacity] bytes, has room for it.  [download_music.generate] never
    reads that pipe, so it never gets more room: a write that does not
    fit is never completed and the subprocess does nothing after it. *)
Definition fits (capacity held size : nat) : bool :=
  (held + size <=? capacity)%nat.

(** One more write of the subprocess, if it can make it. *)
Definition advance (capacity : nat) (p : process) : process :=
  match pending p with
  | [] => p
  | Stdout w :: rest =>
      {| stdout := stdout p ++ w; stderr := stderr p; pending := rest |}
  | Stderr k :: rest =>
      if fits capacity (stderr p) k
      then {| stdout := stdout p; stderr := stderr p + k; pending := rest |}
      else p
  end.

Fixpoint run_for (capacity steps : nat) (p : process) : process :=
  match steps with
  | O => p
  | S n => run_for capacity n (advance capacity p)
  end.

(** [process.stdout.read(n)] waits for [n] bytes or for the end of the
    output while the subprocess goes on; [None] when the subprocess gets
    stuck on its standard error before either: the read never returns. *)
Fixpoint fill (capacity n : nat) (buf : chunk) (held : nat)
    (coming : list write) : option process :=
  if (n <=? List.length buf)%nat
  then Some {| stdout := buf; stderr := held; pending := coming |}
  else
    match coming with
    | [] => Some {| stdout := buf; stderr := held; pending := [] |}
    | Stdout w :: rest => fill capacity n (buf ++ w) held rest
    | Stderr k :: rest =>
        if fits capacity held k then fill capacity n buf (held + k) rest
        else None
    end.

Definition read (capacity n : nat) (p : process) : option (chunk * process) :=
  match fill capacity n (stdout p) (stderr p) (pending p) with
  | Some p' =>
      Some (firstn n (stdout p'),
            {| stdout := skipn n (stdout p');
               stderr := stderr p';
               pending := pending p' |})
  | None => None
  end.

(** How a run of the generator goes: it yields chunks and returns, or it
    yields chunks and then waits in a read that never returns. *)
Inductive run : Type :=
| Ends (chunks : list chunk)
| Hangs (chunks : list chunk).

Definition yielded (r : run) : list chunk :=
  match r with Ends chunks | Hangs chunks => chunks end.

Definition yield (data : chunk) (r : run) : run :=
  match r with
  | Ends chunks => Ends (data :: chunks)
  | Hangs chunks => Hangs (data :: chunks)
  end.

(** The [while True] loop of [download_music.generate], reading [n] bytes
    at a time: it ends on the first empty read and never asks whether the
    subprocess has exited.  [None] if [fuel] iterations do not settle how
    the run goes. *)
Fixpoint download_loop (capacity n : nat) (fuel : nat) (sched : schedule)
    (p : process) : option run :=
  match fuel with
  | O => None
  | S fuel' =>
      let p := run_for capacity (hd O sched) p in
      match read capacity n p with
      | None => Some (Hangs [])
      | Some (data, p') =>
          match data with
          | [] => Some (Ends [])
          | _ =>
              option_map (yield data)
                         (download_loop capacity n fuel' (tl sched) p')
          end
      end
  end.

(** [process.stdout.read(8192)] *)
Definition download_generate (capacity : nat)
    : nat -> schedule -> process -> option run :=
  download_loop capacity WEB_CHUNK.

(** The bytes the subprocess gets to write to its standard output from
    [coming] on, and whether it gets to its end. *)
Fixpoint reach (capacity held : nat) (coming : list write) : chunk * bool :=
  match coming with
  | [] => ([], true)
  | Stdout w :: rest =>
      let (out, done) := reach capacity held rest in (w ++ out, done)
  | Stderr k :: rest =>
      if fits capacity held k then reach capacity (held + k) rest
      else ([], false)
  end.

Definition output (capacity : nat) (p : process) : chunk :=
  stdout p ++ fst (reach capacity (stderr p) (pending p)).

Definition completes (capacity : nat) (p : process) : bool :=
  snd (reach capacity (stderr p) (pending p)).

(** All that the subprocess wants to write to its standard error. *)
Fixpoint stderr_total (coming : list write) : nat :=
  match coming with
  | [] => O
  | Stdout _ :: rest => stderr_total rest
  | Stderr k :: rest => (k + stderr_total rest)%nat
  end.

(** Iterations that are always enough to settle a run. *)
Definition enough (capacity : nat) (p : process) : nat :=
  S (List.length (output capacity p)).

(** A subprocess that writes 10000 bytes in two writes, 300 bytes of
    messages in between, and exits. *)
Definition two_writes : process :=
  {| stdout := [];
     stderr := O;
     pending := [Stdout (repeat Byte.x41 (Z.to_nat 6000));
                 Stderr (Z.to_nat 300);
                 Stdout (repeat Byte.x42 (Z.to_nat 4000))] |}.

(** A subprocess that writes 9000 bytes, then more messages than the pipe
    of its standard error will hold, then 9000 bytes more. *)
Definition chatty (capacity : nat) : process :=
  {| stdout := [];
     stderr := O;
     pending := [Stdout (repeat Byte.x41 (Z.to_nat 9000));
                 Stderr (S capacity);
                 Stdout (repeat Byte.x42 (Z.to_nat 9000))] |}.

End Download.

(** *** The log buffer of the dashboard *)

Module Logs.

(** One entry of [LOG_BUFFER]. *)
Record log_entry : Type := {
  timestamp : string;
  level : string;
  message : string;
  module_name : string;   (* the key ['module'] *)
  color : string
}.

(** What [emit] reads of a [logging] record: its level name, the name of
    its logger, and the line [self.format(record)] makes of it. *)
Record log_record : Type := {
  levelname : string;
  name : string;
  formatted : string
}.

(** [LOG_BUFFER = deque(maxlen=200)] *)
Definition MAXLEN : nat := 200.

(** [LOG_BUFFER.append(x)]: a full deque drops its oldest item. *)
Definition append (x : log_entry) (buffer : list log_entry) : list log_entry :=
  let b := buffer ++ [x] in
  skipn (List.length b - MAXLEN) b.

(** [DashboardLogHandler.get_color] *)
Definition colors : Dict.dict string :=
  [ ("INFO", "info"); ("WARNING", "warning"); ("ERROR", "error");
    ("DEBUG", "debug"); ("CRITICAL", "error") ].

Definition get_color (level : string) : string :=
  match Dict.get level colors with
  | Some c => c
  | None => "info"
  end.

(** [DashboardLogHandler.emit(record)], at the time that
    [datetime.now().strftime(...)] prints as [stamp]. *)
Definition emit (stamp : string) (record : log_record)
    (buffer : list log_entry) : list log_entry :=
  append {| timestamp := stamp;
            level := levelname record;
            message := formatted record;
            module_name := name record;
            color := get_color (levelname record) |} buffer.

(** The entry that [emit] makes. *)
Definition entry_of (e : string * log_record) : log_entry :=
  {| timestamp := fst e;
     level := levelname (snd e);
     message := formatted (snd e);
     module_name := name (snd e);
     color := get_color (levelname (snd e)) |}.

(** The buffer after a run of the program that logged [records]. *)
Definition logged (records : list (string * log_record)) : list log_entry :=
  fold_left (fun buffer e => emit (fst e) (snd e) buffer) records [].

(** The last [n] items of a list: [l[-n:]]. *)
Definition last_items {A} (n : nat) (l : list A) : list A :=
  skipn (List.length l - n) l.

End Logs.

(** *** [/clear_cache] *)

Module Admin.
Import Resolution Endpoints.

(** [f"{count}"] for a count. *)
Definition show_count (n : nat) : string :=
  NilZero.string_of_uint (Nat.to_uint n).

(** [clear_cache()], with [now] for [int(time.time())]. *)
Definition clear_cache (now : Z) (s : server) : response * server :=
  let count := List.length (stream_cache s) in
  ({| status := 200;
      payload := Json
        [ ("success", JBool true);
          ("message", JStr ("Đã xóa " ++ show_count count ++ " mục cache")%string);
          ("cache_size", JNum 0);
          ("timestamp", JNum now) ] |},
   {| stream_cache := []; SERVER_STATS := SERVER_STATS s |}).

End Admin.

(** *** Reading a quoted string back *)

Module Unquote.

Definition hex_value (c : ascii) : option nat :=
  let n := nat_of_ascii c in
  if ((48 <=? n) && (n <=? 57))%nat then Some (n - 48)%nat
  else if ((65 <=? n) && (n <=? 70))%nat then Some (n - 55)%nat
  else if ((97 <=? n) && (n <=? 102))%nat then Some (n - 87)%nat
  else None.

(** The inverse of [Quote.quote] on bytes: [%XY] becomes the byte it
    names, everything else stays. *)
Fixpoint unquote (s : string) : string :=
  match s with
  | EmptyString => EmptyString
  | String c s' =>
      if Ascii.eqb c "%" then
        match s' with
        | String a (String b rest) =>
            match hex_value a, hex_value b with
            | Some x, Some y =>
                String (ascii_of_nat (16 * x + y)) (unquote rest)
            | _, _ => String c (unquote s')
            end
        | _ => String c (unquote s')
        end
      else String c (unquote s')
  end.

(** Whether a string has no ampersand. *)
Fixpoint no_amp (s : string) : bool :=
  match s with
  | EmptyString => true
  | String c s' => negb (Ascii.eqb c "&") && no_amp s'
  end.

(** Whether every character is a letter, a digit, one of [_ . - ~ /] or
    a percent sign. *)
Fixpoint url_safe (s : string) : bool :=
  match s with
  | EmptyString => true
  | String c s' => (Quote.is_safe c || Ascii.eqb c "%") && url_safe s'
  end.

End Unquote.

(** ** Python strings over the whole of Unicode

    [PyStr] above gives [str.strip] and [str.lower] on ASCII text.  This
    module gives them as CPython defines them on every [str]: a sequence
    of code points, stripped of the code points that [str.isspace]
    accepts and lowercased with the full lowercase mapping of the Unicode
    character database, the capital sigma by its context. *)

Module Unicode.

Definition str : Type := list N.

(** What the two methods take from the Unicode character database. *)
Record database : Type := {
  whitespace : list N;
  lowercase : list (N * list N);
  cased : list (N * N);
  case_ignorable : list (N * N)
}.

Fixpoint assoc (c : N) (table : list (N * list N)) : option (list N) :=
  match table with
  | [] => None
  | (k, v) :: rest => if (c =? k)%N then Some v else assoc c rest
  end.

Definition in_ranges (c : N) (ranges : list (N * N)) : bool :=
  existsb (fun r => (fst r <=? c)%N && (c <=? snd r)%N) ranges.

(** GREEK CAPITAL LETTER SIGMA, and the two small letters it has. *)
Definition CAPITAL_SIGMA : N := 0x3a3%N.
Definition FINAL_SIGMA : N := 0x3c2%N.
Definition SMALL_SIGMA : N := 0x3c3%N.

Section Methods.
Variable db : database.

(** [Py_UNICODE_ISSPACE] *)
Definition is_space (c : N) : bool := existsb (N.eqb c) (whitespace db).

Definition is_cased (c : N) : bool := in_ranges c (cased db).

Definition is_case_ignorable (c : N) : bool :=
  in_ranges c (case_ignorable db).

(** [_PyUnicode_ToLowerFull] *)
Definition to_lower_full (c : N) : list N :=
  match assoc c (lowercase db) with
  | Some mapped => mapped
  | None => [c]
  end.

(** The second loop of [handle_capital_sigma]: after the case-ignorable
    code points that follow, is there a cased one? *)
Fixpoint cased_follows (s : str) : bool :=
  match s with
  | [] => false
  | c :: s' => if is_case_ignorable c then cased_follows s' else is_cased c
  end.

(** [handle_capital_sigma]: the sigma is final when a cased code point
    comes before it, case-ignorable ones skipped, and none comes after
    it in the same way. *)
Definition handle_capital_sigma (cased_before : bool) (rest : str) : N :=
  if cased_before && negb (cased_follows rest) then FINAL_SIGMA
  else SMALL_SIGMA.

(** [lower_ucs4] on the code point [c] followed by [rest]. *)
Definition lower_ucs4 (cased_before : bool) (c : N) (rest : str) : list N :=
  if (c =? CAPITAL_SIGMA)%N then [handle_capital_sigma cased_before rest]
  else to_lower_full c.

(** What the first loop of [handle_capital_sigma] finds for the code
    point after [c]. *)
Definition cased_after (cased_before : bool) (c : N) : bool :=
  if is_case_ignorable c then cased_before else is_cased c.

(** [do_lower], from left to right; [cased_before] tells whether the
    last code point already passed that is not case-ignorable is cased. *)
Fixpoint do_lower (cased_before : bool) (s : str) : str :=
  match s with
  | [] => []
  | c :: s' =>
      lower_ucs4 cased_before c s' ++ do_lower (cased_after cased_before c) s'
  end.

(** [s.lower()] *)
Definition lower (s : str) : str := do_lower false s.

Fixpoint lstrip (s : str) : str :=
  match s with
  | [] => []
  | c :: s' => if is_space c then lstrip s' else s
  end.

Fixpoint rstrip (s : str) : str :=
  match s with
  | [] => []
  | c :: s' =>
      match rstrip s' with
      | [] => if is_space c then [] else [c]
      | r => c :: r
      end
  end.

(** [s.strip()] *)
Definition strip (s : str) : str := rstrip (lstrip s).

(** [cache_key = query.strip().lower()], line 325. *)
Definition cache_key (query : str) : str := lower (strip query).

(** A code point that [lower] leaves alone. *)
Definition fixed (c : N) : Prop :=
  c <> CAPITAL_SIGMA /\ to_lower_full c = [c].

(** A code point that [lower] leaves alone and [strip] does not remove. *)
Definition untouched (c : N) : bool :=
  negb (c =? CAPITAL_SIGMA)%N && negb (is_space c)
  && match assoc c (lowercase db) with None => true | Some _ => false end.

(** What the tables of the database have to do with each other: a
    whitespace code point has no case and no lowercase of its own, and
    the code points of a lowercase are [untouched]. *)
Definition consistent : bool :=
  forallb (fun c => negb (c =? CAPITAL_SIGMA)%N
                    && negb (is_cased c) && negb (is_case_ignorable c)
                    && match assoc c (lowercase db) with
                       | None => true
                       | Some _ => false
                       end)
          (whitespace db)
  && forallb (fun e => match snd e with
                       | [] => false
                       | mapped => forallb untouched mapped
                       end)
             (lowercase db)
  && untouched FINAL_SIGMA && untouched SMALL_SIGMA.

End Methods.

(** The database of Unicode 14.0.0, which CPython 3.11 is built with. *)

(** The code points [c] with [chr(c).isspace()]: what [str.strip]
    removes. *)
Definition WHITESPACE : list N :=
  [
   0x9; 0xa; 0xb; 0xc; 0xd; 0x1c; 0x1d; 0x1e;
   0x1f; 0x20; 0x85; 0xa0; 0x1680; 0x2000; 0x2001; 0x2002;
   0x2003; 0x2004; 0x2005; 0x2006; 0x2007; 0x2008; 0x2009; 0x200a;
   0x2028; 0x2029; 0x202f; 0x205f; 0x3000 ]%N.

(** The code points whose lowercase is not themselves, each with its
    lowercase: one code point, but for U+0130 which has two. *)
Definition LOWERCASE : list (N * list N) :=
  [
   (0x41, [0x61]); (0x42, [0x62]); (0x43, [0x63]); (0x44, [0x64]);
   (0x45, [0x65]); (0x46, [0x66]); (0x47, [0x67]); (0x48, [0x68]);
   (0x49, [0x69]); (0x4a, [0x6a]); (0x4b, [0x6b]); (0x4c, [0x6c]);
   (0x4d, [0x6d]); (0x4e, [0x6e]); (0x4f, [0x6f]); (0x50, [0x70]);
   (0x51, [0x71]); (0x52, [0x72]); (0x53, [0x73]); (0x54, [0x74]);
   (0x55, [0x75]); (0x56, [0x76]); (0x57, [0x77]); (0x58, [0x78]);
   (0x59, [0x79]); (0x5a, [0x7a]); (0xc0, [0xe0]); (0xc1, [0xe1]);
   (0xc2, [0xe2]); (0xc3, [0xe3]); (0xc4, [0xe4]); (0xc5, [0xe5]);
   (0xc6, [0xe6]); (0xc7, [0xe7]); (0xc8, [0xe8]); (0xc9, [0xe9]);
   (0xca, [0xea]); (0xcb, [0xeb]); (0xcc, [0xec]); (0xcd, [0xed]);
   (0xce, [0xee]); (0xcf, [0xef]); (0xd0, [0xf0]); (0xd1, [0xf1]);
   (0xd2, [0xf2]); (0xd3, [0xf3]); (0xd4, [0xf4]); (0xd5, [0xf5]);
   (0xd6, [0xf6]); (0xd8, [0xf8]); (0xd9, [0xf9]); (0xda, [0xfa]);
   (0xdb, [0xfb]); (0xdc, [0xfc]); (0xdd, [0xfd]); (0xde, [0xfe]);
   (0x100, [0x101]); (0x102, [0x103]); (0x104, [0x105]); (0x106, [0x107]);
   (0x108, [0x109]); (0x10a, [0x10b]); (0x10c, [0x10d]); (0x10e, [0x10f]);
   (0x110, [0x111]); (0x112, [0x113]); (0x114, [0x115]); (0x116, [0x117]);
   (0x118, [0x119]); (0x11a, [0x11b]); (0x11c, [0x11d]); (0x11e, [0x11f]);
   (0x120, [0x121]); (0x122, [0x123]); (0x124, [0x125]); (0x126, [0x127]);
   (0x128, [0x129]); (0x12a, [0x12b]); (0x12c, [0x12d]); (0x12e, [0x12f]);
   (0x130, [0x69; 0x307]); (0x132, [0x133]); (0x134, [0x135]); (0x136, [0x137]);
   (0x139, [0x13a]); (0x13b, [0x13c]); (0x13d, [0x13e]); (0x13f, [0x140]);
   (0x141, [0x142]); (0x143, [0x144]); (0x145, [0x146]); (0x147, [0x148]);
   (0x14a, [0x14b]); (0x14c, [0x14d]); (0x14e, [0x14f]); (0x150, [0x151]);
   (0x152, [0x153]); (0x154, [0x155]); (0x156, [0x157]); (0x158, [0x159]);
   (0x15a, [0x15b]); (0x15c, [0x15d]); (0x15e, [0x15f]); (0x160, [0x161]);
   (0x162, [0x163]); (0x164, [0x165]); (0x166, [0x167]); (0x168, [0x169]);
   (0x16a, [0x16b]); (0x16c, [0x16d]); (0x16e, [0x16f]); (0x170, [0x171]);
   (0x172, [0x173]); (0x174, [0x175]); (0x176, [0x177]); (0x178, [0xff]);
   (0x179, [0x17a]); (0x17b, [0x17c]); (0x17d, [0x17e]); (0x181, [0x253]);
   (0x182, [0x183]); (0x184, [0x185]); (0x186, [0x254]); (0x187, [0x188]);
   (0x189, [0x256]); (0x18a, [0x257]); (0x18b, [0x18c]); (0x18e, [0x1dd]);
   (0x18f, [0x259]); (0x190, [0x25b]); (0x191, [0x192]); (0x193, [0x260]);
   (0x194, [0x263]); (0x196, [0x269]); (0x197, [0x268]); (0x198, [0x199]);
   (0x19c, [0x26f]); (0x19d, [0x272]); (0x19f, [0x275]); (0x1a0, [0x1a1]);
   (0x1a2, [0x1a3]); (0x1a4, [0x1a5]); (0x1a6, [0x280]); (0x1a7, [0x1a8]);
   (0x1a9, [0x283]); (0x1ac, [0x1ad]); (0x1ae, [0x288]); (0x1af, [0x1b0]);
   (0x1b1, [0x28a]); (0x1b2, [0x28b]); (0x1b3, [0x1b4]); (0x1b5, [0x1b6]);
   (0x1b7, [0x292]); (0x1b8, [0x1b9]); (0x1bc, [0x1bd]); (0x1c4, [0x1c6]);
   (0x1c5, [0x1c6]); (0x1c7, [0x1c9]); (0x1c8, [0x1c9]); (0x1ca, [0x1cc]);
   (0x1cb, [0x1cc]); (0x1cd, [0x1ce]); (0x1cf, [0x1d0]); (0x1d1, [0x1d2]);
   (0x1d3, [0x1d4]); (0x1d5, [0x1d6]); (0x1d7, [0x1d8]); (0x1d9, [0x1da]);
   (0x1db, [0x1dc]); (0x1de, [0x1df]); (0x1e0, [0x1e1]); (0x1e2, [0x1e3]);
   (0x1e4, [0x1e5]); (0x1e6, [0x1e7]); (0x1e8, [0x1e9]); (0x1ea, [0x1eb]);
   (0x1ec, [0x1ed]); (0x1ee, [0x1ef]); (0x1f1, [0x1f3]); (0x1f2, [0x1f3]);
   (0x1f4, [0x1f5]); (0x1f6, [0x195]); (0x1f7, [0x1bf]); (0x1f8, [0x1f9]);
   (0x1fa, [0x1fb]); (0x1fc, [0x1fd]); (0x1fe, [0x1ff]); (0x200, [0x201]);
   (0x202, [0x203]); (0x204, [0x205]); (0x206, [0x207]); (0x208, [0x209]);
   (0x20a, [0x20b]); (0x20c, [0x20d]); (0x20e, [0x20f]); (0x210, [0x211]);
   (0x212, [0x213]); (0x214, [0x215]); (0x216, [0x217]); (0x218, [0x219]);
   (0x21a, [0x21b]); (0x21c, [0x21d]); (0x21e, [0x21f]); (0x220, [0x19e]);
   (0x222, [0x223]); (0x224, [0x225]); (0x226, [0x227]); (0x228, [0x229]);
   (0x22a, [0x22b]); (0x22c, [0x22d]); (0x22e, [0x22f]); (0x230, [0x231]);
   (0x232, [0x233]); (0x23a, [0x2c65]); (0x23b, [0x23c]); (0x23d, [0x19a]);
   (0x23e, [0x2c66]); (0x241, [0x242]); (0x243, [0x180]); (0x244, [0x289]);
   (0x245, [0x28c]); (0x246, [0x247]); (0x248, [0x249]); (0x24a, [0x24b]);
   (0x24c, [0x24d]); (0x24e, [0x24f]); (0x370, [0x371]); (0x372, [0x373]);
   (0x376, [0x377]); (0x37f, [0x3f3]); (0x386, [0x3ac]); (0x388, [0x3ad]);
   (0x389, [0x3ae]); (0x38a, [0x3af]); (0x38c, [0x3cc]); (0x38e, [0x3cd]);
   (0x38f, [0x3ce]); (0x391, [0x3b1]); (0x392, [0x3b2]); (0x393, [0x3b3]);
   (0x394, [0x3b4]); (0x395, [0x3b5]); (0x396, [0x3b6]); (0x397, [0x3b7]);
   (0x398, [0x3b8]); (0x399, [0x3b9]); (0x39a, [0x3ba]); (0x39b, [0x3bb]);
   (0x39c, [0x3bc]); (0x39d, [0x3bd]); (0x39e, [0x3be]); (0x39f, [0x3bf]);
   (0x3a0, [0x3c0]); (0x3a1, [0x3c1]); (0x3a3, [0x3c3]); (0x3a4, [0x3c4]);
   (0x3a5, [0x3c5]); (0x3a6, [0x3c6]); (0x3a7, [0x3c7]); (0x3a8, [0x3c8]);
   (0x3a9, [0x3c9]); (0x3aa, [0x3ca]); (0x3ab, [0x3cb]); (0x3cf, [0x3d7]);
   (0x3d8, [0x3d9]); (0x3da, [0x3db]); (0x3dc, [0x3dd]); (0x3de, [0x3df]);
   (0x3e0, [0x3e1]); (0x3e2, [0x3e3]); (0x3e4, [0x3e5]); (0x3e6, [0x3e7]);
   (0x3e8, [0x3e9]); (0x3ea, [0x3eb]); (0x3ec, [0x3ed]); (0x3ee, [0x3ef]);
   (0x3f4, [0x3b8]); (0x3f7, [0x3f8]); (0x3f9, [0x3f2]); (0x3fa, [0x3fb]);
   (0x3fd, [0x37b]); (0x3fe, [0x37c]); (0x3ff, [0x37d]); (0x400, [0x450]);
   (0x401, [0x451]); (0x402, [0x452]); (0x403, [0x453]); (0x404, [0x454]);
   (0x405, [0x455]); (0x406, [0x456]); (0x407, [0x457]); (0x408, [0x458]);
   (0x409, [0x459]); (0x40a, [0x45a]); (0x40b, [0x45b]); (0x40c, [0x45c]);
   (0x40d, [0x45d]); (0x40e, [0x45e]); (0x40f, [0x45f]); (0x410, [0x430]);
   (0x411, [0x431]); (0x412, [0x432]); (0x413, [0x433]); (0x414, [0x434]);
   (0x415, [0x435]); (0x416, [0x436]); (0x417, [0x437]); (0x418, [0x438]);
   (0x419, [0x439]); (0x41a, [0x43a]); (0x41b, [0x43b]); (0x41c, [0x43c]);
   (0x41d, [0x43d]); (0x41e, [0x43e]); (0x41f, [0x43f]); (0x420, [0x440]);
   (0x421, [0x441]); (0x422, [0x442]); (0x423, [0x443]); (0x424, [0x444]);
   (0x425, [0x445]); (0x426, [0x446]); (0x427, [0x447]); (0x428, [0x448]);
   (0x429, [0x449]); (0x42a, [0x44a]); (0x42b, [0x44b]); (0x42c, [0x44c]);
   (0x42d, [0x44d]); (0x42e, [0x44e]); (0x42f, [0x44f]); (0x460, [0x461]);
   (0x462, [0x463]); (0x464, [0x465]); (0x466, [0x467]); (0x468, [0x469]);
   (0x46a, [0x46b]); (0x46c, [0x46d]); (0x46e, [0x46f]); (0x470, [0x471]);
   (0x472, [0x473]); (0x474, [0x475]); (0x476, [0x477]); (0x478, [0x479]);
   (0x47a, [0x47b]); (0x47c, [0x47d]); (0x47e, [0x47f]); (0x480, [0x481]);
   (0x48a, [0x48b]); (0x48c, [0x48d]); (0x48e, [0x48f]); (0x490, [0x491]);
   (0x492, [0x493]); (0x494, [0x495]); (0x496, [0x497]); (0x498, [0x499]);
   (0x49a, [0x49b]); (0x49c, [0x49d]); (0x49e, [0x49f]); (0x4a0, [0x4a1]);
   (0x4a2, [0x4a3]); (0x4a4, [0x4a5]); (0x4a6, [0x4a7]); (0x4a8, [0x4a9]);
   (0x4aa, [0x4ab]); (0x4ac, [0x4ad]); (0x4ae, [0x4af]); (0x4b0, [0x4b1]);
   (0x4b2, [0x4b3]); (0x4b4, [0x4b5]); (0x4b6, [0x4b7]); (0x4b8, [0x4b9]);
   (0x4ba, [0x4bb]); (0x4bc, [0x4bd]); (0x4be, [0x4bf]); (0x4c0, [0x4cf]);
   (0x4c1, [0x4c2]); (0x4c3, [0x4c4]); (0x4c5, [0x4c6]); (0x4c7, [0x4c8]);
   (0x4c9, [0x4ca]); (0x4cb, [0x4cc]); (0x4cd, [0x4ce]); (0x4d0, [0x4d1]);
   (0x4d2, [0x4d3]); (0x4d4, [0x4d5]); (0x4d6, [0x4d7]); (0x4d8, [0x4d9]);
   (0x4da, [0x4db]); (0x4dc, [0x4dd]); (0x4de, [0x4df]); (0x4e0, [0x4e1]);
   (0x4e2, [0x4e3]); (0x4e4, [0x4e5]); (0x4e6, [0x4e7]); (0x4e8, [0x4e9]);
   (0x4ea, [0x4eb]); (0x4ec, [0x4ed]); (0x4ee, [0x4ef]); (0x4f0, [0x4f1]);
   (0x4f2, [0x4f3]); (0x4f4, [0x4f5]); (0x4f6, [0x4f7]); (0x4f8, [0x4f9]);
   (0x4fa, [0x4fb]); (0x4fc, [0x4fd]); (0x4fe, [0x4ff]); (0x500, [0x501]);
   (0x502, [0x503]); (0x504, [0x505]); (0x506, [0x507]); (0x508, [0x509]);
   (0x50a, [0x50b]); (0x50c, [0x50d]); (0x50e, [0x50f]); (0x510, [0x511]);
   (0x512, [0x513]); (0x514, [0x515]); (0x516, [0x517]); (0x518, [0x519]);
   (0x51a, [0x51b]); (0x51c, [0x51d]); (0x51e, [0x51f]); (0x520, [0x521]);
   (0x522, [0x523]); (0x524, [0x525]); (0x526, [0x527]); (0x528, [0x529]);
   (0x52a, [0x52b]); (0x52c, [0x52d]); (0x52e, [0x52f]); (0x531, [0x561]);
   (0x532, [0x562]); (0x533, [0x563]); (0x534, [0x564]); (0x535, [0x565]);
   (0x536, [0x566]); (0x537, [0x567]); (0x538, [0x568]); (0x539, [0x569]);
   (0x53a, [0x56a]); (0x53b, [0x56b]); (0x53c, [0x56c]); (0x53d, [0x56d]);
   (0x53e, [0x56e]); (0x53f, [0x56f]); (0x540, [0x570]); (0x541, [0x571]);
   (0x542, [0x572]); (0x543, [0x573]); (0x544, [0x574]); (0x545, [0x575]);
   (0x546, [0x576]); (0x547, [0x577]); (0x548, [0x578]); (0x549, [0x579]);
   (0x54a, [0x57a]); (0x54b, [0x57b]); (0x54c, [0x57c]); (0x54d, [0x57d]);
   (0x54e, [0x57e]); (0x54f, [0x57f]); (0x550, [0x580]); (0x551, [0x581]);
   (0x552, [0x582]); (0x553, [0x583]); (0x554, [0x584]); (0x555, [0x585]);
   (0x556, [0x586]); (0x10a0, [0x2d00]); (0x10a1, [0x2d01]); (0x10a2, [0x2d02]);
   (0x10a3, [0x2d03]); (0x10a4, [0x2d04]); (0x10a5, [0x2d05]); (0x10a6, [0x2d06]);
   (0x10a7, [0x2d07]); (0x10a8, [0x2d08]); (0x10a9, [0x2d09]); (0x10aa, [0x2d0a]);
   (0x10ab, [0x2d0b]); (0x10ac, [0x2d0c]); (0x10ad, [0x2d0d]); (0x10ae, [0x2d0e]);
   (0x10af, [0x2d0f]); (0x10b0, [0x2d10]); (0x10b1, [0x2d11]); (0x10b2, [0x2d12]);
   (0x10b3, [0x2d13]); (0x10b4, [0x2d14]); (0x10b5, [0x2d15]); (0x10b6, [0x2d16]);
   (0x10b7, [0x2d17]); (0x10b8, [0x2d18]); (0x10b9, [0x2d19]); (0x10ba, [0x2d1a]);
   (0x10bb, [0x2d1b]); (0x10bc, [0x2d1c]); (0x10bd, [0x2d1d]); (0x10be, [0x2d1e]);
   (0x10bf, [0x2d1f]); (0x10c0, [0x2d20]); (0x10c1, [0x2d21]); (0x10c2, [0x2d22]);
   (0x10c3, [0x2d23]); (0x10c4, [0x2d24]); (0x10c5, [0x2d25]); (0x10c7, [0x2d27]);
   (0x10cd, [0x2d2d]); (0x13a0, [0xab70]); (0x13a1, [0xab71]); (0x13a2, [0xab72]);
   (0x13a3, [0xab73]); (0x13a4, [0xab74]); (0x13a5, [0xab75]); (0x13a6, [0xab76]);
   (0x13a7, [0xab77]); (0x13a8, [0xab78]); (0x13a9, [0xab79]); (0x13aa, [0xab7a]);
   (0x13ab, [0xab7b]); (0x13ac, [0xab7c]); (0x13ad, [0xab7d]); (0x13ae, [0xab7e]);
   (0x13af, [0xab7f]); (0x13b0, [0xab80]); (0x13b1, [0xab81]); (0x13b2, [0xab82]);
   (0x13b3, [0xab83]); (0x13b4, [0xab84]); (0x13b5, [0xab85]); (0x13b6, [0xab86]);
   (0x13b7, [0xab87]); (0x13b8, [0xab88]); (0x13b9, [0xab89]); (0x13ba, [0xab8a]);
   (0x13bb, [0xab8b]); (0x13bc, [0xab8c]); (0x13bd, [0xab8d]); (0x13be, [0xab8e]);
   (0x13bf, [0xab8f]); (0x13c0, [0xab90]); (0x13c1, [0xab91]); (0x13c2, [0xab92]);
   (0x13c3, [0xab93]); (0x13c4, [0xab94]); (0x13c5, [0xab95]); (0x13c6, [0xab96]);
   (0x13c7, [0xab97]); (0x13c8, [0xab98]); (0x13c9, [0xab99]); (0x13ca, [0xab9a]);
   (0x13cb, [0xab9b]); (0x13cc, [0xab9c]); (0x13cd, [0xab9d]); (0x13ce, [0xab9e]);
   (0x13cf, [0xab9f]); (0x13d0, [0xaba0]); (0x13d1, [0xaba1]); (0x13d2, [0xaba2]);
   (0x13d3, [0xaba3]); (0x13d4, [0xaba4]); (0x13d5, [0xaba5]); (0x13d6, [0xaba6]);
   (0x13d7, [0xaba7]); (0x13d8, [0xaba8]); (0x13d9, [0xaba9]); (0x13da, [0xabaa]);
   (0x13db, [0xabab]); (0x13dc, [0xabac]); (0x13dd, [0xabad]); (0x13de, [0xabae]);
   (0x13df, [0xabaf]); (0x13e0, [0xabb0]); (0x13e1, [0xabb1]); (0x13e2, [0xabb2]);
   (0x13e3, [0xabb3]); (0x13e4, [0xabb4]); (0x13e5, [0xabb5]); (0x13e6, [0xabb6]);
   (0x13e7, [0xabb7]); (0x13e8, [0xabb8]); (0x13e9, [0xabb9]); (0x13ea, [0xabba]);
   (0x13eb, [0xabbb]); (0x13ec, [0xabbc]); (0x13ed, [0xabbd]); (0x13ee, [0xabbe]);
   (0x13ef, [0xabbf]); (0x13f0, [0x13f8]); (0x13f1, [0x13f9]); (0x13f2, [0x13fa]);
   (0x13f3, [0x13fb]); (0x13f4, [0x13fc]); (0x13f5, [0x13fd]); (0x1c90, [0x10d0]);
   (0x1c91, [0x10d1]); (0x1c92, [0x10d2]); (0x1c93, [0x10d3]); (0x1c94, [0x10d4]);
   (0x1c95, [0x10d5]); (0x1c96, [0x10d6]); (0x1c97, [0x10d7]); (0x1c98, [0x10d8]);
   (0x1c99, [0x10d9]); (0x1c9a, [0x10da]); (0x1c9b, [0x10db]); (0x1c9c, [0x10dc]);
   (0x1c9d, [0x10dd]); (0x1c9e, [0x10de]); (0x1c9f, [0x10df]); (0x1ca0, [0x10e0]);
   (0x1ca1, [0x10e1]); (0x1ca2, [0x10e2]); (0x1ca3, [0x10e3]); (0x1ca4, [0x10e4]);
   (0x1ca5, [0x10e5]); (0x1ca6, [0x10e6]); (0x1ca7, [0x10e7]); (0x1ca8, [0x10e8]);
   (0x1ca9, [0x10e9]); (0x1caa, [0x10ea]); (0x1cab, [0x10eb]); (0x1cac, [0x10ec]);
   (0x1cad, [0x10ed]); (0x1cae, [0x10ee]); (0x1caf, [0x10ef]); (0x1cb0, [0x10f0]);
   (0x1cb1, [0x10f1]); (0x1cb2, [0x10f2]); (0x1cb3, [0x10f3]); (0x1cb4, [0x10f4]);
   (0x1cb5, [0x10f5]); (0x1cb6, [0x10f6]); (0x1cb7, [0x10f7]); (0x1cb8, [0x10f8]);
   (0x1cb9, [0x10f9]); (0x1cba, [0x10fa]); (0x1cbd, [0x10fd]); (0x1cbe, [0x10fe]);
   (0x1cbf, [0x10ff]); (0x1e00, [0x1e01]); (0x1e02, [0x1e03]); (0x1e04, [0x1e05]);
   (0x1e06, [0x1e07]); (0x1e08, [0x1e09]); (0x1e0a, [0x1e0b]); (0x1e0c, [0x1e0d]);
   (0x1e0e, [0x1e0f]); (0x1e10, [0x1e11]); (0x1e12, [0x1e13]); (0x1e14, [0x1e15]);
   (0x1e16, [0x1e17]); (0x1e18, [0x1e19]); (0x1e1a, [0x1e1b]); (0x1e1c, [0x1e1d]);
   (0x1e1e, [0x1e1f]); (0x1e20, [0x1e21]); (0x1e22, [0x1e23]); (0x1e24, [0x1e25]);
   (0x1e26, [0x1e27]); (0x1e28, [0x1e29]); (0x1e2a, [0x1e2b]); (0x1e2c, [0x1e2d]);
   (0x1e2e, [0x1e2f]); (0x1e30, [0x1e31]); (0x1e32, [0x1e33]); (0x1e34, [0x1e35]);
   (0x1e36, [0x1e37]); (0x1e38, [0x1e39]); (0x1e3a, [0x1e3b]); (0x1e3c, [0x1e3d]);
   (0x1e3e, [0x1e3f]); (0x1e40, [0x1e41]); (0x1e42, [0x1e43]); (0x1e44, [0x1e45]);
   (0x1e46, [0x1e47]); (0x1e48, [0x1e49]); (0x1e4a, [0x1e4b]); (0x1e4c, [0x1e4d]);
   (0x1e4e, [0x1e4f]); (0x1e50, [0x1e51]); (0x1e52, [0x1e53]); (0x1e54, [0x1e55]);
   (0x1e56, [0x1e57]); (0x1e58, [0x1e59]); (0x1e5a, [0x1e5b]); (0x1e5c, [0x1e5d]);
   (0x1e5e, [0x1e5f]); (0x1e60, [0x1e61]); (0x1e62, [0x1e63]); (0x1e64, [0x1e65]);
   (0x1e66, [0x1e67]); (0x1e68, [0x1e69]); (0x1e6a, [0x1e6b]); (0x1e6c, [0x1e6d]);
   (0x1e6e, [0x1e6f]); (0x1e70, [0x1e71]); (0x1e72, [0x1e73]); (0x1e74, [0x1e75]);
   (0x1e76, [0x1e77]); (0x1e78, [0x1e79]); (0x1e7a, [0x1e7b]); (0x1e7c, [0x1e7d]);
   (0x1e7e, [0x1e7f]); (0x1e80, [0x1e81]); (0x1e82, [0x1e83]); (0x1e84, [0x1e85]);
   (0x1e86, [0x1e87]); (0x1e88, [0x1e89]); (0x1e8a, [0x1e8b]); (0x1e8c, [0x1e8d]);
   (0x1e8e, [0x1e8f]); (0x1e90, [0x1e91]); (0x1e92, [0x1e93]); (0x1e94, [0x1e95]);
   (0x1e9e, [0xdf]); (0x1ea0, [0x1ea1]); (0x1ea2, [0x1ea3]); (0x1ea4, [0x1ea5]);
   (0x1ea6, [0x1ea7]); (0x1ea8, [0x1ea9]); (0x1eaa, [0x1eab]); (0x1eac, [0x1ead]);
   (0x1eae, [0x1eaf]); (0x1eb0, [0x1eb1]); (0x1eb2, [0x1eb3]); (0x1eb4, [0x1eb5]);
   (0x1eb6, [0x1eb7]); (0x1eb8, [0x1eb9]); (0x1eba, [0x1ebb]); (0x1ebc, [0x1ebd]);
   (0x1ebe, [0x1ebf]); (0x1ec0, [0x1ec1]); (0x1ec2, [0x1ec3]); (0x1ec4, [0x1ec5]);
   (0x1ec6, [0x1ec7]); (0x1ec8, [0x1ec9]); (0x1eca, [0x1ecb]); (0x1ecc, [0x1ecd]);
   (0x1ece, [0x1ecf]); (0x1ed0, [0x1ed1]); (0x1ed2, [0x1ed3]); (0x1ed4, [0x1ed5]);
   (0x1ed6, [0x1ed7]); (0x1ed8, [0x1ed9]); (0x1eda, [0x1edb]); (0x1edc, [0x1edd]);
   (0x1ede, [0x1edf]); (0x1ee0, [0x1ee1]); (0x1ee2, [0x1ee3]); (0x1ee4, [0x1ee5]);
   (0x1ee6, [0x1ee7]); (0x1ee8, [0x1ee9]); (0x1eea, [0x1eeb]); (0x1eec, [0x1eed]);
   (0x1eee, [0x1eef]); (0x1ef0, [0x1ef1]); (0x1ef2, [0x1ef3]); (0x1ef4, [0x1ef5]);
   (0x1ef6, [0x1ef7]); (0x1ef8, [0x1ef9]); (0x1efa, [0x1efb]); (0x1efc, [0x1efd]);
   (0x1efe, [0x1eff]); (0x1f08, [0x1f00]); (0x1f09, [0x1f01]); (0x1f0a, [0x1f02]);
   (0x1f0b, [0x1f03]); (0x1f0c, [0x1f04]); (0x1f0d, [0x1f05]); (0x1f0e, [0x1f06]);
   (0x1f0f, [0x1f07]); (0x1f18, [0x1f10]); (0x1f19, [0x1f11]); (0x1f1a, [0x1f12]);
   (0x1f1b, [0x1f13]); (0x1f1c, [0x1f14]); (0x1f1d, [0x1f15]); (0x1f28, [0x1f20]);
   (0x1f29, [0x1f21]); (0x1f2a, [0x1f22]); (0x1f2b, [0x1f23]); (0x1f2c, [0x1f24]);
   (0x1f2d, [0x1f25]); (0x1f2e, [0x1f26]); (0x1f2f, [0x1f27]); (0x1f38, [0x1f30]);
   (0x1f39, [0x1f31]); (0x1f3a, [0x1f32]); (0x1f3b, [0x1f33]); (0x1f3c, [0x1f34]);
   (0x1f3d, [0x1f35]); (0x1f3e, [0x1f36]); (0x1f3f, [0x1f37]); (0x1f48, [0x1f40]);
   (0x1f49, [0x1f41]); (0x1f4a, [0x1f42]); (0x1f4b, [0x1f43]); (0x1f4c, [0x1f44]);
   (0x1f4d, [0x1f45]); (0x1f59, [0x1f51]); (0x1f5b, [0x1f53]); (0x1f5d, [0x1f55]);
   (0x1f5f, [0x1f57]); (0x1f68, [0x1f60]); (0x1f69, [0x1f61]); (0x1f6a, [0x1f62]);
   (0x1f6b, [0x1f63]); (0x1f6c, [0x1f64]); (0x1f6d, [0x1f65]); (0x1f6e, [0x1f66]);
   (0x1f6f, [0x1f67]); (0x1f88, [0x1f80]); (0x1f89, [0x1f81]); (0x1f8a, [0x1f82]);
   (0x1f8b, [0x1f83]); (0x1f8c, [0x1f84]); (0x1f8d, [0x1f85]); (0x1f8e, [0x1f86]);
   (0x1f8f, [0x1f87]); (0x1f98, [0x1f90]); (0x1f99, [0x1f91]); (0x1f9a, [0x1f92]);
   (0x1f9b, [0x1f93]); (0x1f9c, [0x1f94]); (0x1f9d, [0x1f95]); (0x1f9e, [0x1f96]);
   (0x1f9f, [0x1f97]); (0x1fa8, [0x1fa0]); (0x1fa9, [0x1fa1]); (0x1faa, [0x1fa2]);
   (0x1fab, [0x1fa3]); (0x1fac, [0x1fa4]); (0x1fad, [0x1fa5]); (0x1fae, [0x1fa6]);
   (0x1faf, [0x1fa7]); (0x1fb8, [0x1fb0]); (0x1fb9, [0x1fb1]); (0x1fba, [0x1f70]);
   (0x1fbb, [0x1f71]); (0x1fbc, [0x1fb3]); (0x1fc8, [0x1f72]); (0x1fc9, [0x1f73]);
   (0x1fca, [0x1f74]); (0x1fcb, [0x1f75]); (0x1fcc, [0x1fc3]); (0x1fd8, [0x1fd0]);
   (0x1fd9, [0x1fd1]); (0x1fda, [0x1f76]); (0x1fdb, [0x1f77]); (0x1fe8, [0x1fe0]);
   (0x1fe9, [0x1fe1]); (0x1fea, [0x1f7a]); (0x1feb, [0x1f7b]); (0x1fec, [0x1fe5]);
   (0x1ff8, [0x1f78]); (0x1ff9, [0x1f79]); (0x1ffa, [0x1f7c]); (0x1ffb, [0x1f7d]);
   (0x1ffc, [0x1ff3]); (0x2126, [0x3c9]); (0x212a, [0x6b]); (0x212b, [0xe5]);
   (0x2132, [0x214e]); (0x2160, [0x2170]); (0x2161, [0x2171]); (0x2162, [0x2172]);
   (0x2163, [0x2173]); (0x2164, [0x2174]); (0x2165, [0x2175]); (0x2166, [0x2176]);
   (0x2167, [0x2177]); (0x2168, [0x2178]); (0x2169, [0x2179]); (0x216a, [0x217a]);
   (0x216b, [0x217b]); (0x216c, [0x217c]); (0x216d, [0x217d]); (0x216e, [0x217e]);
   (0x216f, [0x217f]); (0x2183, [0x2184]); (0x24b6, [0x24d0]); (0x24b7, [0x24d1]);
   (0x24b8, [0x24d2]); (0x24b9, [0x24d3]); (0x24ba, [0x24d4]); (0x24bb, [0x24d5]);
   (0x24bc, [0x24d6]); (0x24bd, [0x24d7]); (0x24be, [0x24d8]); (0x24bf, [0x24d9]);
   (0x24c0, [0x24da]); (0x24c1, [0x24db]); (0x24c2, [0x24dc]); (0x24c3, [0x24dd]);
   (0x24c4, [0x24de]); (0x24c5, [0x24df]); (0x24c6, [0x24e0]); (0x24c7, [0x24e1]);
   (0x24c8, [0x24e2]); (0x24c9, [0x24e3]); (0x24ca, [0x24e4]); (0x24cb, [0x24e5]);
   (0x24cc, [0x24e6]); (0x24cd, [0x24e7]); (0x24ce, [0x24e8]); (0x24cf, [0x24e9]);
   (0x2c00, [0x2c30]); (0x2c01, [0x2c31]); (0x2c02, [0x2c32]); (0x2c03, [0x2c33]);
   (0x2c04, [0x2c34]); (0x2c05, [0x2c35]); (0x2c06, [0x2c36]); (0x2c07, [0x2c37]);
   (0x2c08, [0x2c38]); (0x2c09, [0x2c39]); (0x2c0a, [0x2c3a]); (0x2c0b, [0x2c3b]);
   (0x2c0c, [0x2c3c]); (0x2c0d, [0x2c3d]); (0x2c0e, [0x2c3e]); (0x2c0f, [0x2c3f]);
   (0x2c10, [0x2c40]); (0x2c11, [0x2c41]); (0x2c12, [0x2c42]); (0x2c13, [0x2c43]);
   (0x2c14, [0x2c44]); (0x2c15, [0x2c45]); (0x2c16, [0x2c46]); (0x2c17, [0x2c47]);
   (0x2c18, [0x2c48]); (0x2c19, [0x2c49]); (0x2c1a, [0x2c4a]); (0x2c1b, [0x2c4b]);
   (0x2c1c, [0x2c4c]); (0x2c1d, [0x2c4d]); (0x2c1e, [0x2c4e]); (0x2c1f, [0x2c4f]);
   (0x2c20, [0x2c50]); (0x2c21, [0x2c51]); (0x2c22, [0x2c52]); (0x2c23, [0x2c53]);
   (0x2c24, [0x2c54]); (0x2c25, [0x2c55]); (0x2c26, [0x2c56]); (0x2c27, [0x2c57]);
   (0x2c28, [0x2c58]); (0x2c29, [0x2c59]); (0x2c2a, [0x2c5a]); (0x2c2b, [0x2c5b]);
   (0x2c2c, [0x2c5c]); (0x2c2d, [0x2c5d]); (0x2c2e, [0x2c5e]); (0x2c2f, [0x2c5f]);
   (0x2c60, [0x2c61]); (0x2c62, [0x26b]); (0x2c63, [0x1d7d]); (0x2c64, [0x27d]);
   (0x2c67, [0x2c68]); (0x2c69, [0x2c6a]); (0x2c6b, [0x2c6c]); (0x2c6d, [0x251]);
   (0x2c6e, [0x271]); (0x2c6f, [0x250]); (0x2c70, [0x252]); (0x2c72, [0x2c73]);
   (0x2c75, [0x2c76]); (0x2c7e, [0x23f]); (0x2c7f, [0x240]); (0x2c80, [0x2c81]);
   (0x2c82, [0x2c83]); (0x2c84, [0x2c85]); (0x2c86, [0x2c87]); (0x2c88, [0x2c89]);
   (0x2c8a, [0x2c8b]); (0x2c8c, [0x2c8d]); (0x2c8e, [0x2c8f]); (0x2c90, [0x2c91]);
   (0x2c92, [0x2c93]); (0x2c94, [0x2c95]); (0x2c96, [0x2c97]); (0x2c98, [0x2c99]);
   (0x2c9a, [0x2c9b]); (0x2c9c, [0x2c9d]); (0x2c9e, [0x2c9f]); (0x2ca0, [0x2ca1]);
   (0x2ca2, [0x2ca3]); (0x2ca4, [0x2ca5]); (0x2ca6, [0x2ca7]); (0x2ca8, [0x2ca9]);
   (0x2caa, [0x2cab]); (0x2cac, [0x2cad]); (0x2cae, [0x2caf]); (0x2cb0, [0x2cb1]);
   (0x2cb2, [0x2cb3]); (0x2cb4, [0x2cb5]); (0x2cb6, [0x2cb7]); (0x2cb8, [0x2cb9]);
   (0x2cba, [0x2cbb]); (0x2cbc, [0x2cbd]); (0x2cbe, [0x2cbf]); (0x2cc0, [0x2cc1]);
   (0x2cc2, [0x2cc3]); (0x2cc4, [0x2cc5]); (0x2cc6, [0x2cc7]); (0x2cc8, [0x2cc9]);
   (0x2cca, [0x2ccb]); (0x2ccc, [0x2ccd]); (0x2cce, [0x2ccf]); (0x2cd0, [0x2cd1]);
   (0x2cd2, [0x2cd3]); (0x2cd4, [0x2cd5]); (0x2cd6, [0x2cd7]); (0x2cd8, [0x2cd9]);
   (0x2cda, [0x2cdb]); (0x2cdc, [0x2cdd]); (0x2cde, [0x2cdf]); (0x2ce0, [0x2ce1]);
   (0x2ce2, [0x2ce3]); (0x2ceb, [0x2cec]); (0x2ced, [0x2cee]); (0x2cf2, [0x2cf3]);
   (0xa640, [0xa641]); (0xa642, [0xa643]); (0xa644, [0xa645]); (0xa646, [0xa647]);
   (0xa648, [0xa649]); (0xa64a, [0xa64b]); (0xa64c, [0xa64d]); (0xa64e, [0xa64f]);
   (0xa650, [0xa651]); (0xa652, [0xa653]); (0xa654, [0xa655]); (0xa656, [0xa657]);
   (0xa658, [0xa659]); (0xa65a, [0xa65b]); (0xa65c, [0xa65d]); (0xa65e, [0xa65f]);
   (0xa660, [0xa661]); (0xa662, [0xa663]); (0xa664, [0xa665]); (0xa666, [0xa667]);
   (0xa668, [0xa669]); (0xa66a, [0xa66b]); (0xa66c, [0xa66d]); (0xa680, [0xa681]);
   (0xa682, [0xa683]); (0xa684, [0xa685]); (0xa686, [0xa687]); (0xa688, [0xa689]);
   (0xa68a, [0xa68b]); (0xa68c, [0xa68d]); (0xa68e, [0xa68f]); (0xa690, [0xa691]);
   (0xa692, [0xa693]); (0xa694, [0xa695]); (0xa696, [0xa697]); (0xa698, [0xa699]);
   (0xa69a, [0xa69b]); (0xa722, [0xa723]); (0xa724, [0xa725]); (0xa726, [0xa727]);
   (0xa728, [0xa729]); (0xa72a, [0xa72b]); (0xa72c, [0xa72d]); (0xa72e, [0xa72f]);
   (0xa732, [0xa733]); (0xa734, [0xa735]); (0xa736, [0xa737]); (0xa738, [0xa739]);
   (0xa73a, [0xa73b]); (0xa73c, [0xa73d]); (0xa73e, [0xa73f]); (0xa740, [0xa741]);
   (0xa742, [0xa743]); (0xa744, [0xa745]); (0xa746, [0xa747]); (0xa748, [0xa749]);
   (0xa74a, [0xa74b]); (0xa74c, [0xa74d]); (0xa74e, [0xa74f]); (0xa750, [0xa751]);
   (0xa752, [0xa753]); (0xa754, [0xa755]); (0xa756, [0xa757]); (0xa758, [0xa759]);
   (0xa75a, [0xa75b]); (0xa75c, [0xa75d]); (0xa75e, [0xa75f]); (0xa760, [0xa761]);
   (0xa762, [0xa763]); (0xa764, [0xa765]); (0xa766, [0xa767]); (0xa768, [0xa769]);
   (0xa76a, [0xa76b]); (0xa76c, [0xa76d]); (0xa76e, [0xa76f]); (0xa779, [0xa77a]);
   (0xa77b, [0xa77c]); (0xa77d, [0x1d79]); (0xa77e, [0xa77f]); (0xa780, [0xa781]);
   (0xa782, [0xa783]); (0xa784, [0xa785]); (0xa786, [0xa787]); (0xa78b, [0xa78c]);
   (0xa78d, [0x265]); (0xa790, [0xa791]); (0xa792, [0xa793]); (0xa796, [0xa797]);
   (0xa798, [0xa799]); (0xa79a, [0xa79b]); (0xa79c, [0xa79d]); (0xa79e, [0xa79f]);
   (0xa7a0, [0xa7a1]); (0xa7a2, [0xa7a3]); (0xa7a4, [0xa7a5]); (0xa7a6, [0xa7a7]);
   (0xa7a8, [0xa7a9]); (0xa7aa, [0x266]); (0xa7ab, [0x25c]); (0xa7ac, [0x261]);
   (0xa7ad, [0x26c]); (0xa7ae, [0x26a]); (0xa7b0, [0x29e]); (0xa7b1, [0x287]);
   (0xa7b2, [0x29d]); (0xa7b3, [0xab53]); (0xa7b4, [0xa7b5]); (0xa7b6, [0xa7b7]);
   (0xa7b8, [0xa7b9]); (0xa7ba, [0xa7bb]); (0xa7bc, [0xa7bd]); (0xa7be, [0xa7bf]);
   (0xa7c0, [0xa7c1]); (0xa7c2, [0xa7c3]); (0xa7c4, [0xa794]); (0xa7c5, [0x282]);
   (0xa7c6, [0x1d8e]); (0xa7c7, [0xa7c8]); (0xa7c9, [0xa7ca]); (0xa7d0, [0xa7d1]);
   (0xa7d6, [0xa7d7]); (0xa7d8, [0xa7d9]); (0xa7f5, [0xa7f6]); (0xff21, [0xff41]);
   (0xff22, [0xff42]); (0xff23, [0xff43]); (0xff24, [0xff44]); (0xff25, [0xff45]);
   (0xff26, [0xff46]); (0xff27, [0xff47]); (0xff28, [0xff48]); (0xff29, [0xff49]);
   (0xff2a, [0xff4a]); (0xff2b, [0xff4b]); (0xff2c, [0xff4c]); (0xff2d, [0xff4d]);
   (0xff2e, [0xff4e]); (0xff2f, [0xff4f]); (0xff30, [0xff50]); (0xff31, [0xff51]);
   (0xff32, [0xff52]); (0xff33, [0xff53]); (0xff34, [0xff54]); (0xff35, [0xff55]);
   (0xff36, [0xff56]); (0xff37, [0xff57]); (0xff38, [0xff58]); (0xff39, [0xff59]);
   (0xff3a, [0xff5a]); (0x10400, [0x10428]); (0x10401, [0x10429]); (0x10402, [0x1042a]);
   (0x10403, [0x1042b]); (0x10404, [0x1042c]); (0x10405, [0x1042d]); (0x10406, [0x1042e]);
   (0x10407, [0x1042f]); (0x10408, [0x10430]); (0x10409, [0x10431]); (0x1040a, [0x10432]);
   (0x1040b, [0x10433]); (0x1040c, [0x10434]); (0x1040d, [0x10435]); (0x1040e, [0x10436]);
   (0x1040f, [0x10437]); (0x10410, [0x10438]); (0x10411, [0x10439]); (0x10412, [0x1043a]);
   (0x10413, [0x1043b]); (0x10414, [0x1043c]); (0x10415, [0x1043d]); (0x10416, [0x1043e]);
   (0x10417, [0x1043f]); (0x10418, [0x10440]); (0x10419, [0x10441]); (0x1041a, [0x10442]);
   (0x1041b, [0x10443]); (0x1041c, [0x10444]); (0x1041d, [0x10445]); (0x1041e, [0x10446]);
   (0x1041f, [0x10447]); (0x10420, [0x10448]); (0x10421, [0x10449]); (0x10422, [0x1044a]);
   (0x10423, [0x1044b]); (0x10424, [0x1044c]); (0x10425, [0x1044d]); (0x10426, [0x1044e]);
   (0x10427, [0x1044f]); (0x104b0, [0x104d8]); (0x104b1, [0x104d9]); (0x104b2, [0x104da]);
   (0x104b3, [0x104db]); (0x104b4, [0x104dc]); (0x104b5, [0x104dd]); (0x104b6, [0x104de]);
   (0x104b7, [0x104df]); (0x104b8, [0x104e0]); (0x104b9, [0x104e1]); (0x104ba, [0x104e2]);
   (0x104bb, [0x104e3]); (0x104bc, [0x104e4]); (0x104bd, [0x104e5]); (0x104be, [0x104e6]);
   (0x104bf, [0x104e7]); (0x104c0, [0x104e8]); (0x104c1, [0x104e9]); (0x104c2, [0x104ea]);
   (0x104c3, [0x104eb]); (0x104c4, [0x104ec]); (0x104c5, [0x104ed]); (0x104c6, [0x104ee]);
   (0x104c7, [0x104ef]); (0x104c8, [0x104f0]); (0x104c9, [0x104f1]); (0x104ca, [0x104f2]);
   (0x104cb, [0x104f3]); (0x104cc, [0x104f4]); (0x104cd, [0x104f5]); (0x104ce, [0x104f6]);
   (0x104cf, [0x104f7]); (0x104d0, [0x104f8]); (0x104d1, [0x104f9]); (0x104d2, [0x104fa]);
   (0x104d3, [0x104fb]); (0x10570, [0x10597]); (0x10571, [0x10598]); (0x10572, [0x10599]);
   (0x10573, [0x1059a]); (0x10574, [0x1059b]); (0x10575, [0x1059c]); (0x10576, [0x1059d]);
   (0x10577, [0x1059e]); (0x10578, [0x1059f]); (0x10579, [0x105a0]); (0x1057a, [0x105a1]);
   (0x1057c, [0x105a3]); (0x1057d, [0x105a4]); (0x1057e, [0x105a5]); (0x1057f, [0x105a6]);
   (0x10580, [0x105a7]); (0x10581, [0x105a8]); (0x10582, [0x105a9]); (0x10583, [0x105aa]);
   (0x10584, [0x105ab]); (0x10585, [0x105ac]); (0x10586, [0x105ad]); (0x10587, [0x105ae]);
   (0x10588, [0x105af]); (0x10589, [0x105b0]); (0x1058a, [0x105b1]); (0x1058c, [0x105b3]);
   (0x1058d, [0x105b4]); (0x1058e, [0x105b5]); (0x1058f, [0x105b6]); (0x10590, [0x105b7]);
   (0x10591, [0x105b8]); (0x10592, [0x105b9]); (0x10594, [0x105bb]); (0x10595, [0x105bc]);
   (0x10c80, [0x10cc0]); (0x10c81, [0x10cc1]); (0x10c82, [0x10cc2]); (0x10c83, [0x10cc3]);
   (0x10c84, [0x10cc4]); (0x10c85, [0x10cc5]); (0x10c86, [0x10cc6]); (0x10c87, [0x10cc7]);
   (0x10c88, [0x10cc8]); (0x10c89, [0x10cc9]); (0x10c8a, [0x10cca]); (0x10c8b, [0x10ccb]);
   (0x10c8c, [0x10ccc]); (0x10c8d, [0x10ccd]); (0x10c8e, [0x10cce]); (0x10c8f, [0x10ccf]);
   (0x10c90, [0x10cd0]); (0x10c91, [0x10cd1]); (0x10c92, [0x10cd2]); (0x10c93, [0x10cd3]);
   (0x10c94, [0x10cd4]); (0x10c95, [0x10cd5]); (0x10c96, [0x10cd6]); (0x10c97, [0x10cd7]);
   (0x10c98, [0x10cd8]); (0x10c99, [0x10cd9]); (0x10c9a, [0x10cda]); (0x10c9b, [0x10cdb]);
   (0x10c9c, [0x10cdc]); (0x10c9d, [0x10cdd]); (0x10c9e, [0x10cde]); (0x10c9f, [0x10cdf]);
   (0x10ca0, [0x10ce0]); (0x10ca1, [0x10ce1]); (0x10ca2, [0x10ce2]); (0x10ca3, [0x10ce3]);
   (0x10ca4, [0x10ce4]); (0x10ca5, [0x10ce5]); (0x10ca6, [0x10ce6]); (0x10ca7, [0x10ce7]);
   (0x10ca8, [0x10ce8]); (0x10ca9, [0x10ce9]); (0x10caa, [0x10cea]); (0x10cab, [0x10ceb]);
   (0x10cac, [0x10cec]); (0x10cad, [0x10ced]); (0x10cae, [0x10cee]); (0x10caf, [0x10cef]);
   (0x10cb0, [0x10cf0]); (0x10cb1, [0x10cf1]); (0x10cb2, [0x10cf2]); (0x118a0, [0x118c0]);
   (0x118a1, [0x118c1]); (0x118a2, [0x118c2]); (0x118a3, [0x118c3]); (0x118a4, [0x118c4]);
   (0x118a5, [0x118c5]); (0x118a6, [0x118c6]); (0x118a7, [0x118c7]); (0x118a8, [0x118c8]);
   (0x118a9, [0x118c9]); (0x118aa, [0x118ca]); (0x118ab, [0x118cb]); (0x118ac, [0x118cc]);
   (0x118ad, [0x118cd]); (0x118ae, [0x118ce]); (0x118af, [0x118cf]); (0x118b0, [0x118d0]);
   (0x118b1, [0x118d1]); (0x118b2, [0x118d2]); (0x118b3, [0x118d3]); (0x118b4, [0x118d4]);
   (0x118b5, [0x118d5]); (0x118b6, [0x118d6]); (0x118b7, [0x118d7]); (0x118b8, [0x118d8]);
   (0x118b9, [0x118d9]); (0x118ba, [0x118da]); (0x118bb, [0x118db]); (0x118bc, [0x118dc]);
   (0x118bd, [0x118dd]); (0x118be, [0x118de]); (0x118bf, [0x118df]); (0x16e40, [0x16e60]);
   (0x16e41, [0x16e61]); (0x16e42, [0x16e62]); (0x16e43, [0x16e63]); (0x16e44, [0x16e64]);
   (0x16e45, [0x16e65]); (0x16e46, [0x16e66]); (0x16e47, [0x16e67]); (0x16e48, [0x16e68]);
   (0x16e49, [0x16e69]); (0x16e4a, [0x16e6a]); (0x16e4b, [0x16e6b]); (0x16e4c, [0x16e6c]);
   (0x16e4d, [0x16e6d]); (0x16e4e, [0x16e6e]); (0x16e4f, [0x16e6f]); (0x16e50, [0x16e70]);
   (0x16e51, [0x16e71]); (0x16e52, [0x16e72]); (0x16e53, [0x16e73]); (0x16e54, [0x16e74]);
   (0x16e55, [0x16e75]); (0x16e56, [0x16e76]); (0x16e57, [0x16e77]); (0x16e58, [0x16e78]);
   (0x16e59, [0x16e79]); (0x16e5a, [0x16e7a]); (0x16e5b, [0x16e7b]); (0x16e5c, [0x16e7c]);
   (0x16e5d, [0x16e7d]); (0x16e5e, [0x16e7e]); (0x16e5f, [0x16e7f]); (0x1e900, [0x1e922]);
   (0x1e901, [0x1e923]); (0x1e902, [0x1e924]); (0x1e903, [0x1e925]); (0x1e904, [0x1e926]);
   (0x1e905, [0x1e927]); (0x1e906, [0x1e928]); (0x1e907, [0x1e929]); (0x1e908, [0x1e92a]);
   (0x1e909, [0x1e92b]); (0x1e90a, [0x1e92c]); (0x1e90b, [0x1e92d]); (0x1e90c, [0x1e92e]);
   (0x1e90d, [0x1e92f]); (0x1e90e, [0x1e930]); (0x1e90f, [0x1e931]); (0x1e910, [0x1e932]);
   (0x1e911, [0x1e933]); (0x1e912, [0x1e934]); (0x1e913, [0x1e935]); (0x1e914, [0x1e936]);
   (0x1e915, [0x1e937]); (0x1e916, [0x1e938]); (0x1e917, [0x1e939]); (0x1e918, [0x1e93a]);
   (0x1e919, [0x1e93b]); (0x1e91a, [0x1e93c]); (0x1e91b, [0x1e93d]); (0x1e91c, [0x1e93e]);
   (0x1e91d, [0x1e93f]); (0x1e91e, [0x1e940]); (0x1e91f, [0x1e941]); (0x1e920, [0x1e942]);
   (0x1e921, [0x1e943]) ]%N.

(** The ranges of the code points with the property Cased. *)
Definition CASED : list (N * N) :=
  [
   (0x41, 0x5a); (0x61, 0x7a); (0xaa, 0xaa); (0xb5, 0xb5);
   (0xba, 0xba); (0xc0, 0xd6); (0xd8, 0xf6); (0xf8, 0x1ba);
   (0x1bc, 0x1bf); (0x1c4, 0x293); (0x295, 0x2b8); (0x2c0, 0x2c1);
   (0x2e0, 0x2e4); (0x345, 0x345); (0x370, 0x373); (0x376, 0x377);
   (0x37a, 0x37d); (0x37f, 0x37f); (0x386, 0x386); (0x388, 0x38a);
   (0x38c, 0x38c); (0x38e, 0x3a1); (0x3a3, 0x3f5); (0x3f7, 0x481);
   (0x48a, 0x52f); (0x531, 0x556); (0x560, 0x588); (0x10a0, 0x10c5);
   (0x10c7, 0x10c7); (0x10cd, 0x10cd); (0x10d0, 0x10fa); (0x10fd, 0x10ff);
   (0x13a0, 0x13f5); (0x13f8, 0x13fd); (0x1c80, 0x1c88); (0x1c90, 0x1cba);
   (0x1cbd, 0x1cbf); (0x1d00, 0x1dbf); (0x1e00, 0x1f15); (0x1f18, 0x1f1d);
   (0x1f20, 0x1f45); (0x1f48, 0x1f4d); (0x1f50, 0x1f57); (0x1f59, 0x1f59);
   (0x1f5b, 0x1f5b); (0x1f5d, 0x1f5d); (0x1f5f, 0x1f7d); (0x1f80, 0x1fb4);
   (0x1fb6, 0x1fbc); (0x1fbe, 0x1fbe); (0x1fc2, 0x1fc4); (0x1fc6, 0x1fcc);
   (0x1fd0, 0x1fd3); (0x1fd6, 0x1fdb); (0x1fe0, 0x1fec); (0x1ff2, 0x1ff4);
   (0x1ff6, 0x1ffc); (0x2071, 0x2071); (0x207f, 0x207f); (0x2090, 0x209c);
   (0x2102, 0x2102); (0x2107, 0x2107); (0x210a, 0x2113); (0x2115, 0x2115);
   (0x2119, 0x211d); (0x2124, 0x2124); (0x2126, 0x2126); (0x2128, 0x2128);
   (0x212a, 0x212d); (0x212f, 0x2134); (0x2139, 0x2139); (0x213c, 0x213f);
   (0x2145, 0x2149); (0x214e, 0x214e); (0x2160, 0x217f); (0x2183, 0x2184);
   (0x24b6, 0x24e9); (0x2c00, 0x2ce4); (0x2ceb, 0x2cee); (0x2cf2, 0x2cf3);
   (0x2d00, 0x2d25); (0x2d27, 0x2d27); (0x2d2d, 0x2d2d); (0xa640, 0xa66d);
   (0xa680, 0xa69d); (0xa722, 0xa787); (0xa78b, 0xa78e); (0xa790, 0xa7ca);
   (0xa7d0, 0xa7d1); (0xa7d3, 0xa7d3); (0xa7d5, 0xa7d9); (0xa7f5, 0xa7f6);
   (0xa7f8, 0xa7fa); (0xab30, 0xab5a); (0xab5c, 0xab68); (0xab70, 0xabbf);
   (0xfb00, 0xfb06); (0xfb13, 0xfb17); (0xff21, 0xff3a); (0xff41, 0xff5a);
   (0x10400, 0x1044f); (0x104b0, 0x104d3); (0x104d8, 0x104fb); (0x10570, 0x1057a);
   (0x1057c, 0x1058a); (0x1058c, 0x10592); (0x10594, 0x10595); (0x10597, 0x105a1);
   (0x105a3, 0x105b1); (0x105b3, 0x105b9); (0x105bb, 0x105bc); (0x10780, 0x10780);
   (0x10783, 0x10785); (0x10787, 0x107b0); (0x107b2, 0x107ba); (0x10c80, 0x10cb2);
   (0x10cc0, 0x10cf2); (0x118a0, 0x118df); (0x16e40, 0x16e7f); (0x1d400, 0x1d454);
   (0x1d456, 0x1d49c); (0x1d49e, 0x1d49f); (0x1d4a2, 0x1d4a2); (0x1d4a5, 0x1d4a6);
   (0x1d4a9, 0x1d4ac); (0x1d4ae, 0x1d4b9); (0x1d4bb, 0x1d4bb); (0x1d4bd, 0x1d4c3);
   (0x1d4c5, 0x1d505); (0x1d507, 0x1d50a); (0x1d50d, 0x1d514); (0x1d516, 0x1d51c);
   (0x1d51e, 0x1d539); (0x1d53b, 0x1d53e); (0x1d540, 0x1d544); (0x1d546, 0x1d546);
   (0x1d54a, 0x1d550); (0x1d552, 0x1d6a5); (0x1d6a8, 0x1d6c0); (0x1d6c2, 0x1d6da);
   (0x1d6dc, 0x1d6fa); (0x1d6fc, 0x1d714); (0x1d716, 0x1d734); (0x1d736, 0x1d74e);
   (0x1d750, 0x1d76e); (0x1d770, 0x1d788); (0x1d78a, 0x1d7a8); (0x1d7aa, 0x1d7c2);
   (0x1d7c4, 0x1d7cb); (0x1df00, 0x1df09); (0x1df0b, 0x1df1e); (0x1e900, 0x1e943);
   (0x1f130, 0x1f149); (0x1f150, 0x1f169); (0x1f170, 0x1f189) ]%N.

(** The ranges of the code points with the property Case_Ignorable. *)
Definition CASE_IGNORABLE : list (N * N) :=
  [
   (0x27, 0x27); (0x2e, 0x2e); (0x3a, 0x3a); (0x5e, 0x5e);
   (0x60, 0x60); (0xa8, 0xa8); (0xad, 0xad); (0xaf, 0xaf);
   (0xb4, 0xb4); (0xb7, 0xb8); (0x2b0, 0x36f); (0x374, 0x375);
   (0x37a, 0x37a); (0x384, 0x385); (0x387, 0x387); (0x483, 0x489);
   (0x559, 0x559); (0x55f, 0x55f); (0x591, 0x5bd); (0x5bf, 0x5bf);
   (0x5c1, 0x5c2); (0x5c4, 0x5c5); (0x5c7, 0x5c7); (0x5f4, 0x5f4);
   (0x600, 0x605); (0x610, 0x61a); (0x61c, 0x61c); (0x640, 0x640);
   (0x64b, 0x65f); (0x670, 0x670); (0x6d6, 0x6dd); (0x6df, 0x6e8);
   (0x6ea, 0x6ed); (0x70f, 0x70f); (0x711, 0x711); (0x730, 0x74a);
   (0x7a6, 0x7b0); (0x7eb, 0x7f5); (0x7fa, 0x7fa); (0x7fd, 0x7fd);
   (0x816, 0x82d); (0x859, 0x85b); (0x888, 0x888); (0x890, 0x891);
   (0x898, 0x89f); (0x8c9, 0x902); (0x93a, 0x93a); (0x93c, 0x93c);
   (0x941, 0x948); (0x94d, 0x94d); (0x951, 0x957); (0x962, 0x963);
   (0x971, 0x971); (0x981, 0x981); (0x9bc, 0x9bc); (0x9c1, 0x9c4);
   (0x9cd, 0x9cd); (0x9e2, 0x9e3); (0x9fe, 0x9fe); (0xa01, 0xa02);
   (0xa3c, 0xa3c); (0xa41, 0xa42); (0xa47, 0xa48); (0xa4b, 0xa4d);
   (0xa51, 0xa51); (0xa70, 0xa71); (0xa75, 0xa75); (0xa81, 0xa82);
   (0xabc, 0xabc); (0xac1, 0xac5); (0xac7, 0xac8); (0xacd, 0xacd);
   (0xae2, 0xae3); (0xafa, 0xaff); (0xb01, 0xb01); (0xb3c, 0xb3c);
   (0xb3f, 0xb3f); (0xb41, 0xb44); (0xb4d, 0xb4d); (0xb55, 0xb56);
   (0xb62, 0xb63); (0xb82, 0xb82); (0xbc0, 0xbc0); (0xbcd, 0xbcd);
   (0xc00, 0xc00); (0xc04, 0xc04); (0xc3c, 0xc3c); (0xc3e, 0xc40);
   (0xc46, 0xc48); (0xc4a, 0xc4d); (0xc55, 0xc56); (0xc62, 0xc63);
   (0xc81, 0xc81); (0xcbc, 0xcbc); (0xcbf, 0xcbf); (0xcc6, 0xcc6);
   (0xccc, 0xccd); (0xce2, 0xce3); (0xd00, 0xd01); (0xd3b, 0xd3c);
   (0xd41, 0xd44); (0xd4d, 0xd4d); (0xd62, 0xd63); (0xd81, 0xd81);
   (0xdca, 0xdca); (0xdd2, 0xdd4); (0xdd6, 0xdd6); (0xe31, 0xe31);
   (0xe34, 0xe3a); (0xe46, 0xe4e); (0xeb1, 0xeb1); (0xeb4, 0xebc);
   (0xec6, 0xec6); (0xec8, 0xecd); (0xf18, 0xf19); (0xf35, 0xf35);
   (0xf37, 0xf37); (0xf39, 0xf39); (0xf71, 0xf7e); (0xf80, 0xf84);
   (0xf86, 0xf87); (0xf8d, 0xf97); (0xf99, 0xfbc); (0xfc6, 0xfc6);
   (0x102d, 0x1030); (0x1032, 0x1037); (0x1039, 0x103a); (0x103d, 0x103e);
   (0x1058, 0x1059); (0x105e, 0x1060); (0x1071, 0x1074); (0x1082, 0x1082);
   (0x1085, 0x1086); (0x108d, 0x108d); (0x109d, 0x109d); (0x10fc, 0x10fc);
   (0x135d, 0x135f); (0x1712, 0x1714); (0x1732, 0x1733); (0x1752, 0x1753);
   (0x1772, 0x1773); (0x17b4, 0x17b5); (0x17b7, 0x17bd); (0x17c6, 0x17c6);
   (0x17c9, 0x17d3); (0x17d7, 0x17d7); (0x17dd, 0x17dd); (0x180b, 0x180f);
   (0x1843, 0x1843); (0x1885, 0x1886); (0x18a9, 0x18a9); (0x1920, 0x1922);
   (0x1927, 0x1928); (0x1932, 0x1932); (0x1939, 0x193b); (0x1a17, 0x1a18);
   (0x1a1b, 0x1a1b); (0x1a56, 0x1a56); (0x1a58, 0x1a5e); (0x1a60, 0x1a60);
   (0x1a62, 0x1a62); (0x1a65, 0x1a6c); (0x1a73, 0x1a7c); (0x1a7f, 0x1a7f);
   (0x1aa7, 0x1aa7); (0x1ab0, 0x1ace); (0x1b00, 0x1b03); (0x1b34, 0x1b34);
   (0x1b36, 0x1b3a); (0x1b3c, 0x1b3c); (0x1b42, 0x1b42); (0x1b6b, 0x1b73);
   (0x1b80, 0x1b81); (0x1ba2, 0x1ba5); (0x1ba8, 0x1ba9); (0x1bab, 0x1bad);
   (0x1be6, 0x1be6); (0x1be8, 0x1be9); (0x1bed, 0x1bed); (0x1bef, 0x1bf1);
   (0x1c2c, 0x1c33); (0x1c36, 0x1c37); (0x1c78, 0x1c7d); (0x1cd0, 0x1cd2);
   (0x1cd4, 0x1ce0); (0x1ce2, 0x1ce8); (0x1ced, 0x1ced); (0x1cf4, 0x1cf4);
   (0x1cf8, 0x1cf9); (0x1d2c, 0x1d6a); (0x1d78, 0x1d78); (0x1d9b, 0x1dff);
   (0x1fbd, 0x1fbd); (0x1fbf, 0x1fc1); (0x1fcd, 0x1fcf); (0x1fdd, 0x1fdf);
   (0x1fed, 0x1fef); (0x1ffd, 0x1ffe); (0x200b, 0x200f); (0x2018, 0x2019);
   (0x2024, 0x2024); (0x2027, 0x2027); (0x202a, 0x202e); (0x2060, 0x2064);
   (0x2066, 0x206f); (0x2071, 0x2071); (0x207f, 0x207f); (0x2090, 0x209c);
   (0x20d0, 0x20f0); (0x2c7c, 0x2c7d); (0x2cef, 0x2cf1); (0x2d6f, 0x2d6f);
   (0x2d7f, 0x2d7f); (0x2de0, 0x2dff); (0x2e2f, 0x2e2f); (0x3005, 0x3005);
   (0x302a, 0x302d); (0x3031, 0x3035); (0x303b, 0x303b); (0x3099, 0x309e);
   (0x30fc, 0x30fe); (0xa015, 0xa015); (0xa4f8, 0xa4fd); (0xa60c, 0xa60c);
   (0xa66f, 0xa672); (0xa674, 0xa67d); (0xa67f, 0xa67f); (0xa69c, 0xa69f);
   (0xa6f0, 0xa6f1); (0xa700, 0xa721); (0xa770, 0xa770); (0xa788, 0xa78a);
   (0xa7f2, 0xa7f4); (0xa7f8, 0xa7f9); (0xa802, 0xa802); (0xa806, 0xa806);
   (0xa80b, 0xa80b); (0xa825, 0xa826); (0xa82c, 0xa82c); (0xa8c4, 0xa8c5);
   (0xa8e0, 0xa8f1); (0xa8ff, 0xa8ff); (0xa926, 0xa92d); (0xa947, 0xa951);
   (0xa980, 0xa982); (0xa9b3, 0xa9b3); (0xa9b6, 0xa9b9); (0xa9bc, 0xa9bd);
   (0xa9cf, 0xa9cf); (0xa9e5, 0xa9e6); (0xaa29, 0xaa2e); (0xaa31, 0xaa32);
   (0xaa35, 0xaa36); (0xaa43, 0xaa43); (0xaa4c, 0xaa4c); (0xaa70, 0xaa70);
   (0xaa7c, 0xaa7c); (0xaab0, 0xaab0); (0xaab2, 0xaab4); (0xaab7, 0xaab8);
   (0xaabe, 0xaabf); (0xaac1, 0xaac1); (0xaadd, 0xaadd); (0xaaec, 0xaaed);
   (0xaaf3, 0xaaf4); (0xaaf6, 0xaaf6); (0xab5b, 0xab5f); (0xab69, 0xab6b);
   (0xabe5, 0xabe5); (0xabe8, 0xabe8); (0xabed, 0xabed); (0xfb1e, 0xfb1e);
   (0xfbb2, 0xfbc2); (0xfe00, 0xfe0f); (0xfe13, 0xfe13); (0xfe20, 0xfe2f);
   (0xfe52, 0xfe52); (0xfe55, 0xfe55); (0xfeff, 0xfeff); (0xff07, 0xff07);
   (0xff0e, 0xff0e); (0xff1a, 0xff1a); (0xff3e, 0xff3e); (0xff40, 0xff40);
   (0xff70, 0xff70); (0xff9e, 0xff9f); (0xffe3, 0xffe3); (0xfff9, 0xfffb);
   (0x101fd, 0x101fd); (0x102e0, 0x102e0); (0x10376, 0x1037a); (0x10780, 0x10785);
   (0x10787, 0x107b0); (0x107b2, 0x107ba); (0x10a01, 0x10a03); (0x10a05, 0x10a06);
   (0x10a0c, 0x10a0f); (0x10a38, 0x10a3a); (0x10a3f, 0x10a3f); (0x10ae5, 0x10ae6);
   (0x10d24, 0x10d27); (0x10eab, 0x10eac); (0x10f46, 0x10f50); (0x10f82, 0x10f85);
   (0x11001, 0x11001); (0x11038, 0x11046); (0x11070, 0x11070); (0x11073, 0x11074);
   (0x1107f, 0x11081); (0x110b3, 0x110b6); (0x110b9, 0x110ba); (0x110bd, 0x110bd);
   (0x110c2, 0x110c2); (0x110cd, 0x110cd); (0x11100, 0x11102); (0x11127, 0x1112b);
   (0x1112d, 0x11134); (0x11173, 0x11173); (0x11180, 0x11181); (0x111b6, 0x111be);
   (0x111c9, 0x111cc); (0x111cf, 0x111cf); (0x1122f, 0x11231); (0x11234, 0x11234);
   (0x11236, 0x11237); (0x1123e, 0x1123e); (0x112df, 0x112df); (0x112e3, 0x112ea);
   (0x11300, 0x11301); (0x1133b, 0x1133c); (0x11340, 0x11340); (0x11366, 0x1136c);
   (0x11370, 0x11374); (0x11438, 0x1143f); (0x11442, 0x11444); (0x11446, 0x11446);
   (0x1145e, 0x1145e); (0x114b3, 0x114b8); (0x114ba, 0x114ba); (0x114bf, 0x114c0);
   (0x114c2, 0x114c3); (0x115b2, 0x115b5); (0x115bc, 0x115bd); (0x115bf, 0x115c0);
   (0x115dc, 0x115dd); (0x11633, 0x1163a); (0x1163d, 0x1163d); (0x1163f, 0x11640);
   (0x116ab, 0x116ab); (0x116ad, 0x116ad); (0x116b0, 0x116b5); (0x116b7, 0x116b7);
   (0x1171d, 0x1171f); (0x11722, 0x11725); (0x11727, 0x1172b); (0x1182f, 0x11837);
   (0x11839, 0x1183a); (0x1193b, 0x1193c); (0x1193e, 0x1193e); (0x11943, 0x11943);
   (0x119d4, 0x119d7); (0x119da, 0x119db); (0x119e0, 0x119e0); (0x11a01, 0x11a0a);
   (0x11a33, 0x11a38); (0x11a3b, 0x11a3e); (0x11a47, 0x11a47); (0x11a51, 0x11a56);
   (0x11a59, 0x11a5b); (0x11a8a, 0x11a96); (0x11a98, 0x11a99); (0x11c30, 0x11c36);
   (0x11c38, 0x11c3d); (0x11c3f, 0x11c3f); (0x11c92, 0x11ca7); (0x11caa, 0x11cb0);
   (0x11cb2, 0x11cb3); (0x11cb5, 0x11cb6); (0x11d31, 0x11d36); (0x11d3a, 0x11d3a);
   (0x11d3c, 0x11d3d); (0x11d3f, 0x11d45); (0x11d47, 0x11d47); (0x11d90, 0x11d91);
   (0x11d95, 0x11d95); (0x11d97, 0x11d97); (0x11ef3, 0x11ef4); (0x13430, 0x13438);
   (0x16af0, 0x16af4); (0x16b30, 0x16b36); (0x16b40, 0x16b43); (0x16f4f, 0x16f4f);
   (0x16f8f, 0x16f9f); (0x16fe0, 0x16fe1); (0x16fe3, 0x16fe4); (0x1aff0, 0x1aff3);
   (0x1aff5, 0x1affb); (0x1affd, 0x1affe); (0x1bc9d, 0x1bc9e); (0x1bca0, 0x1bca3);
   (0x1cf00, 0x1cf2d); (0x1cf30, 0x1cf46); (0x1d167, 0x1d169); (0x1d173, 0x1d182);
   (0x1d185, 0x1d18b); (0x1d1aa, 0x1d1ad); (0x1d242, 0x1d244); (0x1da00, 0x1da36);
   (0x1da3b, 0x1da6c); (0x1da75, 0x1da75); (0x1da84, 0x1da84); (0x1da9b, 0x1da9f);
   (0x1daa1, 0x1daaf); (0x1e000, 0x1e006); (0x1e008, 0x1e018); (0x1e01b, 0x1e021);
   (0x1e023, 0x1e024); (0x1e026, 0x1e02a); (0x1e130, 0x1e13d); (0x1e2ae, 0x1e2ae);
   (0x1e2ec, 0x1e2ef); (0x1e8d0, 0x1e8d6); (0x1e944, 0x1e94b); (0x1f3fb, 0x1f3ff);
   (0xe0001, 0xe0001); (0xe0020, 0xe007f); (0xe0100, 0xe01ef) ]%N.

Definition UCD : database :=
  {| whitespace := WHITESPACE;
     lowercase := LOWERCASE;
     cased := CASED;
     case_ignorable := CASE_IGNORABLE |}.

(** The code points of a text of ASCII characters. *)
Definition of_ascii (s : string) : str :=
  map N_of_ascii (list_ascii_of_string s).

(** Texts with code points outside ASCII: "Đ" and "đ", the ideographic
    space around "ab", "ΌΣΟΣ" and "όσος", "İ" and its lowercase. *)
Definition D_STROKE : str := [0x110]%N.
Definition d_stroke : str := [0x111]%N.
Definition wide_spaced : str := [0x3000; 0x61; 0x62; 0x3000]%N.
Definition OSOS : str := [0x38c; 0x3a3; 0x39f; 0x3a3]%N.
Definition osos : str := [0x3cc; 0x3c3; 0x3bf; 0x3c2]%N.
Definition I_DOT : str := [0x130]%N.
Definition i_dot : str := [0x69; 0x307]%N.

End Unicode.

(** * Properties *)

(** ** Strings *)

Module PyStrFacts.
Import PyStr Spec Scenarios.

Ltac each_ascii c :=
  destruct c as [[] [] [] [] [] [] [] []].

Lemma lower_char_idem c : lower_char (lower_char c) = lower_char c.
Proof. each_ascii c; reflexivity. Qed.

Lemma is_space_lower_char c : is_space (lower_char c) = is_space c.
Proof. each_ascii c; reflexivity. Qed.

Lemma lower_idem s : lower (lower s) = lower s.
Proof.
  induction s as [|c s IH]; simpl; [reflexivity|].
  now rewrite lower_char_idem, IH.
Qed.

Lemma lower_lstrip s : lower (lstrip s) = lstrip (lower s).
Proof.
  induction s as [|c s IH]; simpl; [reflexivity|].
  rewrite is_space_lower_char.
  destruct (is_space c); [exact IH | reflexivity].
Qed.

Lemma lower_rstrip s : lower (rstrip s) = rstrip (lower s).
Proof.
  induction s as [|c s IH]; simpl; [reflexivity|].
  rewrite <- IH, is_space_lower_char.
  destruct (rstrip s) as [|d r]; simpl; [|reflexivity].
  destruct (is_space c); reflexivity.
Qed.

Lemma lower_strip s : lower (strip s) = strip (lower s).
Proof. unfold strip. now rewrite lower_rstrip, lower_lstrip. Qed.

Lemma rstrip_cons c s :
  rstrip (String c s) =
  match rstrip s with
  | EmptyString => if is_space c then EmptyString else String c EmptyString
  | r => String c r
  end.
Proof. reflexivity. Qed.

Lemma rstrip_idem s : rstrip (rstrip s) = rstrip s.
Proof.
  induction s as [|c s IH]; [reflexivity|].
  rewrite rstrip_cons.
  destruct (rstrip s) as [|d r] eqn:E.
  - destruct (is_space c) eqn:Ec; [reflexivity|].
    rewrite rstrip_cons. simpl. now rewrite Ec.
  - rewrite rstrip_cons, IH. reflexivity.
Qed.

Lemma lstrip_clean s : starts_clean s = true -> lstrip s = s.
Proof.
  destruct s as [|c s]; simpl; [reflexivity|].
  now destruct (is_space c).
Qed.

Lemma lstrip_starts_clean s : starts_clean (lstrip s) = true.
Proof.
  induction s as [|c s IH]; simpl; [reflexivity|].
  destruct (is_space c) eqn:E; [exact IH|].
  simpl. now rewrite E.
Qed.

Lemma rstrip_starts_clean s :
  starts_clean s = true -> starts_clean (rstrip s) = true.
Proof.
  destruct s as [|c s]; simpl; [reflexivity|].
  intros Hc. destruct (rstrip s); simpl.
  - destruct (is_space c) eqn:E; [discriminate | simpl; now rewrite E ].
  - exact Hc.
Qed.

Lemma strip_idem s : strip (strip s) = strip s.
Proof.
  unfold strip.
  rewrite (lstrip_clean (rstrip (lstrip s))).
  - apply rstrip_idem.
  - apply rstrip_starts_clean, lstrip_starts_clean.
Qed.

Lemma caseless_eq_lower s t :
  caseless_eq s t = String.eqb (lower s) (lower t).
Proof.
  revert t; induction s as [|a s IH]; intros [|b t]; simpl; try reflexivity.
  unfold same_letter. now rewrite IH.
Qed.

End PyStrFacts.

(** ** Dicts *)

Module DictFacts.
Import Dict.
Section WithValue.
Context {V : Type}.
Implicit Types (d : dict V) (e : string * V) (k : string).

Lemma has_In k d : has k d = true <-> In k (keys d).
Proof.
  unfold has. induction d as [|[k' v] d IH]; simpl.
  - split; [discriminate | tauto].
  - destruct (String.eqb k' k) eqn:E.
    + apply String.eqb_eq in E. split; auto.
    + apply String.eqb_neq in E. rewrite IH. unfold key; simpl.
      split; [auto | intros [H|H]; [contradiction | exact H]].
Qed.

Lemma get_In k v d : get k d = Some v -> In (k, v) d.
Proof.
  induction d as [|[k' v'] d IH]; simpl; [discriminate|].
  destruct (String.eqb k' k) eqn:E.
  - apply String.eqb_eq in E. intros [= ->]. left. now subst.
  - auto.
Qed.

Lemma wf_get k v d : wf d -> In (k, v) d -> get k d = Some v.
Proof.
  unfold wf. induction d as [|[k' v'] d IH]; simpl; [tauto|].
  intros Hnd [H|H]; inversion Hnd as [|? ? Hnotin Hnd']; subst.
  - injection H as -> ->. now rewrite String.eqb_refl.
  - destruct (String.eqb k' k) eqn:E; [|auto].
    apply String.eqb_eq in E; subst.
    exfalso. apply Hnotin. change k with (key (k, v)). now apply in_map.
Qed.

Lemma wf_unique d e e' :
  wf d -> In e d -> In e' d -> key e = key e' -> e = e'.
Proof.
  intros Hwf He He' Hk. destruct e as [k v], e' as [k' v'].
  unfold key in Hk; simpl in Hk; subst k'.
  pose proof (wf_get _ _ _ Hwf He) as H1.
  pose proof (wf_get _ _ _ Hwf He') as H2.
  congruence.
Qed.

Lemma keys_filter_incl (p : string * V -> bool) d k :
  In k (keys (filter p d)) -> In k (keys d).
Proof.
  unfold keys. rewrite !in_map_iff. intros [e [Hk He]].
  apply filter_In in He. exists e. tauto.
Qed.

Lemma wf_filter (p : string * V -> bool) d : wf d -> wf (filter p d).
Proof.
  unfold wf. induction d as [|e d IH]; simpl; [auto|].
  intros Hnd; inversion Hnd as [|? ? Hnotin Hnd']; subst.
  destruct (p e); simpl; [constructor|]; auto.
  intros Hin. apply Hnotin. eapply keys_filter_incl, Hin.
Qed.

Lemma wf_del k d : wf d -> wf (del k d).
Proof. apply wf_filter. Qed.

Lemma keys_set k v d :
  keys (set k v d) = if has k d then keys d else keys d ++ [k].
Proof.
  unfold has. induction d as [|[k' v'] d IH]; simpl; [reflexivity|].
  destruct (String.eqb k' k) eqn:E; simpl.
  - apply String.eqb_eq in E. now subst.
  - fold (keys (set k v d)). rewrite IH.
    now destruct (get k d).
Qed.

Lemma wf_set k v d : wf d -> wf (set k v d).
Proof.
  unfold wf. intros Hnd. rewrite keys_set.
  destruct (has k d) eqn:E; [exact Hnd|].
  apply NoDup_app; auto.
  - constructor; [simpl; tauto | constructor].
  - intros x Hx [<-|[]]. apply has_In in Hx. congruence.
Qed.

(** Reading back: a lookup after a [del] and after a [set]. *)
Lemma get_del k d : get k (del k d) = None.
Proof.
  unfold del. induction d as [|[k' v] d IH]; simpl; [reflexivity|].
  unfold key at 1; simpl.
  destruct (String.eqb k' k) eqn:E; simpl; [exact IH|].
  now rewrite E.
Qed.

Lemma get_set k v d : get k (set k v d) = Some v.
Proof.
  induction d as [|[k' v'] d IH]; simpl.
  - now rewrite String.eqb_refl.
  - destruct (String.eqb k' k) eqn:E; simpl.
    + now rewrite String.eqb_refl.
    + now rewrite E.
Qed.

(** In a well-formed dict, whether a filtered dict still has the key of
    an entry is the filter's verdict on that entry. *)
Lemma has_filter (p : string * V -> bool) d e :
  wf d -> In e d -> has (key e) (filter p d) = p e.
Proof.
  intros Hwf He.
  destruct (p e) eqn:Ep.
  - apply has_In. unfold keys. apply in_map. apply filter_In. auto.
  - destruct (has (key e) (filter p d)) eqn:Eh; [|reflexivity].
    apply has_In in Eh. unfold keys in Eh.
    apply in_map_iff in Eh. destruct Eh as [e' [Hk He']].
    apply filter_In in He'. destruct He' as [He' Hp].
    assert (e' = e) by (eapply wf_unique; eauto). congruence.
Qed.
End WithValue.
End DictFacts.

(** ** The cache: capacity and eviction order *)

Module CacheFacts.
Import Dict DictFacts Cache Spec Scenarios.

Lemma listed_In ks e : listed ks e = true <-> In (key e) ks.
Proof.
  unfold listed. rewrite existsb_exists. split.
  - intros [k [Hin Heq]]. apply String.eqb_eq in Heq. now subst.
  - intros Hin. exists (key e). split; [exact Hin | apply String.eqb_refl].
Qed.

Lemma filter_filter {A} (p q : A -> bool) l :
  filter q (filter p l) = filter (fun x => p x && q x) l.
Proof.
  induction l as [|x l IH]; simpl; [reflexivity|].
  destruct (p x); simpl; [destruct (q x)|]; now rewrite IH.
Qed.

(** Deleting a list of keys one by one keeps the entries whose key is not
    listed, in their order. *)
Lemma del_keys_filter ks c :
  del_keys ks c = filter (fun e => negb (listed ks e)) c.
Proof.
  revert c. induction ks as [|k ks IH]; intro c; simpl.
  - symmetry. apply forallb_filter_id. apply forallb_forall. reflexivity.
  - unfold del_keys in *; simpl. rewrite IH. unfold del.
    rewrite filter_filter. apply filter_ext. intro e.
    unfold listed; simpl. now rewrite negb_orb.
Qed.

Lemma Permutation_filter {A} (p : A -> bool) l l' :
  Permutation l l' -> Permutation (filter p l) (filter p l').
Proof.
  induction 1 as [|x l l' _ IH|x y l|l l' l'' _ IH1 _ IH2]; simpl.
  - constructor.
  - destruct (p x); [constructor|]; exact IH.
  - destruct (p x), (p y); try reflexivity. constructor.
  - etransitivity; eauto.
Qed.

Lemma filter_partition {A} (p : A -> bool) l :
  Permutation l (filter (fun x => negb (p x)) l ++ filter p l).
Proof.
  induction l as [|x l IH]; simpl; [constructor|].
  destruct (p x); simpl.
  - now apply Permutation_cons_app.
  - now constructor.
Qed.

(** *** The sort *)

Lemma insert_by_time_perm e l : Permutation (insert_by_time e l) (e :: l).
Proof.
  induction l as [|e' l IH]; simpl; [reflexivity|].
  destruct (cache_time e <=? cache_time e'); [reflexivity|].
  etransitivity; [apply perm_skip, IH | apply perm_swap].
Qed.

Lemma sorted_by_time_perm c : Permutation (sorted_by_time c) c.
Proof.
  induction c as [|e c IH]; simpl; [constructor|].
  etransitivity; [apply insert_by_time_perm | now constructor].
Qed.

Lemma insert_by_time_sorted e l :
  StronglySorted older l -> StronglySorted older (insert_by_time e l).
Proof.
  induction 1 as [|e' l Hs IH Hall]; simpl.
  - repeat constructor.
  - destruct (cache_time e <=? cache_time e') eqn:E.
    + apply Z.leb_le in E. constructor; [now constructor|].
      constructor; [exact E|].
      eapply Forall_impl; [|exact Hall].
      unfold older in *. intros; lia.
    + apply Z.leb_gt in E. constructor; [exact IH|].
      eapply Permutation_Forall; [symmetry; apply insert_by_time_perm|].
      constructor; [unfold older; lia | exact Hall].
Qed.

Lemma sorted_by_time_sorted c : StronglySorted older (sorted_by_time c).
Proof.
  induction c as [|e c IH]; simpl; [constructor|].
  now apply insert_by_time_sorted.
Qed.

(** The sort is stable: entries of equal time keep their dict order. *)
Lemma insert_by_time_stable e l :
  Forall (fun e' => cache_time e <= cache_time e') l ->
  insert_by_time e l = e :: l.
Proof.
  destruct 1 as [|e' l H _]; simpl; [reflexivity|].
  apply Z.leb_le in H. now rewrite H.
Qed.

Lemma StronglySorted_app_inv {A} (R : A -> A -> Prop) l1 l2 :
  StronglySorted R (l1 ++ l2) ->
  forall a b, In a l1 -> In b l2 -> R a b.
Proof.
  induction l1 as [|x l1 IH]; simpl; [tauto|].
  intros Hs a b [<-|Ha] Hb; apply StronglySorted_inv in Hs as [Hs Hall].
  - rewrite Forall_forall in Hall. apply Hall, in_or_app. now right.
  - now apply IH.
Qed.

(** *** Splitting a dict at a prefix of some ordering of it *)

Lemma NoDup_app_disjoint {A} (l1 l2 : list A) :
  NoDup (l1 ++ l2) -> forall a, In a l1 -> ~ In a l2.
Proof.
  induction l1 as [|x l1 IH]; simpl; [tauto|].
  intros Hnd a [<-|Ha] Hin; inversion Hnd as [|? ? Hnotin Hnd']; subst.
  - apply Hnotin, in_or_app. now right.
  - exact (IH Hnd' a Ha Hin).
Qed.

Lemma filter_none {A} (p : A -> bool) l :
  (forall x, In x l -> p x = false) -> filter p l = [].
Proof.
  induction l as [|x l IH]; simpl; [reflexivity|].
  intros H. rewrite (H x) by now left. apply IH. intros; apply H; now right.
Qed.

Lemma filter_all {A} (p : A -> bool) l :
  (forall x, In x l -> p x = true) -> filter p l = l.
Proof.
  intros H. apply forallb_filter_id, forallb_forall, H.
Qed.

Lemma filter_listed_prefix (l1 l2 : list entry) :
  NoDup (keys (l1 ++ l2)) ->
  filter (fun e => negb (listed (keys l1) e)) (l1 ++ l2) = l2 /\
  filter (listed (keys l1)) (l1 ++ l2) = l1.
Proof.
  intros Hnd. rewrite !filter_app.
  assert (H1 : forall e, In e l1 -> listed (keys l1) e = true).
  { intros e He. apply listed_In. now apply in_map. }
  assert (H2 : forall e, In e l2 -> listed (keys l1) e = false).
  { intros e He. destruct (listed (keys l1) e) eqn:E; [|reflexivity].
    apply listed_In in E. unfold keys in Hnd. rewrite map_app in Hnd.
    exfalso. apply (NoDup_app_disjoint _ _ Hnd (key e) E). now apply in_map. }
  split.
  - rewrite (filter_none _ l1) by (intros e He; now rewrite H1).
    simpl. apply filter_all. intros e He. now rewrite H2.
  - rewrite (filter_none _ l2) by (intros e He; now apply H2).
    rewrite app_nil_r. apply filter_all. exact H1.
Qed.

(** *** The deleting loops never raise *)

Lemma get_del_other k k' (c : cache) :
  k' <> k -> get k' (del k c) = get k' c.
Proof.
  intros Hne. induction c as [|[k0 v] c IH]; [reflexivity|].
  unfold del, key in *. simpl.
  destruct (String.eqb k0 k) eqn:E; simpl.
  - apply String.eqb_eq in E; subst k0.
    destruct (String.eqb k k') eqn:E'; [|exact IH].
    apply String.eqb_eq in E'. congruence.
  - now rewrite IH.
Qed.

Lemma del_keys_checked_ok ks (c : cache) :
  NoDup ks -> (forall k, In k ks -> has k c = true) ->
  del_keys_checked ks c = Some (del_keys ks c).
Proof.
  revert c. induction ks as [|k ks IH]; intros c Hnd Hall; [reflexivity|].
  simpl. rewrite (Hall k) by now left.
  inversion Hnd as [|? ? Hnotin Hnd']; subst.
  unfold del_keys; simpl. apply IH; [exact Hnd'|].
  intros k' Hk'. unfold has. rewrite get_del_other.
  - apply Hall. now right.
  - intros ->. contradiction.
Qed.

Lemma expired_keys_present now c :
  wf c -> del_keys_checked (expired_keys now c) c = Some (sweep now c).
Proof.
  intros Hwf. apply del_keys_checked_ok.
  - now apply wf_filter.
  - intros k Hk. apply has_In. eapply keys_filter_incl, Hk.
Qed.

Lemma wf_sorted_by_time c : wf c -> wf (sorted_by_time c).
Proof.
  unfold wf, keys. intros Hnd.
  eapply Permutation_NoDup; [|exact Hnd].
  apply Permutation_map. symmetry. apply sorted_by_time_perm.
Qed.

Lemma keys_to_remove_present c :
  wf c ->
  del_keys_checked (keys_to_remove c) c = Some (del_keys (keys_to_remove c) c).
Proof.
  intros Hwf. apply del_keys_checked_ok; unfold keys_to_remove.
  - pose proof (wf_sorted_by_time c Hwf) as Hs. unfold wf, keys in *.
    set (m := (List.length (sorted_by_time c) - MAX_CACHE_SIZE)%nat) in *.
    rewrite <- (firstn_skipn m (sorted_by_time c)), map_app in Hs.
    eapply NoDup_app_remove_r, Hs.
  - intros k Hk. apply has_In. unfold keys in *.
    apply in_map_iff in Hk. destruct Hk as [e [<- He]].
    apply in_map. eapply Permutation_in; [apply sorted_by_time_perm|].
    rewrite <- (firstn_skipn (List.length (sorted_by_time c) - MAX_CACHE_SIZE)).
    apply in_or_app. left. exact He.
Qed.

(** *** Capacity *)

Lemma wf_sweep now c : wf c -> wf (sweep now c).
Proof. intros H. unfold sweep. rewrite del_keys_filter. now apply wf_filter. Qed.

Lemma wf_enforce_capacity c : wf c -> wf (enforce_capacity c).
Proof.
  intros H. unfold enforce_capacity.
  destruct (MAX_CACHE_SIZE <? List.length c)%nat; [|exact H].
  rewrite del_keys_filter. now apply wf_filter.
Qed.

Lemma wf_cleanup_cache now c : wf c -> wf (cleanup_cache now c).
Proof. intros H. now apply wf_enforce_capacity, wf_sweep. Qed.

(** Over capacity, what stays is the sorted list without its first
    [len - MAX_CACHE_SIZE] items, and what goes is those first items. *)
Lemma enforce_capacity_split c :
  wf c -> (MAX_CACHE_SIZE < List.length c)%nat ->
  let s := sorted_by_time c in
  let m := (List.length s - MAX_CACHE_SIZE)%nat in
  Permutation (enforce_capacity c) (skipn m s) /\
  Permutation
    (filter (fun e => negb (has (key e) (enforce_capacity c))) c)
    (firstn m s).
Proof.
  intros Hwf Hlen s m.
  assert (Hperm : Permutation c s) by (symmetry; apply sorted_by_time_perm).
  assert (Hs : NoDup (keys (firstn m s ++ skipn m s))).
  { rewrite firstn_skipn. now apply wf_sorted_by_time. }
  destruct (filter_listed_prefix _ _ Hs) as [Hkeep Hgo].
  rewrite firstn_skipn in Hkeep, Hgo.
  unfold enforce_capacity. apply Nat.ltb_lt in Hlen. rewrite Hlen.
  rewrite del_keys_filter. unfold keys_to_remove. fold s. fold m.
  split.
  - rewrite <- Hkeep. now apply Permutation_filter.
  - apply Permutation_trans with (filter (listed (keys (firstn m s))) s);
      [|rewrite Hgo; reflexivity].
    apply Permutation_trans with (filter (listed (keys (firstn m s))) c);
      [|now apply Permutation_filter].
    erewrite filter_ext_in; [reflexivity|].
    intros e He. cbv beta.
    etransitivity; [apply f_equal, (has_filter _ c e Hwf He)|].
    apply negb_involutive.
Qed.

Lemma enforce_capacity_idle c :
  (List.length c <= MAX_CACHE_SIZE)%nat -> enforce_capacity c = c.
Proof.
  intros H. unfold enforce_capacity.
  apply Nat.ltb_ge in H. now rewrite H.
Qed.

(** The contract of [cleanup_cache] on a well-formed dict. *)
Lemma cleanup_cache_spec now c :
  wf c ->
  (List.length (cleanup_cache now c) <= MAX_CACHE_SIZE)%nat /\
  Permutation (sweep now c) (evicted now c ++ cleanup_cache now c) /\
  List.length (evicted now c)
    = (List.length (sweep now c) - MAX_CACHE_SIZE)%nat /\
  (forall e e', In e (evicted now c) -> In e' (cleanup_cache now c) ->
                older e e').
Proof.
  intros Hwf. pose proof (wf_sweep now c Hwf) as Hsw.
  unfold evicted, cleanup_cache. set (c1 := sweep now c) in *.
  destruct (Nat.le_gt_cases (List.length c1) MAX_CACHE_SIZE) as [Hle|Hgt].
  - rewrite enforce_capacity_idle by exact Hle.
    rewrite (filter_none _ c1).
    + simpl. repeat split; auto; [lia | tauto].
    + intros e He. apply negb_false_iff, has_In. now apply in_map.
  - destruct (enforce_capacity_split c1 Hsw Hgt) as [Hkeep Hgo].
    set (s := sorted_by_time c1) in *.
    set (m := (List.length s - MAX_CACHE_SIZE)%nat) in *.
    assert (Hls : List.length s = List.length c1)
      by apply Permutation_length, sorted_by_time_perm.
    pose proof (Permutation_length Hkeep) as Lk. rewrite length_skipn in Lk.
    pose proof (Permutation_length Hgo) as Lg. rewrite length_firstn in Lg.
    repeat split.
    + etransitivity; [apply Nat.eq_le_incl, Lk | unfold m; lia].
    + apply Permutation_trans with (firstn m s ++ skipn m s).
      * rewrite firstn_skipn. symmetry. apply sorted_by_time_perm.
      * apply Permutation_app; symmetry; assumption.
    + etransitivity; [exact Lg | unfold m; lia].
    + intros e e' He He'.
      apply (StronglySorted_app_inv older (firstn m s) (skipn m s)).
      * rewrite firstn_skipn. apply sorted_by_time_sorted.
      * eapply Permutation_in; [exact Hgo | exact He].
      * eapply Permutation_in; [exact Hkeep | exact He'].
Qed.

Lemma wf_apply_op c o : wf c -> wf (apply_op c o).
Proof.
  intros H. destruct o; simpl.
  - now apply wf_set.
  - now apply wf_del.
  - now apply wf_cleanup_cache.
  - constructor.
Qed.

Lemma wf_cache_after history : wf (cache_after history).
Proof.
  unfold cache_after.
  assert (G : forall c, wf c -> wf (fold_left apply_op history c)).
  { induction history as [|o h IH]; intros c Hc; simpl; [exact Hc|].
    apply IH, wf_apply_op, Hc. }
  apply G. constructor.
Qed.

(** C1.  After any history of inserts (and of the other operations of the
    program) [cleanup_cache] leaves at most [MAX_CACHE_SIZE] = 100 entries;
    the entries it removes for capacity are as many as the excess, they and
    the remaining entries make up the cache as it was after the expiry
    loop, and each of them was created no later than every entry that
    stays: they are the oldest-created ones. *)
Theorem cleanup_cache_capacity (history : list op) (now : Z) :
  let c := cache_after history in
  (List.length (cleanup_cache now c) <= 100)%nat /\
  Permutation (sweep now c) (evicted now c ++ cleanup_cache now c) /\
  List.length (evicted now c) = (List.length (sweep now c) - 100)%nat /\
  (forall e e', In e (evicted now c) -> In e' (cleanup_cache now c) ->
                cache_time e <= cache_time e').
Proof.
  intros c. exact (cleanup_cache_spec now c (wf_cache_after history)).
Qed.

End CacheFacts.

(** ** Cache keys and query composition *)

Module QueryFacts.
Import PyStr PyStrFacts Resolution Endpoints.

(** On the bytes of ASCII text: the cache key of [s] is the cache key of
    [strip (lower s)], and normalising a key again changes nothing.
    [UnicodeFacts] has the same for every [str]. *)
Lemma cache_key_bytes (s : string) :
  cache_key s = cache_key (strip (lower s)) /\
  cache_key (cache_key s) = cache_key s /\
  cache_key s = strip (lower s).
Proof.
  unfold cache_key. repeat split.
  - now rewrite <- lower_strip, <- lower_strip, strip_idem, !lower_idem.
  - now rewrite <- lower_strip, strip_idem, lower_idem.
  - apply lower_strip.
Qed.

Example cache_key_example :
  cache_key "  Shape Of YOU " = "shape of you".
Proof. reflexivity. Qed.

Lemma lower_is_caseless singer :
  String.eqb (lower singer) "youtube" = caseless_eq singer "youtube".
Proof. now rewrite caseless_eq_lower. Qed.

Lemma nonempty_false s : nonempty s = false <-> s = "".
Proof. destruct s; simpl; split; congruence. Qed.

Lemma nonempty_true s : nonempty s = true <-> s <> "".
Proof. destruct s; simpl; split; congruence. Qed.

(** Each handler resolves the query it has composed. *)
Lemma handlers_resolve_query w req s :
  let song := strip (arg "song" req) in
  let singer := strip (arg "singer" req) in
  song <> "" ->
  (exists ok,
     snd (stream_pcm w req s)
     = count_stream w ok
         (snd (get_direct_stream_url w (stream_pcm_query song singer) s))) /\
  (exists ok,
     snd (esp32_stream w req s)
     = count_stream w ok
         (snd (get_direct_stream_url w (esp32_stream_query song singer) s))).
Proof.
  cbv zeta. intros Hsong. apply nonempty_true in Hsong.
  unfold stream_pcm, esp32_stream. rewrite Hsong. simpl negb. cbv iota.
  split.
  - destruct (get_direct_stream_url w _ s) as [[url|] s']; simpl.
    + destruct (truthy url); [destruct (get_video_info w url)|]; simpl; eauto.
    + eauto.
  - destruct (get_direct_stream_url w _ s) as [[url|] s']; simpl.
    + destruct (truthy url); simpl; eauto.
    + eauto.
Qed.

(** C6.  On [/stream_pcm] and on [/esp32_stream]: a singer that is not
    empty and is not "youtube" in any mix of upper and lower case gives
    the query "song singer"; an empty singer, or "youtube" in any case,
    gives the song alone; and that query is the one the handler
    resolves. *)
Theorem query_composition (song singer : string) :
  (singer <> "" /\ caseless_eq singer "youtube" = false ->
     stream_pcm_query song singer = (song ++ " " ++ singer)%string /\
     esp32_stream_query song singer = (song ++ " " ++ singer)%string) /\
  (singer = "" \/ caseless_eq singer "youtube" = true ->
     stream_pcm_query song singer = song /\
     esp32_stream_query song singer = song) /\
  (forall w req s,
     strip (arg "song" req) = song -> strip (arg "singer" req) = singer ->
     song <> "" ->
     (exists ok,
        snd (stream_pcm w req s)
        = count_stream w ok
            (snd (get_direct_stream_url w (stream_pcm_query song singer) s))) /\
     (exists ok,
        snd (esp32_stream w req s)
        = count_stream w ok
            (snd (get_direct_stream_url w (esp32_stream_query song singer) s)))).
Proof.
  split; [|split].
  - unfold stream_pcm_query, esp32_stream_query. rewrite lower_is_caseless.
    intros [Hs Hy]. apply nonempty_true in Hs. now rewrite Hs, Hy.
  - unfold stream_pcm_query, esp32_stream_query. rewrite lower_is_caseless.
    intros [Hs|Hy].
    + subst singer. split; reflexivity.
    + rewrite Hy, andb_false_r. split; reflexivity.
  - intros w req s <- <- Hsong. now apply handlers_resolve_query.
Qed.

Example compose_youtube :
  stream_pcm_query "Shape of You" "YouTube" = "Shape of You".
Proof. reflexivity. Qed.

Example compose_singer :
  esp32_stream_query "Shape of You" "Ed Sheeran" = "Shape of You Ed Sheeran".
Proof. reflexivity. Qed.

End QueryFacts.

(** ** Resolver *)

Module ResolverFacts.
Import Resolver Spec Scenarios.

Lemma first_video_id_usable results :
  first_video_id results = usable_id (SearchResults results).
Proof.
  destruct results as [|r rs]; simpl; [reflexivity|].
  destruct (videoId r) as [[|c id]|]; reflexivity.
Qed.

Example song_without_id_run :
  search_with_ytmusic song_without_id "hello"
  = (Some "https://www.youtube.com/watch?v=abc123", ["songs"; "videos"]).
Proof. reflexivity. Qed.

(** C5, as stated, fails: the song search yields a result, that result
    has no identifier, and the program goes on to the video search and
    returns its link. *)
Lemma song_result_decides_fails : ~ song_result_decides song_without_id "hello".
Proof.
  intros H. destruct (H _ _ eq_refl) as [id [Hid _]]. discriminate Hid.
Qed.

Ltac settle :=
  repeat split; intros; simpl in *;
  repeat match goal with
         | H : _ \/ _ |- _ => destruct H
         | H : _ /\ _ |- _ => destruct H
         end;
  try congruence; try tauto; auto.

(** C5, amended.  With the search client available: a song search whose
    first result has a usable identifier gives the link made from it, and
    nothing else is searched; the video search is made only when the song
    search gave no usable identifier; and the result is a failure exactly
    when no pass that was made gave a usable identifier (the song search
    raised, or neither the song nor the video search gave one). *)
Theorem search_with_ytmusic_passes (w : world) (query : string) :
  ytmusic_ready w = true ->
  let songs := ytmusic_search w query "songs" in
  let videos := ytmusic_search w query "videos" in
  let link := fst (search_with_ytmusic w query) in
  let searched := snd (search_with_ytmusic w query) in
  (forall id, usable_id songs = Some id ->
     link = Some (watch_link id) /\ searched = ["songs"]) /\
  (In "videos" searched -> usable_id songs = None) /\
  (forall id, songs <> SearchRaises -> usable_id songs = None ->
     usable_id videos = Some id ->
     link = Some (watch_link id) /\ searched = ["songs"; "videos"]) /\
  (link = None <->
     songs = SearchRaises \/
     (usable_id songs = None /\ usable_id videos = None)).
Proof.
  intros Hready. cbv zeta. unfold search_with_ytmusic. rewrite Hready. simpl.
  destruct (ytmusic_search w query "songs") as [|rs] eqn:Es.
  - simpl. settle.
  - rewrite first_video_id_usable.
    destruct (usable_id (SearchResults rs)) as [id|] eqn:Eu.
    + simpl. settle.
    + destruct (ytmusic_search w query "videos") as [|vs] eqn:Ev.
      * simpl. settle.
      * rewrite first_video_id_usable.
        destruct (usable_id (SearchResults vs)) as [id|] eqn:Euv; simpl;
          settle.
Qed.

Lemma search_with_ytmusic_passes_witness :
  ytmusic_ready song_without_id = true /\
  fst (search_with_ytmusic song_without_id "hello")
  = Some (watch_link "abc123").
Proof.
  split; [reflexivity|].
  pose proof (search_with_ytmusic_passes song_without_id "hello" eq_refl)
    as (_ & _ & Hvideo & _).
  apply (Hvideo "abc123"); [discriminate | reflexivity | reflexivity].
Defined.

End ResolverFacts.

(** ** Fallback instances *)

Module ExtractorFacts.
Import Extractor Spec Scenarios.

Section Loop.
Variables (w : world) (youtube_url : string).

Let rejected (instance : string) : Prop :=
  accept (cobalt_post w instance youtube_url) = None.

Lemma try_instances_first before k after url :
  Forall rejected before ->
  accept (cobalt_post w k youtube_url) = Some url ->
  try_instances w youtube_url (before ++ k :: after)
  = (Some url, before ++ [k]).
Proof.
  intros Hb Hk. induction Hb as [|i before Hi _ IH]; simpl.
  - now rewrite Hk.
  - unfold rejected in Hi. now rewrite Hi, IH.
Qed.

Lemma try_instances_exhausted instances :
  Forall rejected instances ->
  try_instances w youtube_url instances = (None, instances).
Proof.
  induction 1 as [|i rest Hi _ IH]; simpl; [reflexivity|].
  unfold rejected in Hi. now rewrite Hi, IH.
Qed.
End Loop.

Lemma accept_shapes data u :
  redirect_shape data u \/ url_shape data u \/ audio_shape data u ->
  accept (Response 200 (Some (JObj data))) = Some (JStr u).
Proof.
  unfold redirect_shape, url_shape, audio_shape, accept, Dict.has. simpl.
  intros [[Hs Hu]|[Hu|[Hu Ha]]].
  - rewrite Hs, Hu. reflexivity.
  - rewrite Hu. rewrite andb_true_r.
    now destruct (match _ with JStr s => (s =? "redirect")%string | _ => false end).
  - rewrite Hu, Ha. now rewrite andb_false_r.
Qed.

Lemma accept_unrecognized data :
  unrecognized data -> accept (Response 200 (Some (JObj data))) = None.
Proof.
  unfold unrecognized, accept, Dict.has. simpl. intros [-> ->].
  now rewrite andb_false_r.
Qed.

Lemma accept_not_200 code body :
  code <> 200 -> accept (Response code body) = None.
Proof.
  intros H. unfold accept. apply Z.eqb_neq in H. now rewrite H.
Qed.

(** Whatever is accepted comes from a 200 answer holding an object, out of
    its [url] field or, without one, out of its [audio] field. *)
Lemma accept_inv r v :
  accept r = Some v ->
  exists data,
    r = Response 200 (Some (JObj data)) /\
    (Dict.get "url" data = Some v \/
     Dict.get "url" data = None /\ Dict.get "audio" data = Some v).
Proof.
  unfold accept, logged, Dict.has.
  destruct r as [| | |code [[| | | | |data]|]]; try discriminate;
    destruct (code =? 200) eqn:E; try discriminate.
  apply Z.eqb_eq in E. subst code. intros H. exists data. split; [reflexivity|].
  destruct (Dict.get "url" data) as [u|].
  - left. rewrite andb_true_r in H.
    destruct (match _ with JStr s => (s =? "redirect")%string | _ => false end);
      destruct (sliceable u); congruence.
  - right. split; [reflexivity|]. rewrite andb_false_r in H.
    destruct (Dict.get "audio" data) as [a|]; [|discriminate].
    destruct (sliceable a); congruence.
Qed.

(** C4.  Whatever order the shuffle gives: if instance [k] is the first
    whose answer is accepted, the fallback returns the URL of that answer
    and has contacted the instances up to [k] and none after it; if no
    answer is accepted it returns failure, having contacted them all.  An
    answer is accepted when it has status 200 and one of the three shapes;
    a timeout, a connection error, any other error, a status other than
    200, a body that is not JSON and an object without [url] and [audio]
    are passed over. *)
Theorem cobalt_fallback_first_accepted (w : world) (youtube_url : string) :
  let instances := shuffle w COBALT_INSTANCES in
  let answer i := cobalt_post w i youtube_url in
  (forall before k after url,
     instances = before ++ k :: after ->
     Forall (fun i => accept (answer i) = None) before ->
     accept (answer k) = Some url ->
     get_audio_stream_from_cobalt_fallback w youtube_url
     = (Some url, before ++ [k])) /\
  (Forall (fun i => accept (answer i) = None) instances ->
     get_audio_stream_from_cobalt_fallback w youtube_url = (None, instances)) /\
  (forall data u,
     redirect_shape data u \/ url_shape data u \/ audio_shape data u ->
     accept (Response 200 (Some (JObj data))) = Some (JStr u)) /\
  accept Timeout = None /\
  accept ConnectionError = None /\
  accept OtherError = None /\
  (forall code body, code <> 200 -> accept (Response code body) = None) /\
  accept (Response 200 None) = None /\
  (forall data, unrecognized data ->
     accept (Response 200 (Some (JObj data))) = None).
Proof.
  cbv zeta. unfold get_audio_stream_from_cobalt_fallback.
  repeat split.
  - intros before k after url -> Hb Hk. now apply try_instances_first.
  - apply try_instances_exhausted.
  - apply accept_shapes.
  - apply accept_not_200.
  - apply accept_unrecognized.
Qed.

(** The second instance of the list answers, the first one times out. *)
Example fallback_second_instance :
  let w :=
    {| ytmusic_ready := true;
       ytmusic_search := fun _ _ => SearchResults [];
       extract_info := fun _ => ExtractRaises;
       shuffle := fun l => rev l;
       cobalt_post := fun instance _ =>
         if String.eqb instance "https://cobalt.tools"
         then Response 200 (Some (JObj [("status", JStr "stream");
                                        ("url", JStr "https://a/b.mp3")]))
         else if String.eqb instance "https://cobalt.pub" then Timeout
         else Response 200 (Some (JObj [("audio", JStr "https://never")]));
       video_info := fun _ => InfoRaises;
       clock_cleanup := 0; clock_lookup := 0; clock_store := 0;
       clock_stats := 0 |} in
  get_audio_stream_from_cobalt_fallback w "https://www.youtube.com/watch?v=x"
  = (Some (JStr "https://a/b.mp3"),
     ["https://cobalt.pub"; "https://cobalt.tools"]).
Proof. reflexivity. Qed.

End ExtractorFacts.

(** ** The cache in front of the resolution *)

Module ResolutionFacts.
Import Dict DictFacts Cache CacheFacts Resolution Spec Scenarios.

Lemma get_absent {V} k (d : dict V) : ~ In k (keys d) -> get k d = None.
Proof.
  intros H. destruct (get k d) eqn:E; [|reflexivity].
  exfalso. apply H. apply has_In. unfold has. now rewrite E.
Qed.

(** A lookup in a filtered well-formed dict. *)
Lemma get_filter {V} (p : string * V -> bool) k v (d : dict V) :
  wf d -> get k d = Some v ->
  get k (filter p d) = if p (k, v) then Some v else None.
Proof.
  unfold wf. induction d as [|[k' v'] d IH]; simpl; [discriminate|].
  intros Hnd; inversion Hnd as [|? ? Hnotin Hnd']; subst.
  destruct (String.eqb k' k) eqn:E.
  - apply String.eqb_eq in E; subst k'. intros [= ->].
    destruct (p (k, v)); simpl.
    + now rewrite String.eqb_refl.
    + apply get_absent. intros Hin. apply Hnotin.
      eapply keys_filter_incl, Hin.
  - intros Hget. destruct (p (k', v')); simpl; [rewrite E|]; now apply IH.
Qed.

Lemma del_absent {V} k (d : dict V) : get k d = None -> del k d = d.
Proof.
  unfold del. induction d as [|[k' v] d IH]; simpl; [reflexivity|].
  unfold key at 1; simpl.
  destruct (String.eqb k' k); [discriminate|].
  intros H. simpl. f_equal. now apply IH.
Qed.

(** [cleanup_cache] only removes entries. *)
Lemma cleanup_cache_filter now c :
  exists p, cleanup_cache now c = filter p c.
Proof.
  unfold cleanup_cache, enforce_capacity, sweep.
  destruct (_ <? _)%nat.
  - rewrite !del_keys_filter, filter_filter. eauto.
  - rewrite del_keys_filter. eauto.
Qed.

Lemma get_cleanup_cache now c k v :
  wf c -> get k c = Some v ->
  get k (cleanup_cache now c) = Some v \/ get k (cleanup_cache now c) = None.
Proof.
  intros Hwf Hget. destruct (cleanup_cache_filter now c) as [p ->].
  rewrite (get_filter p k v c Hwf Hget). destruct (p (k, v)); auto.
Qed.

(** The lookup on a stale entry: nothing is returned and the entry goes. *)
Lemma lookup_stale now k c created url :
  get k c = Some (created, url) -> now - created >= CACHE_DURATION ->
  lookup now k c = (None, del k c).
Proof.
  intros Hget Hold. unfold lookup. rewrite Hget.
  destruct (now - created <? CACHE_DURATION) eqn:E; [|reflexivity].
  apply Z.ltb_lt in E. lia.
Qed.

Lemma lookup_absent now k c :
  get k c = None -> lookup now k c = (None, del k c).
Proof.
  intros Hget. unfold lookup. rewrite Hget. now rewrite del_absent.
Qed.

(** C2.  Take an entry of the cache, created at [created], and a call of
    [get_direct_stream_url] for its key whose lookup happens at a time
    [now] with [now - created >= 1800].  The lookup returns no cached URL
    and leaves the cache without the entry; the call returns what a fresh
    resolution gives, counts no cache hit, and its cache holds for the key
    only what that resolution stored. *)
Theorem stale_entry_is_a_miss (w : world) (query : string) (s : server)
    (created : Z) (url : json) :
  wf (stream_cache s) ->
  get (cache_key query) (stream_cache s) = Some (created, url) ->
  clock_lookup w - created >= 1800 ->
  let k := cache_key query in
  let c := cleanup_cache (clock_cleanup w) (stream_cache s) in
  let result := get_direct_stream_url w query s in
  lookup (clock_lookup w) k c = (None, del k c) /\
  get k (del k c) = None /\
  fst result = resolve w query /\
  stream_cache (snd result)
  = match resolve w query with
    | Some fresh => set k (clock_store w, fresh) (del k c)
    | None => del k c
    end /\
  Stats.cache_hits (SERVER_STATS (snd result))
  = Stats.cache_hits (SERVER_STATS s).
Proof.
  intros Hwf Hget Hold k c result.
  assert (Hl : lookup (clock_lookup w) k c = (None, del k c)).
  { destruct (get_cleanup_cache (clock_cleanup w) _ _ _ Hwf Hget) as [H|H].
    - eapply lookup_stale; [exact H | exact Hold].
    - now apply lookup_absent. }
  split; [exact Hl|]. split; [apply get_del|].
  unfold result, get_direct_stream_url. fold k. fold c. rewrite Hl.
  destruct (resolve w query); simpl; auto.
Qed.

Lemma stale_entry_is_a_miss_witness :
  get_direct_stream_url (at_time 2800) " Hello " one_entry
  = (Some (JStr "https://new/b.m4a"),
     {| stream_cache := [("hello", (2800, JStr "https://new/b.m4a"))];
        SERVER_STATS := Stats.initial |}) /\
  fst (get_direct_stream_url (at_time 2800) " Hello " one_entry)
  = resolve (at_time 2800) " Hello ".
Proof.
  split; [reflexivity|].
  refine (proj1 (proj2 (proj2
    (stale_entry_is_a_miss (at_time 2800) " Hello " one_entry 1000
       (JStr "https://old/a.m4a") _ eq_refl _)))).
  - repeat constructor. simpl. tauto.
  - simpl. lia.
Defined.

(** When the resolution after a miss fails. *)
Lemma resolve_fails (w : world) (query : string) :
  resolve w query = None <->
  (is_link query = false /\
   fst (Resolver.search_with_ytmusic w query) = None) \/
  (exists link,
     (if is_link query then Some query
      else fst (Resolver.search_with_ytmusic w query)) = Some link /\
     truthy_opt (Extractor.get_best_audio_url_ytdlp w link) = false /\
     truthy_opt (fst (Extractor.get_audio_stream_from_cobalt_fallback w link))
     = false).
Proof.
  unfold resolve.
  assert (G : forall link,
    (if truthy_opt
          (if truthy_opt (Extractor.get_best_audio_url_ytdlp w link)
           then Extractor.get_best_audio_url_ytdlp w link
           else fst (Extractor.get_audio_stream_from_cobalt_fallback w link))
     then
       if truthy_opt (Extractor.get_best_audio_url_ytdlp w link)
       then Extractor.get_best_audio_url_ytdlp w link
       else fst (Extractor.get_audio_stream_from_cobalt_fallback w link)
     else None) = None <->
    truthy_opt (Extractor.get_best_audio_url_ytdlp w link) = false /\
    truthy_opt (fst (Extractor.get_audio_stream_from_cobalt_fallback w link))
    = false).
  { intros link.
    destruct (Extractor.get_best_audio_url_ytdlp w link) as [a|];
      destruct (fst (Extractor.get_audio_stream_from_cobalt_fallback w link))
        as [b|]; simpl;
      try destruct (truthy a) eqn:Ea; try destruct (truthy b) eqn:Eb;
      simpl; try rewrite Ea; try rewrite Eb;
      split; try intros [? ?]; try intros ?; try discriminate; auto. }
  destruct (is_link query).
  - rewrite G. split.
    + intros H. right. exists query. tauto.
    + intros [[H _]|[link [[= <-] H]]]; [discriminate | exact H].
  - destruct (fst (Resolver.search_with_ytmusic w query)) as [link|].
    + rewrite G. split.
      * intros H. right. exists link. tauto.
      * intros [[_ H]|[link' [[= <-] H]]]; [discriminate | exact H].
    + split; auto.
Qed.

(** C9.  A call of [get_direct_stream_url] adds one to [cache_hits]
    exactly when its lookup finds a live entry, and one to [cache_misses]
    exactly when it finds none and the resolution then fails; a miss
    followed by a successful resolution leaves every counter as it was. *)
Theorem cache_counters (w : world) (query : string) (s : server) :
  let before := SERVER_STATS s in
  let after := SERVER_STATS (snd (get_direct_stream_url w query s)) in
  let hit := live_hit w query s in
  let failed := negb hit && resolution_fails w query in
  Stats.cache_hits after
  = Stats.cache_hits before + (if hit then 1 else 0) /\
  Stats.cache_misses after
  = Stats.cache_misses before + (if failed then 1 else 0) /\
  (hit = false -> resolution_fails w query = false -> after = before).
Proof.
  cbv zeta. unfold live_hit, resolution_fails, get_direct_stream_url, lookup.
  destruct (get _ _) as [[created url]|].
  - destruct (clock_lookup w - created <? CACHE_DURATION); simpl.
    + repeat split; try lia; discriminate.
    + destruct (resolve w query); simpl; repeat split; try lia; congruence.
  - destruct (resolve w query); simpl; repeat split; try lia; congruence.
Qed.

End ResolutionFacts.

(** ** The streaming loops *)

Module TranscodeFacts.
Import Transcode Spec Scenarios.












(** C3 at the failing input.  With the subprocess exited and three bytes
    left in its standard output, the loop of [/stream] ends without
    yielding them, where the loop of [/esp32_stream] yields them; and when
    the subprocess exits after a last write of 8195 bytes, [/stream]
    yields the first 8192 and drops the last three. *)
Theorem web_generate_drops_tail :
  web_generate (enough finished) [] finished = Some [] /\
  esp32_generate (enough finished) [] finished
  = Some [[Byte.x49; Byte.x44; Byte.x33]] /\
  web_generate (enough last_write) [] last_write
  = Some [repeat Byte.xff WEB_CHUNK] /\
  option_map (@List.concat Byte.byte)
             (esp32_generate (enough last_write) [] last_write)
  = Some (output last_write).
Proof. vm_compute. repeat split. Qed.

End TranscodeFacts.

(** ** Request handlers *)

Module EndpointFacts.
Import Resolution Endpoints Spec Scenarios.

(** C7.  For the request [/stream_pcm?song=Shape+of+You&singer=Ed+Sheeran],
    whenever the resolution of its query gives no usable URL, the answer
    has status 404 and its JSON body is the object with [error]
    "Không tìm thấy bài hát: Shape of You Ed Sheeran", [title]
    "Shape of You", [artist] "Ed Sheeran" and empty [audio_url] and
    [lyric_url]. *)
Theorem stream_pcm_not_found (w : world) (s : server) (host : string) :
  truthy_opt (fst (get_direct_stream_url w "Shape of You Ed Sheeran" s))
  = false ->
  let r := fst (stream_pcm w (shape_of_you host) s) in
  status r = 404 /\
  exists fields,
    payload r = Json fields /\
    Permutation fields
      [ ("error", JStr "Không tìm thấy bài hát: Shape of You Ed Sheeran");
        ("title", JStr "Shape of You");
        ("artist", JStr "Ed Sheeran");
        ("audio_url", JStr "");
        ("lyric_url", JStr "") ].
Proof.
  intros Hfail. unfold stream_pcm.
  change (PyStr.strip (arg "song" (shape_of_you host))) with "Shape of You".
  change (PyStr.strip (arg "singer" (shape_of_you host))) with "Ed Sheeran".
  change (stream_pcm_query "Shape of You" "Ed Sheeran")
    with "Shape of You Ed Sheeran".
  cbv iota beta zeta.
  change (negb (PyStr.nonempty "Shape of You")) with false. cbv iota.
  destruct (get_direct_stream_url w "Shape of You Ed Sheeran" s)
    as [[url|] s']; simpl in Hfail; [rewrite Hfail|];
    (split; [reflexivity|]);
    eexists; (split; [reflexivity|]); simpl; apply perm_skip, perm_swap.
Qed.

Lemma stream_pcm_not_found_witness :
  status (fst (stream_pcm silent (shape_of_you "10.0.0.2:5000")
                          fresh_server)) = 404.
Proof.
  apply (stream_pcm_not_found silent fresh_server "10.0.0.2:5000").
  reflexivity.
Defined.

(** The command line of [/esp32_stream], whatever the URL. *)
Lemma esp32_profile url :
  cmd_option "-ar" (esp32_ffmpeg_cmd url) = Some (JStr "24000") /\
  cmd_option "-b:a" (esp32_ffmpeg_cmd url) = Some (JStr "80k").
Proof. split; reflexivity. Qed.

Lemma esp32_stream_audio w req s cmd gen :
  payload (fst (esp32_stream w req s)) = Audio cmd gen ->
  exists url, cmd = esp32_ffmpeg_cmd url.
Proof.
  unfold esp32_stream.
  destruct (negb _); [discriminate|].
  destruct (get_direct_stream_url _ _ _) as [[url|] s']; [|discriminate].
  destruct (truthy url); [|discriminate].
  simpl. intros [= <- _]. eauto.
Qed.

Lemma stream_pcm_success w req s :
  status (fst (stream_pcm w req s)) = 200 ->
  exists artist title,
    payload (fst (stream_pcm w req s)) =
    Json [ ("artist", JStr artist);
           ("title", JStr title);
           ("audio_url",
            JStr ("http://" ++ host req ++ "/esp32_stream?song="
                  ++ Quote.quote (PyStr.strip (arg "song" req))
                  ++ "&singer="
                  ++ Quote.quote (PyStr.strip (arg "singer" req)))%string);
           ("lyric_url", JStr "");
           ("error", JStr "");
           ("bitrate", JNum 128);
           ("sample_rate", JNum 44100);
           ("channels", JNum 2) ].
Proof.
  unfold stream_pcm.
  destruct (negb _); [discriminate|].
  destruct (get_direct_stream_url _ _ _) as [[url|] s']; [|discriminate].
  destruct (truthy url); [|discriminate].
  destruct (get_video_info w url) as [title artist]. simpl. eauto.
Qed.

(** A request to [/esp32_stream] whose query resolves is answered with
    the stream of its own command line. *)
Lemma esp32_stream_answers w req s url :
  PyStr.nonempty (PyStr.strip (arg "song" req)) = true ->
  fst (get_direct_stream_url w
         (esp32_stream_query (PyStr.strip (arg "song" req))
                             (PyStr.strip (arg "singer" req))) s)
  = Some url ->
  truthy url = true ->
  fst (esp32_stream w req s)
  = {| status := 200;
       payload := Audio (esp32_ffmpeg_cmd url) Transcode.esp32_generate |}.
Proof.
  intros Hsong Hurl Ht. unfold esp32_stream. rewrite Hsong. cbv [negb].
  destruct (get_direct_stream_url _ _ _) as [u s'].
  simpl in Hurl. subst u. rewrite Ht. reflexivity.
Qed.

Lemma stream_pcm_has_song w req s :
  status (fst (stream_pcm w req s)) = 200 ->
  PyStr.nonempty (PyStr.strip (arg "song" req)) = true.
Proof.
  unfold stream_pcm.
  destruct (PyStr.nonempty (PyStr.strip (arg "song" req)));
    [reflexivity | discriminate].
Qed.

Lemma esp32_stream_success w req s :
  status (fst (esp32_stream w req s)) = 200 ->
  exists url,
    fst (get_direct_stream_url w
           (esp32_stream_query (PyStr.strip (arg "song" req))
                               (PyStr.strip (arg "singer" req))) s)
    = Some url /\
    truthy url = true /\
    payload (fst (esp32_stream w req s))
    = Audio (esp32_ffmpeg_cmd url) Transcode.esp32_generate.
Proof.
  unfold esp32_stream.
  destruct (negb _); [discriminate|].
  destruct (get_direct_stream_url _ _ _) as [[url|] s']; [|discriminate].
  destruct (truthy url) eqn:Ht; [|discriminate].
  simpl. eauto.
Qed.

(** C10.  Every successful answer of [/stream_pcm] reports bitrate 128,
    sample rate 44100 and 2 channels, and its [audio_url] points to
    [/esp32_stream] with the same song and singer.  A request to
    [/esp32_stream] with that song and singer, whenever its query resolves
    to a usable URL, is answered 200 with the output of the command line
    [esp32_ffmpeg_cmd], which reads that URL and transcodes it with
    [-ar 24000] and [-b:a 80k]; no answer of [/esp32_stream] has status
    200 otherwise, and none streams anything else.  The reported sample
    rate and bitrate are therefore never those of the stream. *)
Theorem stream_pcm_reports_fixed_profile (w : world) (req : request)
    (s : server) :
  status (fst (stream_pcm w req s)) = 200 ->
  let r := fst (stream_pcm w req s) in
  let song := PyStr.strip (arg "song" req) in
  let singer := PyStr.strip (arg "singer" req) in
  field "bitrate" r = Some (JNum 128) /\
  field "sample_rate" r = Some (JNum 44100) /\
  field "channels" r = Some (JNum 2) /\
  field "audio_url" r
  = Some (JStr ("http://" ++ host req ++ "/esp32_stream?song="
                ++ Quote.quote song ++ "&singer="
                ++ Quote.quote singer)%string) /\
  (forall w' req' s' url,
     PyStr.strip (arg "song" req') = song ->
     PyStr.strip (arg "singer" req') = singer ->
     fst (get_direct_stream_url w' (esp32_stream_query song singer) s')
     = Some url ->
     truthy url = true ->
     fst (esp32_stream w' req' s')
     = {| status := 200;
          payload := Audio (esp32_ffmpeg_cmd url) Transcode.esp32_generate |} /\
     cmd_option "-i" (esp32_ffmpeg_cmd url) = Some url /\
     cmd_option "-ar" (esp32_ffmpeg_cmd url) = Some (JStr "24000") /\
     cmd_option "-b:a" (esp32_ffmpeg_cmd url) = Some (JStr "80k")) /\
  (forall w' req' s',
     status (fst (esp32_stream w' req' s')) = 200 ->
     exists url,
       fst (get_direct_stream_url w'
              (esp32_stream_query (PyStr.strip (arg "song" req'))
                                  (PyStr.strip (arg "singer" req'))) s')
       = Some url /\
       truthy url = true /\
       payload (fst (esp32_stream w' req' s'))
       = Audio (esp32_ffmpeg_cmd url) Transcode.esp32_generate) /\
  forall w' req' s' cmd gen,
    payload (fst (esp32_stream w' req' s')) = Audio cmd gen ->
    cmd_option "-ar" cmd = Some (JStr "24000") /\
    cmd_option "-b:a" cmd = Some (JStr "80k") /\
    (forall rate kbps sample_rate bitrate,
       field "sample_rate" r = Some (JNum rate) ->
       field "bitrate" r = Some (JNum kbps) ->
       option_map ffmpeg_number (cmd_option "-ar" cmd) = Some (Some sample_rate) ->
       option_map ffmpeg_number (cmd_option "-b:a" cmd) = Some (Some bitrate) ->
       rate <> sample_rate /\ kbps * 1000 <> bitrate /\ kbps <> bitrate).
Proof.
  intros Hok r song singer.
  destruct (stream_pcm_success w req s Hok) as (artist & title & Hp).
  pose proof (stream_pcm_has_song w req s Hok) as Hsong.
  unfold field. fold r in Hp. rewrite Hp.
  repeat (split; [reflexivity|]).
  split; [|split].
  - intros w' req' s' url Es Ei Hurl Ht.
    split; [|repeat split].
    apply esp32_stream_answers.
    + rewrite Es. exact Hsong.
    + rewrite Es, Ei. exact Hurl.
    + exact Ht.
  - intros w' req' s'. apply esp32_stream_success.
  - intros w' req' s' cmd gen Ha.
    destruct (esp32_stream_audio _ _ _ _ _ Ha) as [url ->].
    destruct (esp32_profile url) as [Har Hba]. rewrite Har, Hba.
    repeat (split; [reflexivity|]).
    intros rate kbps sample_rate bitrate [= <-] [= <-].
    vm_compute. intros [= <-] [= <-]. repeat split; discriminate.
Qed.

Example stream_pcm_run :
  fst (stream_pcm (at_time 5000) shape_request fresh_server)
  = {| status := 200;
       payload := Json
         [ ("artist", JStr "youtube");
           ("title", JStr "Unknown");
           ("audio_url",
            JStr "http://10.0.0.2:5000/esp32_stream?song=Shape%20of%20You&singer=youtube");
           ("lyric_url", JStr "");
           ("error", JStr "");
           ("bitrate", JNum 128);
           ("sample_rate", JNum 44100);
           ("channels", JNum 2) ] |}.
Proof. reflexivity. Qed.

Example esp32_stream_run :
  fst (esp32_stream (at_time 5000) shape_request fresh_server)
  = {| status := 200;
       payload := Audio
         (lit ["ffmpeg"; "-reconnect"; "1"; "-reconnect_streamed"; "1";
               "-reconnect_delay_max"; "5"; "-i"; "https://new/b.m4a";
               "-f"; "mp3"; "-acodec"; "libmp3lame"; "-ar"; "24000";
               "-ac"; "2"; "-b:a"; "80k"; "-q:a"; "7"; "-bufsize"; "160k";
               "-fflags"; "+discardcorrupt"; "-max_muxing_queue_size";
               "640"; "-vn"; "-"])
         Transcode.esp32_generate |}.
Proof. reflexivity. Qed.

Lemma stream_pcm_reports_fixed_profile_witness :
  field "sample_rate"
    (fst (stream_pcm (at_time 5000) shape_request fresh_server))
  = Some (JNum 44100) /\
  fst (esp32_stream (at_time 5000) shape_request fresh_server)
  = {| status := 200;
       payload := Audio (esp32_ffmpeg_cmd (JStr "https://new/b.m4a"))
                        Transcode.esp32_generate |} /\
  cmd_option "-ar" (esp32_ffmpeg_cmd (JStr "https://new/b.m4a"))
  = Some (JStr "24000").
Proof.
  destruct (stream_pcm_reports_fixed_profile
              (at_time 5000) shape_request fresh_server eq_refl)
    as (_ & Hrate & _ & _ & Hesp & _).
  destruct (Hesp (at_time 5000) shape_request fresh_server
                 (JStr "https://new/b.m4a") eq_refl eq_refl eq_refl eq_refl)
    as (Hrun & _ & Har & _).
  exact (conj Hrate (conj Hrun Har)).
Defined.

End EndpointFacts.

(** * Further properties *)

(** ** More on [cleanup_cache] *)

Module CacheMore.
Import Dict DictFacts Cache CacheFacts CacheChecked Spec.

Lemma distinct_NoDup ks : distinct ks = true -> NoDup ks.
Proof.
  induction ks as [|k rest IH]; simpl; [constructor|].
  intros H. apply andb_true_iff in H as [Hk Hr].
  constructor; [|auto].
  intros Hin. apply negb_true_iff in Hk.
  assert (existsb (String.eqb k) rest = true); [|congruence].
  apply existsb_exists. exists k. split; [exact Hin | apply String.eqb_refl].
Qed.

Lemma distinct_wf {V} (d : dict V) : distinct (keys d) = true -> wf d.
Proof. apply distinct_NoDup. Qed.

Lemma listed_keys_has (d : cache) e : listed (keys d) e = has (key e) d.
Proof.
  destruct (has (key e) d) eqn:E.
  - apply listed_In, has_In, E.
  - destruct (listed (keys d) e) eqn:L; [|reflexivity].
    apply listed_In, has_In in L. congruence.
Qed.

(** The expiry loop keeps the entries within the TTL, in their order. *)
Lemma sweep_unexpired now c :
  wf c -> sweep now c = filter (unexpired now) c.
Proof.
  intros Hwf. unfold sweep. rewrite del_keys_filter.
  apply filter_ext_in. intros e He. unfold expired_keys.
  etransitivity; [apply f_equal, listed_keys_has|].
  etransitivity; [apply f_equal, (has_filter _ c e Hwf He)|].
  unfold unexpired. cbv beta.
  destruct (now - cache_time e <=? CACHE_DURATION) eqn:E.
  - apply Z.leb_le in E. apply negb_true_iff, Z.ltb_ge. exact E.
  - apply Z.leb_gt in E. apply negb_false_iff, Z.ltb_lt. exact E.
Qed.

Lemma cleanup_cache_under_capacity now c :
  wf c ->
  (List.length (filter (unexpired now) c) <= MAX_CACHE_SIZE)%nat ->
  cleanup_cache now c = filter (unexpired now) c.
Proof.
  intros Hwf Hlen. unfold cleanup_cache.
  rewrite sweep_unexpired by exact Hwf.
  now apply enforce_capacity_idle.
Qed.

(** X1.  When at most [MAX_CACHE_SIZE] entries are within the TTL,
    [cleanup_cache] returns exactly those entries, in their order: an
    entry is dropped only for its age, and an entry that is exactly
    [CACHE_DURATION] seconds old is kept. *)
Theorem cleanup_cache_keeps_unexpired (now : Z) (c : cache) :
  wf c ->
  (List.length (filter (unexpired now) c) <= MAX_CACHE_SIZE)%nat ->
  cleanup_cache now c = filter (unexpired now) c /\
  (forall e, In e c -> now - cache_time e <= 1800 ->
             In e (cleanup_cache now c)) /\
  (forall e, In e (cleanup_cache now c) -> now - cache_time e <= 1800).
Proof.
  intros Hwf Hlen.
  rewrite (cleanup_cache_under_capacity now c Hwf Hlen).
  split; [reflexivity|]. split.
  - intros e He Hage. apply filter_In. split; [exact He|].
    apply Z.leb_le. exact Hage.
  - intros e He. apply filter_In in He as [_ He]. apply Z.leb_le in He.
    exact He.
Qed.

Lemma cleanup_cache_keeps_unexpired_witness :
  cleanup_cache 3000 three_entries
  = [ ("shape of you", (2000, JStr "https://cdn/2.m4a"));
      ("https://youtu.be/x", (2500, JStr "https://cdn/3.m4a")) ].
Proof.
  refine (proj1 (cleanup_cache_keeps_unexpired 3000 three_entries _ _)).
  - apply distinct_wf. reflexivity.
  - vm_compute. lia.
Defined.

Lemma cleanup_cache_incl now c e :
  In e (cleanup_cache now c) -> In e (sweep now c).
Proof.
  unfold cleanup_cache, enforce_capacity.
  destruct (_ <? _)%nat; [|auto].
  rewrite del_keys_filter. intros H. now apply filter_In in H.
Qed.

(** X2.  [cleanup_cache] is idempotent: a second pass at the same time
    changes nothing. *)
Theorem cleanup_cache_idempotent (now : Z) (c : cache) :
  wf c ->
  cleanup_cache now (cleanup_cache now c) = cleanup_cache now c.
Proof.
  intros Hwf.
  pose proof (wf_cleanup_cache now c Hwf) as Hwf'.
  destruct (cleanup_cache_spec now c Hwf) as (Hlen & _).
  assert (Hfresh : filter (unexpired now) (cleanup_cache now c)
                   = cleanup_cache now c).
  { apply filter_all. intros e He.
    apply cleanup_cache_incl in He. rewrite sweep_unexpired in He by exact Hwf.
    now apply filter_In in He. }
  rewrite (cleanup_cache_under_capacity now (cleanup_cache now c) Hwf').
  - exact Hfresh.
  - rewrite Hfresh. exact Hlen.
Qed.

Lemma cleanup_cache_idempotent_witness :
  cleanup_cache 3000 (cleanup_cache 3000 three_entries)
  = cleanup_cache 3000 three_entries.
Proof.
  apply (cleanup_cache_idempotent 3000 three_entries).
  apply distinct_wf. reflexivity.
Defined.

(** X3.  On a dict (no key twice) [cleanup_cache] never raises: each
    [del] of its two loops finds its key, and the checked run gives the
    cache that [cleanup_cache] computes. *)
Theorem cleanup_cache_never_raises (now : Z) (c : cache) :
  wf c ->
  cleanup_cache_checked now c = Some (cleanup_cache now c).
Proof.
  intros Hwf. unfold cleanup_cache_checked, cleanup_cache, enforce_capacity.
  rewrite expired_keys_present by exact Hwf.
  destruct (_ <? _)%nat; [|reflexivity].
  apply keys_to_remove_present, wf_sweep, Hwf.
Qed.

Lemma cleanup_cache_never_raises_witness :
  cleanup_cache_checked 3000 three_entries
  = Some (cleanup_cache 3000 three_entries).
Proof.
  apply (cleanup_cache_never_raises 3000 three_entries).
  apply distinct_wf. reflexivity.
Defined.

End CacheMore.

(** ** The counters of [update_stats] *)

Module StatsFacts.
Import Stats StatsLog.

Lemma count_cons type ok c calls :
  count type ok (c :: calls) = indicator (is_call type ok c) + count type ok calls.
Proof.
  unfold count, indicator. cbn [filter].
  destruct (is_call type ok c); [cbn [List.length]|]; lia.
Qed.

Lemma last_stream_cons c calls :
  last_stream (c :: calls) =
  match last_stream calls with
  | Some t => Some t
  | None => if String.eqb (request_type c) "stream" then Some (call_time c) else None
  end.
Proof.
  unfold last_stream. simpl.
  destruct (String.eqb (request_type c) "stream"); simpl;
    destruct (rev (filter _ calls)); reflexivity.
Qed.

(** One call. *)
Lemma update_stats_step c s :
  let s' := update_stats (call_time c) (request_type c) (success c) s in
  total_requests s' = total_requests s + 1 /\
  successful_streams s' = successful_streams s + indicator (is_call "stream" true c) /\
  failed_streams s' = failed_streams s + indicator (is_call "stream" false c) /\
  cache_hits s' = cache_hits s + indicator (is_call "cache" true c) /\
  cache_misses s' = cache_misses s + indicator (is_call "cache" false c) /\
  last_stream_time s' =
    if String.eqb (request_type c) "stream" then Some (call_time c)
    else last_stream_time s.
Proof.
  unfold update_stats, is_call, indicator.
  destruct (String.eqb (request_type c) "stream") eqn:Es.
  - apply String.eqb_eq in Es. rewrite Es. simpl.
    destruct (success c); simpl; repeat split; try lia; reflexivity.
  - destruct (String.eqb (request_type c) "cache") eqn:Ec.
    + destruct (success c); simpl; repeat split; try lia; reflexivity.
    + simpl. repeat split; try lia; reflexivity.
Qed.

Lemma replay_counts calls : forall s,
  let s' := replay calls s in
  total_requests s' = total_requests s + Z.of_nat (List.length calls) /\
  successful_streams s' = successful_streams s + count "stream" true calls /\
  failed_streams s' = failed_streams s + count "stream" false calls /\
  cache_hits s' = cache_hits s + count "cache" true calls /\
  cache_misses s' = cache_misses s + count "cache" false calls /\
  last_stream_time s' =
    match last_stream calls with
    | Some t => Some t
    | None => last_stream_time s
    end.
Proof.
  induction calls as [|c calls IH]; intro s.
  - cbv zeta. unfold replay, count. simpl. repeat split; lia.
  - cbv zeta. unfold replay. simpl fold_left.
    destruct (update_stats_step c s) as (H1 & H2 & H3 & H4 & H5 & H6).
    destruct (IH (update_stats (call_time c) (request_type c) (success c) s))
      as (I1 & I2 & I3 & I4 & I5 & I6).
    unfold replay in *.
    rewrite I1, I2, I3, I4, I5, I6, H1, H2, H3, H4, H5, H6.
    rewrite !count_cons, last_stream_cons. cbn [List.length].
    repeat split; try lia.
    destruct (last_stream calls); [reflexivity|].
    destruct (String.eqb (request_type c) "stream"); reflexivity.
Qed.

Lemma count_disjoint c :
  indicator (is_call "stream" true c) + indicator (is_call "stream" false c)
  + indicator (is_call "cache" true c) + indicator (is_call "cache" false c)
  <= 1.
Proof.
  unfold is_call, indicator.
  destruct (String.eqb (request_type c) "stream") eqn:Es.
  - apply String.eqb_eq in Es. rewrite Es. simpl.
    destruct (success c); simpl; lia.
  - destruct (String.eqb (request_type c) "cache"), (success c); simpl; lia.
Qed.

Lemma counts_bounded calls :
  count "stream" true calls + count "stream" false calls
  + count "cache" true calls + count "cache" false calls
  <= Z.of_nat (List.length calls).
Proof.
  induction calls as [|c calls IH].
  - unfold count. simpl. lia.
  - rewrite !count_cons. pose proof (count_disjoint c).
    change (List.length (c :: calls)) with (S (List.length calls)). lia.
Qed.

(** X4.  After any sequence of [update_stats] calls from the initial
    counters: [total_requests] is the number of calls; the two stream
    counters and the two cache counters count the calls of their type and
    outcome; [last_stream_time] is the time of the last ['stream'] call;
    and the four counters together never exceed [total_requests] (a call
    of another type only counts as a request). *)
Theorem counters_count_calls (calls : list call) :
  let s := replay calls initial in
  total_requests s = Z.of_nat (List.length calls) /\
  successful_streams s = count "stream" true calls /\
  failed_streams s = count "stream" false calls /\
  cache_hits s = count "cache" true calls /\
  cache_misses s = count "cache" false calls /\
  last_stream_time s = last_stream calls /\
  successful_streams s + failed_streams s + cache_hits s + cache_misses s
  <= total_requests s.
Proof.
  cbv zeta.
  destruct (replay_counts calls initial) as (H1 & H2 & H3 & H4 & H5 & H6).
  simpl in *. rewrite H1, H2, H3, H4, H5, H6.
  repeat split; try reflexivity.
  - now destruct (last_stream calls).
  - apply counts_bounded.
Qed.

End StatsFacts.

(** ** More on [get_direct_stream_url] *)

Module ResolutionMore.
Import Dict DictFacts Cache CacheFacts CacheChecked CacheMore.
Import Resolution ResolutionFacts CacheState Spec Scenarios.

Lemma length_del {V} k (d : dict V) : (List.length (del k d) <= List.length d)%nat.
Proof. unfold del. apply filter_length_le. Qed.

Lemma set_absent {V} k (v : V) (d : dict V) :
  get k d = None -> set k v d = d ++ [(k, v)].
Proof.
  induction d as [|[k' v'] d IH]; simpl; [reflexivity|].
  destruct (String.eqb k' k); [discriminate|].
  intros H. now rewrite IH.
Qed.

Lemma length_set {V} k (v : V) (d : dict V) :
  (List.length (set k v d) <= S (List.length d))%nat.
Proof.
  induction d as [|[k' v'] d IH]; simpl; [lia|].
  destruct (String.eqb k' k); simpl; lia.
Qed.

(** What the lookup block returns and leaves. *)
Lemma lookup_cases now k c :
  (exists t u, get k c = Some (t, u) /\ now - t < CACHE_DURATION /\
               lookup now k c = (Some u, c)) \/
  (lookup now k c = (None, del k c) /\ get k (del k c) = None).
Proof.
  unfold lookup. destruct (get k c) as [[t u]|] eqn:E.
  - destruct (now - t <? CACHE_DURATION) eqn:L.
    + left. exists t, u. apply Z.ltb_lt in L. auto.
    + right. split; [reflexivity | apply get_del].
  - right. rewrite del_absent by exact E. auto.
Qed.

Lemma resolve_truthy w query u : resolve w query = Some u -> truthy u = true.
Proof.
  unfold resolve.
  destruct (if is_link query then _ else _) as [link|]; [|discriminate].
  destruct (truthy_opt (if truthy_opt _ then _ else _)) eqn:E; [|discriminate].
  intros H. rewrite H in E. exact E.
Qed.

Lemma wf_get_direct_stream_url w query s :
  wf (stream_cache s) ->
  wf (stream_cache (snd (get_direct_stream_url w query s))).
Proof.
  intros Hwf. unfold get_direct_stream_url.
  pose proof (wf_cleanup_cache (clock_cleanup w) _ Hwf) as Hc.
  destruct (lookup_cases (clock_lookup w) (cache_key query)
              (cleanup_cache (clock_cleanup w) (stream_cache s)))
    as [(t & u & _ & _ & ->)|[-> _]]; simpl; [exact Hc|].
  destruct (resolve w query); simpl.
  - now apply wf_set, wf_del.
  - now apply wf_del.
Qed.

(** X5.  After a call of [get_direct_stream_url] the cache holds at most
    [MAX_CACHE_SIZE + 1] = 101 entries: the call trims the cache to 100
    before it looks up, and stores at most one entry after. *)
Theorem cache_size_after_call (w : world) (query : string) (s : server) :
  wf (stream_cache s) ->
  (List.length (stream_cache (snd (get_direct_stream_url w query s))) <= 101)%nat.
Proof.
  intros Hwf. unfold get_direct_stream_url.
  destruct (cleanup_cache_spec (clock_cleanup w) _ Hwf) as (Hlen & _).
  unfold MAX_CACHE_SIZE in Hlen.
  set (c := cleanup_cache (clock_cleanup w) (stream_cache s)) in *.
  destruct (lookup_cases (clock_lookup w) (cache_key query) c)
    as [(t & u & _ & _ & ->)|[-> _]]; simpl; [lia|].
  pose proof (length_del (cache_key query) c).
  destruct (resolve w query) as [u|]; simpl; [|lia].
  pose proof (length_set (cache_key query) (clock_store w, u)
                         (del (cache_key query) c)).
  lia.
Qed.

Lemma cache_size_after_call_witness :
  (List.length (stream_cache
     (snd (get_direct_stream_url (at_time 3000) "new song" warm_server)))
   <= 101)%nat.
Proof.
  apply (cache_size_after_call (at_time 3000) "new song" warm_server).
  apply distinct_wf. reflexivity.
Defined.

(** X6.  A call that returns [None] leaves no entry under the key of its
    query: a failure is never cached, and a stale entry for the key is
    gone. *)
Theorem failure_is_not_cached (w : world) (query : string) (s : server) :
  fst (get_direct_stream_url w query s) = None ->
  get (cache_key query) (stream_cache (snd (get_direct_stream_url w query s)))
  = None.
Proof.
  unfold get_direct_stream_url.
  destruct (lookup_cases (clock_lookup w) (cache_key query)
              (cleanup_cache (clock_cleanup w) (stream_cache s)))
    as [(t & u & _ & _ & ->)|[-> Hgone]]; simpl; [discriminate|].
  destruct (resolve w query); simpl; [discriminate|].
  intros _. exact Hgone.
Qed.

Lemma failure_is_not_cached_witness :
  get (cache_key "Hello")
      (stream_cache
         (snd (get_direct_stream_url (silent_at 2800) "Hello" one_entry)))
  = None.
Proof.
  apply (failure_is_not_cached (silent_at 2800) "Hello" one_entry).
  reflexivity.
Defined.

Lemma all_truthy_filter (p : entry -> bool) c :
  all_truthy c -> all_truthy (filter p c).
Proof.
  unfold all_truthy. rewrite !Forall_forall. intros H e He.
  apply filter_In in He. now apply H.
Qed.

Lemma all_truthy_set k t u c :
  truthy u = true -> all_truthy c -> all_truthy (set k (t, u) c).
Proof.
  unfold all_truthy. intros Hu. induction 1 as [|[k' v'] c He Hc IH]; simpl.
  - repeat constructor. exact Hu.
  - destruct (String.eqb k' k); constructor; auto.
Qed.

(** X7.  The cache only ever holds URLs with a true truth value, and so
    [get_direct_stream_url] returns [None] or such a URL: from a cache of
    truthy URLs, a call leaves a cache of truthy URLs, and what it returns
    is truthy. *)
Theorem cached_urls_are_truthy (w : world) (query : string) (s : server) :
  all_truthy (stream_cache s) ->
  all_truthy (stream_cache (snd (get_direct_stream_url w query s))) /\
  (forall u, fst (get_direct_stream_url w query s) = Some u ->
             truthy u = true).
Proof.
  intros Hall. unfold get_direct_stream_url.
  assert (Hc : all_truthy (cleanup_cache (clock_cleanup w) (stream_cache s))).
  { destruct (cleanup_cache_filter (clock_cleanup w) (stream_cache s)) as [p ->].
    now apply all_truthy_filter. }
  set (c := cleanup_cache (clock_cleanup w) (stream_cache s)) in *.
  destruct (lookup_cases (clock_lookup w) (cache_key query) c)
    as [(t & u & Hget & _ & ->)|[-> _]]; simpl.
  - split; [exact Hc|]. intros u' [= <-].
    apply get_In in Hget. unfold all_truthy in Hc.
    rewrite Forall_forall in Hc. exact (Hc _ Hget).
  - destruct (resolve w query) as [u|] eqn:R; simpl.
    + apply resolve_truthy in R. split.
      * apply all_truthy_set; [exact R | now apply all_truthy_filter].
      * now intros u' [= <-].
    + split; [now apply all_truthy_filter | discriminate].
Qed.

Lemma cached_urls_are_truthy_witness :
  all_truthy
    (stream_cache (snd (get_direct_stream_url (at_time 3000) "new song"
                                              warm_server))).
Proof.
  refine (proj1 (cached_urls_are_truthy (at_time 3000) "new song" warm_server
                   _)).
  repeat constructor.
Defined.

(** *** A stored URL is found again *)

Lemma insert_by_time_snoc x s e :
  cache_time x <= cache_time e ->
  insert_by_time x (s ++ [e]) = insert_by_time x s ++ [e].
Proof.
  intros Hx. induction s as [|y s IH]; simpl.
  - apply Z.leb_le in Hx. now rewrite Hx.
  - destruct (cache_time x <=? cache_time y); [reflexivity|].
    now rewrite IH.
Qed.

(** The stable sort leaves a newest entry that comes last where it is. *)
Lemma sorted_by_time_snoc c e :
  none_after (cache_time e) c ->
  sorted_by_time (c ++ [e]) = sorted_by_time c ++ [e].
Proof.
  unfold none_after. induction 1 as [|x c Hx Hc IH]; simpl; [reflexivity|].
  rewrite IH. now apply insert_by_time_snoc.
Qed.

Lemma none_after_filter (p : entry -> bool) t c :
  none_after t c -> none_after t (filter p c).
Proof.
  unfold none_after. rewrite !Forall_forall. intros H e He.
  apply filter_In in He. now apply H.
Qed.

Lemma wf_snoc_notin (c : cache) e : wf (c ++ [e]) -> ~ In (key e) (keys c).
Proof.
  unfold wf, keys. rewrite map_app. simpl. intros Hnd Hin.
  apply (NoDup_app_disjoint _ _ Hnd (key e) Hin). now left.
Qed.

(** [cleanup_cache] never evicts a newest entry that comes last, as long
    as it is within the TTL. *)
Lemma cleanup_cache_keeps_newest now c e :
  wf (c ++ [e]) ->
  none_after (cache_time e) c ->
  unexpired now e = true ->
  get (key e) (cleanup_cache now (c ++ [e])) = Some (snd e).
Proof.
  intros Hwf Hnew Hfresh. unfold cleanup_cache.
  set (c2 := filter (unexpired now) c).
  assert (E : sweep now (c ++ [e]) = c2 ++ [e]).
  { rewrite sweep_unexpired by exact Hwf.
    rewrite filter_app. simpl. now rewrite Hfresh. }
  rewrite E.
  assert (Hwf2 : wf (c2 ++ [e])).
  { rewrite <- E. now apply wf_sweep. }
  assert (Hnew2 : none_after (cache_time e) c2) by now apply none_after_filter.
  assert (Hget : get (key e) (c2 ++ [e]) = Some (snd e)).
  { apply wf_get; [exact Hwf2|]. apply in_or_app. right. left.
    now destruct e. }
  unfold enforce_capacity.
  destruct (_ <? _)%nat; [|exact Hget].
  rewrite del_keys_filter.
  replace (Some (snd e))
    with (if negb (listed (keys_to_remove (c2 ++ [e])) (key e, snd e))
          then Some (snd e) else None).
  { exact (get_filter
             (fun e0 : entry => negb (listed (keys_to_remove (c2 ++ [e])) e0))
             (key e) (snd e) (c2 ++ [e]) Hwf2 Hget). }
  replace (listed (keys_to_remove (c2 ++ [e])) (key e, snd e)) with false;
    [reflexivity|].
  symmetry. apply not_true_is_false. intros Hl.
  apply listed_In in Hl. unfold keys_to_remove in Hl.
  rewrite sorted_by_time_snoc in Hl by exact Hnew2.
  rewrite firstn_app in Hl.
  rewrite length_app in Hl. cbn [List.length] in Hl.
  match type of Hl with
  | context [firstn ?n [e]] =>
      replace n with O in Hl by (unfold MAX_CACHE_SIZE; lia)
  end.
  cbn [firstn] in Hl. rewrite app_nil_r in Hl.
  apply (wf_snoc_notin c2 e Hwf2).
  unfold keys in *. apply in_map_iff in Hl as [e' [He' Hin]].
  apply in_map_iff. exists e'. split; [exact He'|].
  eapply Permutation_in; [apply sorted_by_time_perm|].
  rewrite <- (firstn_skipn
                (List.length (sorted_by_time c2) + 1 - MAX_CACHE_SIZE)
                (sorted_by_time c2)).
  apply in_or_app. left. exact Hin.
Qed.

(** A call that finds a live entry. *)
Lemma live_entry_is_returned w query s t u :
  get (cache_key query) (cleanup_cache (clock_cleanup w) (stream_cache s))
  = Some (t, u) ->
  clock_lookup w - t < 1800 ->
  get_direct_stream_url w query s
  = (Some u,
     count_cache w true
       {| stream_cache := cleanup_cache (clock_cleanup w) (stream_cache s);
          SERVER_STATS := SERVER_STATS s |}).
Proof.
  intros Hget Hlive. unfold get_direct_stream_url, lookup. rewrite Hget.
  apply Z.ltb_lt in Hlive. unfold CACHE_DURATION. now rewrite Hlive.
Qed.

(** The core of the round trip, for any server that holds the cache the
    first call left. *)
Lemma stored_entry_hit (w1 w2 : world) (q1 q2 : string) (s0 s1 : server)
    (u : json) :
  wf (stream_cache s0) ->
  none_after (clock_store w1) (stream_cache s0) ->
  live_hit w1 q1 s0 = false ->
  resolve w1 q1 = Some u ->
  stream_cache s1 = stream_cache (snd (get_direct_stream_url w1 q1 s0)) ->
  cache_key q2 = cache_key q1 ->
  clock_cleanup w2 - clock_store w1 <= 1800 ->
  clock_lookup w2 - clock_store w1 < 1800 ->
  get_direct_stream_url w2 q2 s1
  = (Some u,
     count_cache w2 true
       {| stream_cache := cleanup_cache (clock_cleanup w2) (stream_cache s1);
          SERVER_STATS := SERVER_STATS s1 |}).
Proof.
  intros Hwf Hafter Hmiss Hres Hsame Hkey Hc2 Hl2.
  set (k := cache_key q1) in *.
  set (c := cleanup_cache (clock_cleanup w1) (stream_cache s0)) in *.
  set (e := (k, (clock_store w1, u)) : entry).
  assert (Hs1 : stream_cache s1 = del k c ++ [e]).
  { rewrite Hsame. unfold get_direct_stream_url. fold k. fold c.
    destruct (lookup_cases (clock_lookup w1) k c)
      as [(t & u' & Hget & Hlive & _)|[-> Hgone]].
    - exfalso. unfold live_hit in Hmiss. fold k in Hmiss. fold c in Hmiss.
      rewrite Hget in Hmiss. apply Z.ltb_lt in Hlive. congruence.
    - rewrite Hres. simpl. now apply set_absent. }
  assert (Hwf1 : wf (del k c ++ [e])).
  { rewrite <- Hs1, Hsame. now apply wf_get_direct_stream_url. }
  assert (Hnew : none_after (cache_time e) (del k c)).
  { apply none_after_filter. unfold c.
    destruct (cleanup_cache_filter (clock_cleanup w1) (stream_cache s0))
      as [p ->].
    now apply none_after_filter. }
  assert (Hfresh : unexpired (clock_cleanup w2) e = true).
  { unfold unexpired. apply Z.leb_le. exact Hc2. }
  pose proof (cleanup_cache_keeps_newest (clock_cleanup w2) (del k c) e
                Hwf1 Hnew Hfresh) as Hget.
  apply (live_entry_is_returned w2 q2 s1 (clock_store w1) u); [|exact Hl2].
  rewrite Hkey, Hs1. exact Hget.
Qed.

(** X8.  A URL that a call has just resolved and stored is served from
    the cache by the next call for the same key, as long as that call
    comes within the TTL and the clock has not run backwards: whatever
    the search, the extractor and the fallback instances would answer
    now, the call returns the stored URL, counts one cache hit and only
    trims the cache.  The key is the same for queries that differ in case
    or in outer blanks. *)
Theorem resolved_url_is_served_from_cache
    (w1 w2 : world) (q1 q2 : string) (s0 : server) (u : json) :
  wf (stream_cache s0) ->
  none_after (clock_store w1) (stream_cache s0) ->
  live_hit w1 q1 s0 = false ->
  resolve w1 q1 = Some u ->
  cache_key q2 = cache_key q1 ->
  clock_cleanup w2 - clock_store w1 <= 1800 ->
  clock_lookup w2 - clock_store w1 < 1800 ->
  let s1 := snd (get_direct_stream_url w1 q1 s0) in
  let r2 := get_direct_stream_url w2 q2 s1 in
  fst r2 = Some u /\
  stream_cache (snd r2) = cleanup_cache (clock_cleanup w2) (stream_cache s1) /\
  Stats.cache_hits (SERVER_STATS (snd r2))
  = Stats.cache_hits (SERVER_STATS s1) + 1.
Proof.
  intros Hwf Hafter Hmiss Hres Hkey Hc2 Hl2 s1 r2.
  unfold r2.
  rewrite (stored_entry_hit w1 w2 q1 q2 s0 s1 u Hwf Hafter Hmiss Hres eq_refl
             Hkey Hc2 Hl2).
  simpl. repeat split; lia.
Qed.

Lemma resolved_url_is_served_from_cache_witness :
  fst (get_direct_stream_url (silent_at 4000) "  NEW Song"
         (snd (get_direct_stream_url (at_time 3000) "new song" warm_server)))
  = Some (JStr "https://new/b.m4a").
Proof.
  refine (proj1 (resolved_url_is_served_from_cache
                   (at_time 3000) (silent_at 4000) "new song" "  NEW Song"
                   warm_server (JStr "https://new/b.m4a") _ _ _ _ _ _ _)).
  - apply distinct_wf. reflexivity.
  - unfold none_after, warm_server, three_entries; simpl.
    repeat (apply Forall_cons; [apply Z.leb_le; reflexivity|]).
    apply Forall_nil.
  - reflexivity.
  - reflexivity.
  - reflexivity.
  - simpl. lia.
  - simpl. lia.
Defined.

(** *** Stages that are skipped *)

Lemma resolve_with_fallback w query link sh post :
  source_link w query = Some link ->
  truthy_opt (Extractor.get_best_audio_url_ytdlp w link) = true ->
  resolve (with_fallback sh post w) query = resolve w query /\
  resolve w query = Extractor.get_best_audio_url_ytdlp w link.
Proof.
  unfold source_link, resolve. intros Hlink Hok.
  change (Resolver.search_with_ytmusic (with_fallback sh post w) query)
    with (Resolver.search_with_ytmusic w query).
  rewrite Hlink.
  change (Extractor.get_best_audio_url_ytdlp (with_fallback sh post w) link)
    with (Extractor.get_best_audio_url_ytdlp w link).
  now rewrite !Hok.
Qed.

(** X9.  When the primary extractor gives a usable URL for the source
    link, the fallback instances play no part: with any other shuffle and
    any other answers of the instances the call returns the same result
    and leaves the same state, and on a cache miss that result is the URL
    of the primary extractor. *)
Theorem primary_success_skips_fallback (w : world) (query link : string)
    (s : server) (sh : list string -> list string)
    (post : string -> string -> http_outcome) :
  source_link w query = Some link ->
  truthy_opt (Extractor.get_best_audio_url_ytdlp w link) = true ->
  get_direct_stream_url (with_fallback sh post w) query s
  = get_direct_stream_url w query s /\
  (live_hit w query s = false ->
   fst (get_direct_stream_url w query s)
   = Extractor.get_best_audio_url_ytdlp w link).
Proof.
  intros Hlink Hok.
  destruct (resolve_with_fallback w query link sh post Hlink Hok) as [E1 E2].
  split.
  - unfold get_direct_stream_url. rewrite E1. reflexivity.
  - unfold live_hit, get_direct_stream_url, lookup.
    destruct (get _ _) as [[t u]|].
    + intros ->. rewrite E2.
      destruct (Extractor.get_best_audio_url_ytdlp w link); [reflexivity|].
      discriminate.
    + intros _. rewrite E2.
      destruct (Extractor.get_best_audio_url_ytdlp w link); [reflexivity|].
      discriminate.
Qed.

Lemma primary_success_skips_fallback_witness :
  get_direct_stream_url
    (with_fallback (@rev string)
       (fun _ _ => Response 200 (Some (JObj [("url", JStr "https://other")])))
       (at_time 3000))
    "new song" warm_server
  = get_direct_stream_url (at_time 3000) "new song" warm_server.
Proof.
  refine (proj1 (primary_success_skips_fallback (at_time 3000) "new song"
                   "https://www.youtube.com/watch?v=abc123" warm_server
                   _ _ _ _)); reflexivity.
Defined.

Lemma try_instances_ext w w' url instances :
  (forall i, cobalt_post w i url = cobalt_post w' i url) ->
  Extractor.try_instances w url instances
  = Extractor.try_instances w' url instances.
Proof.
  intros H. induction instances as [|i rest IH]; simpl; [reflexivity|].
  now rewrite H, IH.
Qed.

(** X10.  A query that starts with [http://] or [https://] is never
    searched: with any other search client, available or not, the call
    returns the same result and leaves the same state. *)
Theorem direct_link_skips_search (w : world) (query : string) (s : server)
    (ready : bool) (search : string -> string -> search_outcome) :
  is_link query = true ->
  get_direct_stream_url (with_client ready search w) query s
  = get_direct_stream_url w query s.
Proof.
  intros Hlink. unfold get_direct_stream_url.
  assert (E : resolve (with_client ready search w) query = resolve w query).
  { unfold resolve. rewrite Hlink.
    change (Extractor.get_best_audio_url_ytdlp (with_client ready search w) query)
      with (Extractor.get_best_audio_url_ytdlp w query).
    unfold Extractor.get_audio_stream_from_cobalt_fallback.
    rewrite (try_instances_ext (with_client ready search w) w); reflexivity. }
  rewrite E. reflexivity.
Qed.

Lemma direct_link_skips_search_witness :
  get_direct_stream_url
    (with_client false (fun _ _ => SearchRaises) (at_time 3000))
    "https://youtu.be/new" warm_server
  = get_direct_stream_url (at_time 3000) "https://youtu.be/new" warm_server.
Proof.
  apply (direct_link_skips_search (at_time 3000) "https://youtu.be/new").
  reflexivity.
Defined.

End ResolutionMore.

(** ** More on the extractor chain *)

Module ExtractorMore.
Import Extractor ExtractorFacts ExtractorSpec Spec Scenarios.

Lemma nonempty_iff s : PyStr.nonempty s = true <-> s <> "".
Proof. destruct s; simpl; split; congruence. Qed.

Lemma first_audio_only_cons fmt rest :
  first_audio_only (fmt :: rest) =
  match takes fmt with
  | Some u => Some u
  | None => first_audio_only rest
  end.
Proof.
  unfold takes. simpl. destruct (_ && _); [|reflexivity].
  destruct (format_url fmt) as [u|]; [|reflexivity].
  now destruct (PyStr.nonempty u).
Qed.

(** The test of the loop agrees with its description. *)
Lemma takes_offers fmt u : takes fmt = Some u <-> offers fmt u.
Proof.
  unfold takes, offers, audio_only.
  destruct (acodec fmt) as [a|]; destruct (vcodec fmt) as [v|];
    destruct (format_url fmt) as [x|]; simpl;
    try (destruct (String.eqb a "none") eqn:Ea;
         [apply String.eqb_eq in Ea | apply String.eqb_neq in Ea]);
    try (destruct (String.eqb v "none") eqn:Ev;
         [apply String.eqb_eq in Ev | apply String.eqb_neq in Ev]);
    try (destruct (PyStr.nonempty x) eqn:Ex;
         [apply nonempty_iff in Ex
         | apply not_true_iff_false in Ex; rewrite nonempty_iff in Ex]);
    simpl; subst;
    (split;
     [ intros H; try discriminate; injection H as <-;
       repeat split; congruence
     | intros ((H1 & H2) & H3 & H4);
       try congruence; try (injection H3 as <-; tauto) ]).
Qed.

Lemma first_audio_only_spec formats :
  match first_audio_only formats with
  | Some u =>
      exists pre fmt post,
        formats = pre ++ fmt :: post /\ offers fmt u /\
        Forall (fun f => forall u', ~ offers f u') pre
  | None => Forall (fun f => forall u', ~ offers f u') formats
  end.
Proof.
  induction formats as [|fmt rest IH]; [constructor|].
  rewrite first_audio_only_cons.
  destruct (takes fmt) as [u|] eqn:T.
  - apply takes_offers in T. exists [], fmt, rest. auto.
  - assert (Hno : forall u', ~ offers fmt u').
    { intros u' H. apply takes_offers in H. congruence. }
    destruct (first_audio_only rest) as [u|].
    + destruct IH as (pre & f & post & -> & Hf & Hpre).
      exists (fmt :: pre), f, post. auto.
    + now constructor.
Qed.

(** X11.  [get_best_audio_url_ytdlp]: an extraction that raises gives
    [None]; a top-level [url] is returned as it is, before any format is
    looked at; otherwise the result is the URL of the first listed format
    that has an audio codec, no video and a URL that is not empty, and
    [None] exactly when no listed format is like that.  A format with
    video is never chosen. *)
Theorem ytdlp_picks_first_audio_only (w : world) (youtube_url : string) :
  (extract_info w youtube_url = ExtractRaises ->
   get_best_audio_url_ytdlp w youtube_url = None) /\
  (forall u formats,
     extract_info w youtube_url = ExtractInfo (Some u) formats ->
     get_best_audio_url_ytdlp w youtube_url = Some (JStr u)) /\
  (forall formats,
     extract_info w youtube_url = ExtractInfo None formats ->
     (forall v, get_best_audio_url_ytdlp w youtube_url = Some v ->
        exists pre fmt post u,
          formats = pre ++ fmt :: post /\ v = JStr u /\ offers fmt u /\
          Forall (fun f => forall u', ~ offers f u') pre) /\
     (get_best_audio_url_ytdlp w youtube_url = None <->
      Forall (fun f => forall u', ~ offers f u') formats)).
Proof.
  unfold get_best_audio_url_ytdlp. split; [|split].
  - now intros ->.
  - now intros u formats ->.
  - intros formats ->.
    pose proof (first_audio_only_spec formats) as S.
    destruct (first_audio_only formats) as [u|]; simpl.
    + destruct S as (pre & fmt & post & E & Hf & Hpre). split.
      * intros v [= <-]. exists pre, fmt, post, u. auto.
      * split; [discriminate|]. intros Hall. exfalso. subst formats.
        rewrite Forall_forall in Hall.
        apply (Hall fmt (in_elt fmt pre post) u Hf).
    + split; [discriminate|]. split; auto.
Qed.

Example ytdlp_listing :
  get_best_audio_url_ytdlp listing "https://www.youtube.com/watch?v=x"
  = Some (JStr "https://cdn/audio.m4a").
Proof. reflexivity. Qed.

Lemma try_instances_inv w url instances :
  match try_instances w url instances with
  | (Some v, contacted) =>
      exists before k after,
        instances = before ++ k :: after /\
        contacted = before ++ [k] /\
        Forall (fun i => accept (cobalt_post w i url) = None) before /\
        accept (cobalt_post w k url) = Some v
  | (None, contacted) =>
      contacted = instances /\
      Forall (fun i => accept (cobalt_post w i url) = None) instances
  end.
Proof.
  induction instances as [|i rest IH]; simpl; [auto|].
  destruct (accept (cobalt_post w i url)) as [v|] eqn:E.
  - exists [], i, rest. auto.
  - destruct (try_instances w url rest) as [[v|] contacted].
    + destruct IH as (before & k & after & -> & -> & Hb & Hk).
      exists (i :: before), k, after. auto.
    + destruct IH as [-> Hall]. auto.
Qed.

Lemma accept_sliceable r v : accept r = Some v -> sliceable v = true.
Proof.
  unfold accept, logged.
  destruct r as [| | |code [[| | | | |data]|]]; try discriminate;
    destruct (code =? 200); try discriminate.
  destruct (_ && _).
  - destruct (Dict.get "url" data) as [u|]; [|discriminate].
    destruct (sliceable u) eqn:E; congruence.
  - destruct (Dict.has "url" data).
    + destruct (Dict.get "url" data) as [u|]; [|discriminate].
      destruct (sliceable u) eqn:E; congruence.
    + destruct (Dict.has "audio" data); [|discriminate].
      destruct (Dict.get "audio" data) as [u|]; [|discriminate].
      destruct (sliceable u) eqn:E; congruence.
Qed.

(** X12.  Whatever the fallback returns is a JSON string or list that
    the last instance it contacted sent with status 200, in the [url]
    field of a JSON object or, without such a field, in its [audio]
    field; the instances contacted are an initial part of the shuffled
    list, and every one before the last was passed over.  An answer whose
    field holds a number, a boolean, [null] or an object is passed over
    like a failure. *)
Theorem fallback_result_origin (w : world) (youtube_url : string)
    (v : json) (contacted : list string) :
  get_audio_stream_from_cobalt_fallback w youtube_url = (Some v, contacted) ->
  sliceable v = true /\
  exists before k after data,
    shuffle w COBALT_INSTANCES = before ++ k :: after /\
    contacted = before ++ [k] /\
    Forall (fun i => accept (cobalt_post w i youtube_url) = None) before /\
    cobalt_post w k youtube_url = Response 200 (Some (JObj data)) /\
    (Dict.get "url" data = Some v \/
     Dict.get "url" data = None /\ Dict.get "audio" data = Some v).
Proof.
  unfold get_audio_stream_from_cobalt_fallback. intros H.
  pose proof (try_instances_inv w youtube_url (shuffle w COBALT_INSTANCES)) as I.
  rewrite H in I. destruct I as (before & k & after & E & -> & Hb & Hk).
  split; [eapply accept_sliceable, Hk|].
  destruct (accept_inv _ _ Hk) as (data & Hr & Hfield).
  exists before, k, after, data. auto.
Qed.

Lemma fallback_result_origin_witness :
  get_audio_stream_from_cobalt_fallback odd_answers
    "https://www.youtube.com/watch?v=x"
  = (Some (JStr "https://a/b.mp3"),
     ["https://co.wuk.sh"; "https://api.cobalt.best"; "https://cobalt.tools"])
  /\ sliceable (JStr "https://a/b.mp3") = true.
Proof.
  split; [reflexivity|].
  refine (proj1 (fallback_result_origin odd_answers
                   "https://www.youtube.com/watch?v=x" _ _ eq_refl)).
Defined.

End ExtractorMore.

(** ** More on the resolver *)

Module ResolverMore.
Import Resolver ResolverFacts Resolution Spec Scenarios CacheState.

Lemma first_video_id_nonempty results id :
  first_video_id results = Some id -> id <> "".
Proof.
  destruct results as [|r rs]; simpl; [discriminate|].
  destruct (videoId r) as [[|c x]|]; simpl; try discriminate.
  intros [= <-]. discriminate.
Qed.

(** X13.  [search_with_ytmusic] at its edges: without a search client it
    fails and searches nothing; when the song search raises it fails and
    the video search is not made; it never searches anything but songs
    and then videos; and every link it returns is the watch link of an
    identifier that is not empty, which the caller will treat as a direct
    link. *)
Theorem search_with_ytmusic_edges (w : world) (query : string) :
  (ytmusic_ready w = false -> search_with_ytmusic w query = (None, [])) /\
  (ytmusic_ready w = true ->
   ytmusic_search w query "songs" = SearchRaises ->
   search_with_ytmusic w query = (None, ["songs"])) /\
  (snd (search_with_ytmusic w query) = [] \/
   snd (search_with_ytmusic w query) = ["songs"] \/
   snd (search_with_ytmusic w query) = ["songs"; "videos"]) /\
  (forall link,
     fst (search_with_ytmusic w query) = Some link ->
     is_link link = true /\
     exists id, id <> "" /\ link = watch_link id).
Proof.
  unfold search_with_ytmusic. repeat split.
  - now intros ->.
  - now intros -> ->.
  - destruct (ytmusic_ready w); simpl; [|auto].
    destruct (ytmusic_search w query "songs") as [|rs]; [auto|].
    destruct (first_video_id rs); [auto|].
    destruct (ytmusic_search w query "videos") as [|vs]; [auto|].
    destruct (first_video_id vs); auto.
  - destruct (ytmusic_ready w); simpl in *; [|discriminate].
    destruct (ytmusic_search w query "songs") as [|rs]; [discriminate|].
    destruct (first_video_id rs) as [id|] eqn:E1; simpl in *.
    + injection H as <-. reflexivity.
    + destruct (ytmusic_search w query "videos") as [|vs]; [discriminate|].
      destruct (first_video_id vs) as [id|] eqn:E2; simpl in *;
        [|discriminate].
      injection H as <-. reflexivity.
  - destruct (ytmusic_ready w); simpl in *; [|discriminate].
    destruct (ytmusic_search w query "songs") as [|rs]; [discriminate|].
    destruct (first_video_id rs) as [id|] eqn:E1; simpl in *.
    + injection H as <-. exists id. split; [|reflexivity].
      eapply first_video_id_nonempty, E1.
    + destruct (ytmusic_search w query "videos") as [|vs]; [discriminate|].
      destruct (first_video_id vs) as [id|] eqn:E2; simpl in *;
        [|discriminate].
      injection H as <-. exists id. split; [|reflexivity].
      eapply first_video_id_nonempty, E2.
Qed.

End ResolverMore.

(** ** More on the request handlers *)

Module EndpointMore.
Import PyStr PyStrFacts Dict Cache Resolution ResolutionFacts ResolutionMore.
Import Endpoints EndpointFacts HandlerSpec CacheState StatsLog Spec Scenarios.
Import CacheMore.







Example blank_parameter_run :
  status (fst (stream_pcm (at_time 5000)
                 {| args := [("song", "  "); ("singer", "Adele")];
                    host := "10.0.0.2:5000" |} fresh_server)) = 400.
Proof. reflexivity. Qed.

(** [get_direct_stream_url] leaves the stream counters alone. *)
Lemma stream_counters_untouched w query s :
  let s' := snd (get_direct_stream_url w query s) in
  Stats.successful_streams (SERVER_STATS s')
  = Stats.successful_streams (SERVER_STATS s) /\
  Stats.failed_streams (SERVER_STATS s')
  = Stats.failed_streams (SERVER_STATS s).
Proof.
  cbv zeta. unfold get_direct_stream_url.
  destruct (lookup _ _ _) as [[u|] c]; simpl; [auto|].
  destruct (resolve w query); simpl; auto.
Qed.

(** X15.  [/stream], [/stream_pcm] and [/esp32_stream] answer with
    status 200, 400 or 404 and nothing else, and the stream counters
    follow the status: [successful_streams] grows by one exactly with a
    200, [failed_streams] by one exactly with a 404. *)
Theorem status_and_stream_counters (w : world) (req : request) (s : server) :
  counted (status (fst (stream_music w req s))) (SERVER_STATS s)
          (SERVER_STATS (snd (stream_music w req s))) /\
  counted (status (fst (stream_pcm w req s))) (SERVER_STATS s)
          (SERVER_STATS (snd (stream_pcm w req s))) /\
  counted (status (fst (esp32_stream w req s))) (SERVER_STATS s)
          (SERVER_STATS (snd (esp32_stream w req s))).
Proof.
  unfold stream_music, stream_pcm, esp32_stream, counted.
  destruct (negb (nonempty (strip (arg "q" req))));
    destruct (negb (nonempty (strip (arg "song" req)))); simpl;
    repeat match goal with
    | |- context [get_direct_stream_url w ?q s] =>
        let H := fresh "H" in
        pose proof (stream_counters_untouched w q s) as H; cbv zeta in H;
        destruct (get_direct_stream_url w q s) as [[?u|] ?s]; simpl in H;
        destruct H
    end;
    repeat match goal with |- context [truthy ?u] => destruct (truthy u) end;
    repeat match goal with
    | |- context [get_video_info ?w ?u] => destruct (get_video_info w u)
    end;
    simpl; unfold indicator; simpl; repeat split; auto; lia.
Qed.

Lemma miss_returns_resolution w query s :
  live_hit w query s = false ->
  fst (get_direct_stream_url w query s) = resolve w query.
Proof.
  unfold live_hit, get_direct_stream_url, lookup.
  destruct (get _ _) as [[t u]|].
  - intros ->. now destruct (resolve w query).
  - intros _. now destruct (resolve w query).
Qed.

Lemma total_requests_after_call w query s :
  Stats.total_requests (SERVER_STATS (snd (get_direct_stream_url w query s)))
  = Stats.total_requests (SERVER_STATS s)
    + (if live_hit w query s then 1
       else match resolve w query with Some _ => 0 | None => 1 end).
Proof.
  unfold live_hit, get_direct_stream_url, lookup.
  destruct (get _ _) as [[t u]|].
  - destruct (clock_lookup w - t <? CACHE_DURATION); simpl; [lia|].
    destruct (resolve w query); simpl; lia.
  - destruct (resolve w query); simpl; lia.
Qed.

Lemma miss_is_truthy_or_none w query s :
  live_hit w query s = false ->
  match fst (get_direct_stream_url w query s) with
  | Some u => truthy u = true /\ resolve w query = Some u
  | None => resolve w query = None
  end.
Proof.
  intros Hmiss. rewrite (miss_returns_resolution w query s Hmiss).
  destruct (resolve w query) as [u|] eqn:R; [|reflexivity].
  split; [eapply resolve_truthy, R | reflexivity].
Qed.

(** X23.  [total_requests] counts calls of [update_stats], not requests:
    a request to [/stream], [/stream_pcm] or [/esp32_stream] adds nothing
    when it is rejected with 400, one when it is answered 200 after a
    fresh resolution, and two otherwise (a 200 served from the cache, and
    every 404). *)
Theorem total_requests_per_request (w : world) (req : request) (s : server) :
  let total (x : response * server) :=
    Stats.total_requests (SERVER_STATS (snd x)) in
  let song := strip (arg "song" req) in
  let singer := strip (arg "singer" req) in
  total (stream_music w req s)
  = Stats.total_requests (SERVER_STATS s)
    + stats_calls (status (fst (stream_music w req s)))
                  (live_hit w (strip (arg "q" req)) s) /\
  total (stream_pcm w req s)
  = Stats.total_requests (SERVER_STATS s)
    + stats_calls (status (fst (stream_pcm w req s)))
                  (live_hit w (stream_pcm_query song singer) s) /\
  total (esp32_stream w req s)
  = Stats.total_requests (SERVER_STATS s)
    + stats_calls (status (fst (esp32_stream w req s)))
                  (live_hit w (esp32_stream_query song singer) s).
Proof.
  cbv zeta. unfold stream_music, stream_pcm, esp32_stream, stats_calls.
  destruct (negb (nonempty (strip (arg "q" req))));
    destruct (negb (nonempty (strip (arg "song" req)))); simpl;
    repeat match goal with
    | |- context [get_direct_stream_url w ?q s] =>
        let H := fresh "H" in
        let M := fresh "M" in
        pose proof (total_requests_after_call w q s) as H;
        pose proof (miss_is_truthy_or_none w q s) as M;
        destruct (live_hit w q s);
        destruct (get_direct_stream_url w q s) as [[?u|] ?s]; simpl in H, M
    end;
    repeat match goal with
    | M : false = false -> _ |- _ => specialize (M eq_refl)
    | M : _ /\ _ |- _ => destruct M
    | M : resolve _ _ = _ |- _ => rewrite M in *
    end;
    repeat match goal with
    | H : truthy ?u = true |- _ => rewrite H in *
    end;
    repeat match goal with |- context [truthy ?u] => destruct (truthy u) end;
    repeat match goal with
    | |- context [get_video_info ?w ?u] => destruct (get_video_info w u)
    end;
    simpl; repeat split; lia.
Qed.

Lemma stream_pcm_ok w req s :
  status (fst (stream_pcm w req s)) = 200 ->
  let query := stream_pcm_query (strip (arg "song" req))
                                (strip (arg "singer" req)) in
  nonempty (strip (arg "song" req)) = true /\
  (exists u, fst (get_direct_stream_url w query s) = Some u) /\
  stream_cache (snd (stream_pcm w req s))
  = stream_cache (snd (get_direct_stream_url w query s)).
Proof.
  unfold stream_pcm.
  destruct (nonempty (strip (arg "song" req))); simpl; [|discriminate].
  destruct (get_direct_stream_url w _ s) as [[u|] s']; simpl; [|discriminate].
  destruct (truthy u); simpl; [|discriminate].
  destruct (get_video_info w u). simpl. eauto.
Qed.

(** X16.  The link that [/stream_pcm] hands out works: after a
    [/stream_pcm] request that resolved its query afresh and answered
    200, an [/esp32_stream] request with the same [song] and [singer]
    that comes within the TTL (the clock not having run backwards) is
    answered 200 from the cache, without any new resolution, and its
    ffmpeg command reads the URL that [/stream_pcm] resolved. *)
Theorem esp32_stream_follows_stream_pcm (w1 w2 : world) (req : request)
    (s0 : server) :
  let query := stream_pcm_query (strip (arg "song" req))
                                (strip (arg "singer" req)) in
  wf (stream_cache s0) ->
  none_after (clock_store w1) (stream_cache s0) ->
  live_hit w1 query s0 = false ->
  status (fst (stream_pcm w1 req s0)) = 200 ->
  clock_cleanup w2 - clock_store w1 <= 1800 ->
  clock_lookup w2 - clock_store w1 < 1800 ->
  exists u,
    resolve w1 query = Some u /\
    fst (esp32_stream w2 req (snd (stream_pcm w1 req s0)))
    = {| status := 200;
         payload := Audio (esp32_ffmpeg_cmd u) Transcode.esp32_generate |} /\
    cmd_option "-i" (esp32_ffmpeg_cmd u) = Some u.
Proof.
  intros query Hwf Hafter Hmiss Hok Hc2 Hl2.
  destruct (stream_pcm_ok w1 req s0 Hok) as (Hsong & [u Hu] & Hcache).
  fold query in Hu, Hcache.
  rewrite (miss_returns_resolution w1 query s0 Hmiss) in Hu.
  exists u. split; [exact Hu|]. split; [|reflexivity].
  unfold esp32_stream. rewrite Hsong. simpl negb. cbv iota.
  change (esp32_stream_query (strip (arg "song" req)) (strip (arg "singer" req)))
    with query.
  rewrite (stored_entry_hit w1 w2 query query s0 (snd (stream_pcm w1 req s0)) u
             Hwf Hafter Hmiss Hu Hcache eq_refl Hc2 Hl2).
  rewrite (resolve_truthy w1 query u Hu). reflexivity.
Qed.

Lemma esp32_stream_follows_stream_pcm_witness :
  exists u,
    resolve (at_time 3000) "New Song" = Some u /\
    fst (esp32_stream (silent_at 4000) padded_request
           (snd (stream_pcm (at_time 3000) padded_request warm_server)))
    = {| status := 200;
         payload := Audio (esp32_ffmpeg_cmd u) Transcode.esp32_generate |} /\
    cmd_option "-i" (esp32_ffmpeg_cmd u) = Some u.
Proof.
  refine (esp32_stream_follows_stream_pcm (at_time 3000) (silent_at 4000)
            padded_request warm_server _ _ _ _ _ _).
  - apply distinct_wf. reflexivity.
  - unfold none_after, warm_server, CacheChecked.three_entries; simpl.
    repeat (apply Forall_cons; [apply Z.leb_le; reflexivity|]).
    apply Forall_nil.
  - reflexivity.
  - reflexivity.
  - simpl. lia.
  - simpl. lia.
Defined.

Lemma stream_pcm_fields w req s u :
  status (fst (stream_pcm w req s)) = 200 ->
  fst (get_direct_stream_url w
         (stream_pcm_query (strip (arg "song" req)) (strip (arg "singer" req)))
         s) = Some u ->
  field "title" (fst (stream_pcm w req s))
  = Some (JStr (fst (get_video_info w u))) /\
  field "artist" (fst (stream_pcm w req s))
  = Some (JStr (if nonempty (strip (arg "singer" req))
                   && String.eqb (snd (get_video_info w u)) "Unknown"
                then strip (arg "singer" req)
                else snd (get_video_info w u))).
Proof.
  unfold stream_pcm.
  destruct (nonempty (strip (arg "song" req))); simpl; [|discriminate].
  destruct (get_direct_stream_url w _ s) as [[u'|] s']; simpl; [|discriminate].
  destruct (truthy u'); simpl; [|discriminate].
  intros _ [= ->]. destruct (get_video_info w u) as [t a]. simpl.
  split; reflexivity.
Qed.

(** X24.  The metadata of a successful [/stream_pcm] answer.  When the
    information about the resolved URL cannot be extracted, the title is
    "Unknown" (not the requested song) and the artist is the [singer]
    parameter, or "Unknown" without one; and whenever a singer other than
    "Unknown" is given, the artist is never "Unknown". *)
Theorem stream_pcm_metadata (w : world) (req : request) (s : server)
    (u : json) :
  let singer := strip (arg "singer" req) in
  let r := fst (stream_pcm w req s) in
  status r = 200 ->
  fst (get_direct_stream_url w
         (stream_pcm_query (strip (arg "song" req)) singer) s) = Some u ->
  (video_info w u = InfoRaises ->
   field "title" r = Some (JStr "Unknown") /\
   field "artist" r
   = Some (JStr (if nonempty singer then singer else "Unknown"))) /\
  (singer <> "" -> singer <> "Unknown" ->
   field "artist" r <> Some (JStr "Unknown")).
Proof.
  intros singer r Hok Hu.
  destruct (stream_pcm_fields w req s u Hok Hu) as [Ht Ha].
  fold r in Ht, Ha. fold singer in Ha. rewrite Ht, Ha. split.
  - intros Hraise. unfold get_video_info. rewrite Hraise. simpl.
    split; [reflexivity|]. now destruct (nonempty singer).
  - intros Hs Hne. apply QueryFacts.nonempty_true in Hs. rewrite Hs. simpl.
    destruct (String.eqb (snd (get_video_info w u)) "Unknown") eqn:E.
    + congruence.
    + apply String.eqb_neq in E. congruence.
Qed.

Lemma stream_pcm_metadata_witness :
  field "title" (fst (stream_pcm (at_time 3000) padded_request warm_server))
  = Some (JStr "Unknown") /\
  field "artist" (fst (stream_pcm (at_time 3000) padded_request warm_server))
  = Some (JStr "YouTube").
Proof.
  refine (proj1 (stream_pcm_metadata (at_time 3000) padded_request warm_server
                   (JStr "https://new/b.m4a") _ _) _); reflexivity.
Defined.

End EndpointMore.

(** ** More on the streaming loops *)

Module TranscodeMore.
Import Download Transcode TranscodeFacts Spec Scenarios.



Lemma read_done n p :
  pipe p = [] -> pending p = [] -> fst (read n p) = [].
Proof.
  intros H1 H2. unfold read. rewrite H1, H2. simpl.
  destruct n; simpl; reflexivity.
Qed.










End TranscodeMore.

(** *** The loop of [/download] and the standard error nobody reads *)

Module DownloadFacts.
Import Download.

Lemma fill_eq capacity n buf held coming :
  fill capacity n buf held coming =
  if (n <=? List.length buf)%nat
  then Some {| stdout := buf; stderr := held; pending := coming |}
  else
    match coming with
    | [] => Some {| stdout := buf; stderr := held; pending := [] |}
    | Stdout w :: rest => fill capacity n (buf ++ w) held rest
    | Stderr k :: rest =>
        if fits capacity held k then fill capacity n buf (held + k) rest
        else None
    end.
Proof. destruct coming; reflexivity. Qed.

Lemma reach_stdout capacity held w rest :
  reach capacity held (Stdout w :: rest)
  = (w ++ fst (reach capacity held rest), snd (reach capacity held rest)).
Proof. simpl. now destruct (reach capacity held rest). Qed.

Lemma reach_stderr capacity held k rest :
  reach capacity held (Stderr k :: rest)
  = if fits capacity held k then reach capacity (held + k) rest
    else ([], false).
Proof. reflexivity. Qed.

(** The subprocess gets to its end exactly when all it writes to its
    standard error fits in the pipe. *)
Lemma completes_total capacity p :
  (stderr p <= capacity)%nat ->
  completes capacity p
  = (stderr p + stderr_total (pending p) <=? capacity)%nat.
Proof.
  unfold completes. destruct p as [out held coming]. simpl. clear out.
  revert held. induction coming as [|[w|k] rest IH]; intros held Hheld.
  - simpl. rewrite Nat.add_0_r. symmetry. now apply Nat.leb_le.
  - rewrite reach_stdout. simpl. now apply IH.
  - rewrite reach_stderr. cbn [stderr_total]. unfold fits.
    destruct (held + k <=? capacity)%nat eqn:E.
    + apply Nat.leb_le in E. rewrite IH by exact E.
      now rewrite Nat.add_assoc.
    + apply Nat.leb_gt in E. simpl. symmetry. apply Nat.leb_gt. lia.
Qed.

Lemma advance_same capacity p :
  output capacity (advance capacity p) = output capacity p /\
  completes capacity (advance capacity p) = completes capacity p.
Proof.
  unfold output, completes, advance.
  destruct p as [out held [|[w|k] rest]]; cbn [stdout stderr pending].
  - auto.
  - rewrite reach_stdout. cbn [fst snd]. now rewrite app_assoc.
  - rewrite reach_stderr. destruct (fits capacity held k) eqn:E;
      cbn [stdout stderr pending]; [auto|].
    rewrite reach_stderr, E. auto.
Qed.

Lemma run_for_same capacity k p :
  output capacity (run_for capacity k p) = output capacity p /\
  completes capacity (run_for capacity k p) = completes capacity p.
Proof.
  revert p. induction k as [|k IH]; intros p; simpl; [auto|].
  destruct (IH (advance capacity p)) as [-> ->]. apply advance_same.
Qed.

(** What a read waits for. *)
Lemma download_fill_spec capacity n coming :
  forall buf held,
    match fill capacity n buf held coming with
    | Some q =>
        buf ++ fst (reach capacity held coming) = output capacity q /\
        snd (reach capacity held coming) = completes capacity q /\
        ((List.length (stdout q) < n)%nat -> pending q = [])
    | None =>
        snd (reach capacity held coming) = false /\
        (List.length (buf ++ fst (reach capacity held coming)) < n)%nat
    end.
Proof.
  induction coming as [|[w|k] rest IH]; intros buf held; rewrite fill_eq;
    destruct (n <=? List.length buf)%nat eqn:E;
    try (apply Nat.leb_le in E;
         unfold output, completes; cbn [stdout stderr pending];
         repeat split; auto; intros; lia).
  - unfold output, completes; cbn [stdout stderr pending]. auto.
  - specialize (IH (buf ++ w) held). rewrite reach_stdout. cbn [fst snd].
    rewrite app_assoc. exact IH.
  - rewrite reach_stderr. destruct (fits capacity held k).
    + apply IH.
    + apply Nat.leb_gt in E. cbn [fst snd]. rewrite app_nil_r. auto.
Qed.

Lemma download_read_spec capacity n p :
  (0 < n)%nat ->
  match read capacity n p with
  | Some (data, p') =>
      output capacity p = data ++ output capacity p' /\
      completes capacity p = completes capacity p' /\
      (List.length data <= n)%nat /\
      ((List.length data < n)%nat ->
       output capacity p' = [] /\ completes capacity p = true)
  | None =>
      completes capacity p = false /\
      (List.length (output capacity p) < n)%nat
  end.
Proof.
  intros Hn. unfold read.
  pose proof (download_fill_spec capacity n (pending p) (stdout p) (stderr p)) as H.
  destruct (fill capacity n (stdout p) (stderr p) (pending p)) as [q|];
    [|exact H].
  destruct H as (Hout & Hdone & Hend).
  fold (output capacity p) in Hout. fold (completes capacity p) in Hdone.
  unfold output at 2. unfold completes at 2. cbn [stdout stderr pending].
  fold (completes capacity q). rewrite app_assoc, firstn_skipn.
  repeat split.
  - exact Hout.
  - exact Hdone.
  - rewrite length_firstn. lia.
  - rewrite length_firstn in H.
    assert (Hq : (List.length (stdout q) < n)%nat) by lia.
    rewrite (Hend Hq). rewrite skipn_all2 by lia. reflexivity.
  - rewrite length_firstn in H.
    assert (Hq : (List.length (stdout q) < n)%nat) by lia.
    rewrite Hdone. unfold completes. now rewrite (Hend Hq).
Qed.

Lemma download_loop_step capacity n fuel sched p :
  download_loop capacity n (S fuel) sched p =
  match read capacity n (run_for capacity (hd O sched) p) with
  | None => Some (Hangs [])
  | Some (data, p') =>
      match data with
      | [] => Some (Ends [])
      | _ => option_map (yield data)
                        (download_loop capacity n fuel (tl sched) p')
      end
  end.
Proof. reflexivity. Qed.

Lemma full_but_last_push n c chunks :
  c <> [] -> (List.length c = n \/ chunks = []) ->
  full_but_last n chunks -> full_but_last n (c :: chunks).
Proof.
  intros Hc Hlen [H1 H2]. split; [now constructor|].
  destruct chunks as [|d chunks]; [constructor|].
  destruct Hlen as [Hlen|]; [|discriminate].
  cbn [removelast] in *. now constructor.
Qed.

(** How every run of the loop goes. *)
Lemma download_loop_settles capacity n :
  (0 < n)%nat ->
  forall fuel sched p,
    (List.length (output capacity p) < fuel)%nat ->
    exists chunks rest,
      download_loop capacity n fuel sched p
      = Some (if completes capacity p then Ends chunks else Hangs chunks) /\
      output capacity p = List.concat chunks ++ rest /\
      (completes capacity p = true -> rest = []) /\
      (completes capacity p = false ->
       (List.length rest < n)%nat /\
       Forall (fun c => List.length c = n) chunks) /\
      full_but_last n chunks /\
      Forall (fun c => (List.length c <= n)%nat) chunks.
Proof.
  intros Hn. induction fuel as [|fuel IH]; intros sched p Hfuel; [lia|].
  rewrite download_loop_step.
  destruct (run_for_same capacity (hd O sched) p) as [Ho Hc].
  set (q := run_for capacity (hd O sched) p) in *.
  rewrite <- Ho, <- Hc. rewrite <- Ho in Hfuel. clearbody q. clear Ho Hc p.
  pose proof (download_read_spec capacity n q Hn) as H.
  destruct (read capacity n q) as [[data q']|].
  - destruct H as (Hout & Hdone & Hlen & Hshort).
    destruct data as [|b data].
    + destruct Hshort as [Hnil Htrue]; [simpl; lia|].
      exists [], []. rewrite Htrue, Hout, Hnil.
      repeat split; try constructor; congruence.
    + destruct (IH (tl sched) q') as (chunks & rest & Hrun & Hcat & Hall & Hhang & Hf & Hb).
      { rewrite Hout in Hfuel. rewrite length_app in Hfuel.
        cbn [List.length] in Hfuel. lia. }
      exists ((b :: data) :: chunks), rest. rewrite Hrun, Hdone.
      split; [now destruct (completes capacity q')|].
      split; [rewrite Hout, Hcat; simpl; now rewrite app_assoc|].
      split; [exact Hall|].
      assert (Hfull : List.length (b :: data) = n \/ chunks = []).
      { destruct (Nat.eq_dec (List.length (b :: data)) n) as [E|E];
          [now left | right].
        destruct Hshort as [Hnil _]; [lia|].
        rewrite Hnil in Hcat. destruct chunks as [|c chunks]; [reflexivity|].
        destruct Hf as [Hne _]. inversion Hne as [|? ? Hc0 _]; subst.
        destruct c; [congruence | discriminate]. }
      split; [|split].
      * intros Hfalse. destruct (Hhang Hfalse) as [Hr Hn'].
        split; [exact Hr|]. constructor; [|exact Hn'].
        destruct (Nat.eq_dec (List.length (b :: data)) n) as [E|E];
          [exact E|].
        destruct Hshort as [_ Htrue]; [lia|]. congruence.
      * apply full_but_last_push; [discriminate | exact Hfull | exact Hf].
      * constructor; [exact Hlen | exact Hb].
  - destruct H as [Hfalse Hlt]. rewrite Hfalse.
    exists [], (output capacity q).
    repeat split; try constructor; try congruence; auto.
Qed.

(** X19.  The subprocess of [/download] has its standard error on a pipe
    that the generator never reads.  When all that the subprocess writes
    there fits in the pipe, the loop ends and delivers every byte of its
    output, in order, in chunks of exactly 8192 bytes but for the last,
    which has between 1 and 8192.  When it does not fit, the subprocess
    stops at the write that overflows the pipe and the generator never
    returns: it yields full chunks of 8192 bytes, a beginning of what the
    subprocess wrote before, and then waits for ever in a read that holds
    fewer than 8192 bytes, which are never delivered.  This is so however
    the subprocess is scheduled. *)
Theorem download_generate_delivers (capacity : nat)
    (sched : Transcode.schedule) (p : process) :
  exists chunks rest,
    download_generate capacity (enough capacity p) sched p
    = Some (if completes capacity p then Ends chunks else Hangs chunks) /\
    output capacity p = List.concat chunks ++ rest /\
    (completes capacity p = true -> rest = []) /\
    (completes capacity p = false ->
     (List.length rest < Transcode.WEB_CHUNK)%nat /\
     Forall (fun c => List.length c = Transcode.WEB_CHUNK) chunks) /\
    full_but_last Transcode.WEB_CHUNK chunks /\
    Forall (fun c => (List.length c <= Transcode.WEB_CHUNK)%nat) chunks /\
    ((stderr p <= capacity)%nat ->
     completes capacity p
     = (stderr p + stderr_total (pending p) <=? capacity)%nat).
Proof.
  assert (Hn : (0 < Transcode.WEB_CHUNK)%nat)
    by (unfold Transcode.WEB_CHUNK; lia).
  destruct (download_loop_settles capacity Transcode.WEB_CHUNK Hn
              (enough capacity p) sched p)
    as (chunks & rest & Hrun & Hcat & Hall & Hhang & Hf & Hb).
  { unfold enough. lia. }
  exists chunks, rest. unfold download_generate.
  repeat (split; [assumption|]). apply completes_total.
Qed.

(** With the 65536 bytes that Linux gives a pipe: 300 bytes of messages
    do no harm. *)
Example download_two_writes :
  download_generate (Z.to_nat 65536)
    (enough (Z.to_nat 65536) two_writes) [] two_writes
  = Some (Ends [ repeat Byte.x41 (Z.to_nat 6000)
                 ++ repeat Byte.x42 (Z.to_nat 2192);
                 repeat Byte.x42 (Z.to_nat 1808) ]).
Proof. vm_compute. reflexivity. Qed.

(** 65537 bytes of messages after the first 9000 bytes of output: one
    chunk is delivered, 808 bytes stay in the pipe and the second half of
    the output is never written. *)
Example download_chatty :
  download_generate (Z.to_nat 65536)
    (enough (Z.to_nat 65536) (chatty (Z.to_nat 65536))) []
    (chatty (Z.to_nat 65536))
  = Some (Hangs [ repeat Byte.x41 Transcode.WEB_CHUNK ]) /\
  List.length (output (Z.to_nat 65536) (chatty (Z.to_nat 65536)))
  = Z.to_nat 9000.
Proof. vm_compute. split; reflexivity. Qed.

End DownloadFacts.

(** ** The log buffer *)

Module LogFacts.
Import Logs.

Lemma last_items_all {A} n (l : list A) :
  (List.length l <= n)%nat -> last_items n l = l.
Proof.
  intros H. unfold last_items.
  replace (List.length l - n)%nat with O by lia. reflexivity.
Qed.

Lemma last_items_length {A} n (l : list A) :
  List.length (last_items n l) = Nat.min n (List.length l).
Proof. unfold last_items. rewrite length_skipn. lia. Qed.

(** Dropping from the left twice. *)
Lemma last_items_snoc {A} n (l : list A) x :
  last_items n (last_items n l ++ [x]) = last_items n (l ++ [x]).
Proof.
  unfold last_items. rewrite !length_app, length_skipn. cbn [List.length].
  destruct (Nat.le_gt_cases (List.length l) n) as [Hle|Hgt].
  - replace (List.length l - n)%nat with O by lia.
    rewrite Nat.sub_0_r. reflexivity.
  - replace (List.length l - (List.length l - n) + 1 - n)%nat with 1%nat by lia.
    replace (List.length l + 1 - n)%nat
      with (1 + (List.length l - n))%nat by lia.
    rewrite <- skipn_skipn. f_equal.
    rewrite skipn_app.
    replace (List.length l - n - List.length l)%nat with O by lia.
    reflexivity.
Qed.

Lemma logged_last records :
  logged records = last_items MAXLEN (map entry_of records).
Proof.
  unfold logged.
  assert (G : forall done buffer,
             buffer = last_items MAXLEN (map entry_of done) ->
             fold_left (fun buffer e => emit (fst e) (snd e) buffer)
                       records buffer
             = last_items MAXLEN (map entry_of (done ++ records))).
  { induction records as [|e rest IH]; intros done buffer Hb; simpl.
    - now rewrite app_nil_r.
    - replace (done ++ e :: rest) with ((done ++ [e]) ++ rest)
        by (now rewrite <- app_assoc).
      apply IH. rewrite Hb, map_app. simpl.
      unfold emit, append. fold (entry_of e).
      apply (last_items_snoc MAXLEN (map entry_of done) (entry_of e)). }
  apply (G [] []). reflexivity.
Qed.

Lemma get_color_known lvl :
  In (get_color lvl) ["info"; "warning"; "error"; "debug"].
Proof.
  unfold get_color, colors. simpl.
  repeat (match goal with
          | |- context [if ?b then _ else _] => destruct b
          end; simpl; auto 6).
Qed.

(** X20.  [LOG_BUFFER] holds the last 200 entries that were logged, in
    the order they were logged, and never more than 200; the colour of
    every entry is one of the four classes of the dashboard, whatever the
    name of its level. *)
Theorem log_buffer_keeps_last_200 (records : list (string * log_record)) :
  logged records = last_items 200 (map entry_of records) /\
  (List.length (logged records) <= 200)%nat /\
  (List.length records <= 200 ->
   logged records = map entry_of records)%nat /\
  Forall (fun e => In (color e) ["info"; "warning"; "error"; "debug"])
         (logged records).
Proof.
  rewrite logged_last. unfold MAXLEN. repeat split.
  - rewrite last_items_length. lia.
  - intros H. apply last_items_all. now rewrite length_map.
  - apply Forall_forall. intros e He. unfold last_items in He.
    assert (Hin : In e (map entry_of records)).
    { rewrite <- (firstn_skipn (List.length (map entry_of records) - 200)).
      apply in_or_app. now right. }
    apply in_map_iff in Hin as [r [<- _]]. apply get_color_known.
Qed.

End LogFacts.

(** ** [/clear_cache] *)

Module AdminFacts.
Import Dict Cache Resolution Endpoints Admin Spec ResolutionMore.

(** X21.  [/clear_cache] empties the cache, leaves the counters alone and
    reports how many entries there were; after it no query is served from
    the cache: the next call of [get_direct_stream_url] returns what a
    fresh resolution gives. *)
Theorem clear_cache_forgets_everything (now : Z) (s : server) (w : world)
    (query : string) :
  let r := fst (clear_cache now s) in
  let s' := snd (clear_cache now s) in
  status r = 200 /\
  field "message" r
  = Some (JStr ("Đã xóa " ++ show_count (List.length (stream_cache s))
                ++ " mục cache")%string) /\
  field "cache_size" r = Some (JNum 0) /\
  stream_cache s' = [] /\
  SERVER_STATS s' = SERVER_STATS s /\
  live_hit w query s' = false /\
  fst (get_direct_stream_url w query s') = resolve w query.
Proof.
  cbv zeta. unfold clear_cache. simpl. repeat split.
  unfold get_direct_stream_url. simpl.
  now destruct (resolve w query).
Qed.

Example clear_cache_message :
  field "message" (fst (clear_cache 5000 Scenarios.one_entry))
  = Some (JStr "Đã xóa 1 mục cache").
Proof. reflexivity. Qed.

End AdminFacts.

(** ** The link in the answer of [/stream_pcm] *)

Module LinkFacts.
Import PyStr PyStrFacts Quote Unquote Resolution Endpoints EndpointFacts.
Import Scenarios CacheState HandlerSpec.

Lemma unquote_quote_char c rest :
  unquote (quote_char c ++ rest) = String c (unquote rest).
Proof. each_ascii c; reflexivity. Qed.

Lemma unquote_quote s : unquote (quote s) = s.
Proof.
  induction s as [|c s IH]; simpl; [reflexivity|].
  now rewrite unquote_quote_char, IH.
Qed.

Lemma quote_injective s t : quote s = quote t -> s = t.
Proof.
  intros H. rewrite <- (unquote_quote s), <- (unquote_quote t). now rewrite H.
Qed.

Lemma url_safe_app s t : url_safe (s ++ t) = url_safe s && url_safe t.
Proof.
  induction s as [|c s IH]; simpl; [reflexivity|].
  now rewrite IH, andb_assoc.
Qed.

Lemma url_safe_quote s : url_safe (quote s) = true.
Proof.
  induction s as [|c s IH]; simpl; [reflexivity|].
  rewrite url_safe_app, IH, andb_true_r. each_ascii c; reflexivity.
Qed.

Lemma url_safe_no_amp s : url_safe s = true -> no_amp s = true.
Proof.
  induction s as [|c s IH]; simpl; [reflexivity|].
  intros H. apply andb_true_iff in H as [Hc Hs]. rewrite (IH Hs), andb_true_r.
  revert Hc. each_ascii c; simpl; intros H; try reflexivity; discriminate H.
Qed.

Lemma append_cancel_l p x y : (p ++ x)%string = (p ++ y)%string -> x = y.
Proof.
  induction p as [|c p IH]; simpl; [auto|].
  intros [= H]. auto.
Qed.

(** A string without ampersand, an ampersand, and a rest: the three parts
    can be read back. *)
Lemma split_at_amp x x' y y' :
  no_amp x = true -> no_amp x' = true ->
  (x ++ String "&" y)%string = (x' ++ String "&" y')%string ->
  x = x' /\ y = y'.
Proof.
  revert x'. induction x as [|c x IH]; intros [|c' x']; simpl.
  - intros _ _ [= ->]. auto.
  - intros _ H [= <- _]. rewrite Ascii.eqb_refl in H. discriminate.
  - intros H _ [= -> _]. rewrite Ascii.eqb_refl in H. discriminate.
  - intros H H' [= <- E].
    apply andb_true_iff in H as [_ H]. apply andb_true_iff in H' as [_ H'].
    destruct (IH x' H H' E) as [-> ->]. auto.
Qed.

(** X22.  The link that a successful [/stream_pcm] answer hands out names
    its request without ambiguity: two successful answers for the same
    host with the same [audio_url] come from requests with the same
    [song] and the same [singer] (blanks around them apart); what follows
    [song=] and [singer=] in the link has no character but letters,
    digits, [_ . - ~ /] and percent escapes. *)
Theorem audio_url_names_its_request (w w' : world) (req req' : request)
    (s s' : server) :
  status (fst (stream_pcm w req s)) = 200 ->
  status (fst (stream_pcm w' req' s')) = 200 ->
  host req = host req' ->
  field "audio_url" (fst (stream_pcm w req s))
  = field "audio_url" (fst (stream_pcm w' req' s')) ->
  strip (arg "song" req) = strip (arg "song" req') /\
  strip (arg "singer" req) = strip (arg "singer" req') /\
  url_safe (quote (strip (arg "song" req))) = true /\
  url_safe (quote (strip (arg "singer" req))) = true.
Proof.
  intros Hok Hok' Hhost Hurl.
  destruct (stream_pcm_success w req s Hok) as (a & t & Hp).
  destruct (stream_pcm_success w' req' s' Hok') as (a' & t' & Hp').
  unfold field in Hurl. rewrite Hp, Hp' in Hurl. simpl in Hurl.
  injection Hurl as Hurl. rewrite <- Hhost in Hurl.
  apply append_cancel_l in Hurl.
  repeat (injection Hurl as Hurl).
  apply split_at_amp in Hurl as [Hsong Hsinger];
    try (apply url_safe_no_amp, url_safe_quote).
  repeat (injection Hsinger as Hsinger).
  apply quote_injective in Hsong, Hsinger.
  repeat split; auto using url_safe_quote.
Qed.

Lemma audio_url_names_its_request_witness :
  strip (arg "song" padded_request) = strip (arg "song" plain_request) /\
  strip (arg "singer" padded_request) = strip (arg "singer" plain_request) /\
  url_safe (quote (strip (arg "song" padded_request))) = true /\
  url_safe (quote (strip (arg "singer" padded_request))) = true.
Proof.
  refine (audio_url_names_its_request (at_time 3000) (at_time 4000)
            padded_request plain_request warm_server fresh_server
            _ _ _ _); reflexivity.
Defined.

End LinkFacts.

(** ** The cache key over the whole of Unicode *)

Module UnicodeFacts.
Import Unicode.

Lemma assoc_In c table mapped :
  assoc c table = Some mapped -> In (c, mapped) table.
Proof.
  induction table as [|[k v] table IH]; simpl; [discriminate|].
  destruct (N.eqb_spec c k) as [->|_].
  - intros [= ->]. now left.
  - intros H. right. now apply IH.
Qed.

Section Methods.
Variable db : database.
Hypothesis Hdb : consistent db = true.

Lemma untouched_spec c :
  untouched db c = true -> fixed db c /\ is_space db c = false.
Proof.
  unfold untouched, fixed, to_lower_full. intros H.
  apply andb_true_iff in H as [H H3]. apply andb_true_iff in H as [H1 H2].
  apply negb_true_iff in H1, H2. apply N.eqb_neq in H1.
  destruct (assoc c (lowercase db)); [discriminate|]. auto.
Qed.

Lemma sigmas_untouched :
  untouched db FINAL_SIGMA = true /\ untouched db SMALL_SIGMA = true.
Proof.
  unfold consistent in Hdb.
  apply andb_true_iff in Hdb as [H H2]. apply andb_true_iff in H as [_ H1].
  auto.
Qed.

(** A whitespace code point has no case and is its own lowercase. *)
Lemma space_plain c :
  is_space db c = true ->
  c <> CAPITAL_SIGMA /\ is_cased db c = false /\
  is_case_ignorable db c = false /\ to_lower_full db c = [c].
Proof.
  unfold is_space. intros H.
  apply existsb_exists in H as (x & Hin & E). apply N.eqb_eq in E. subst x.
  unfold consistent in Hdb.
  apply andb_true_iff in Hdb as [H _]. apply andb_true_iff in H as [H _].
  apply andb_true_iff in H as [H _].
  rewrite forallb_forall in H. specialize (H c Hin).
  apply andb_true_iff in H as [H H4]. apply andb_true_iff in H as [H H3].
  apply andb_true_iff in H as [H1 H2].
  apply negb_true_iff in H1, H2, H3. apply N.eqb_neq in H1.
  unfold to_lower_full. destruct (assoc c (lowercase db)); [discriminate|].
  auto.
Qed.

(** The lowercase of a code point is never empty, and its code points
    are [untouched] unless the code point is itself whitespace. *)
Lemma to_lower_full_spec c :
  c <> CAPITAL_SIGMA ->
  to_lower_full db c <> [] /\
  Forall (fixed db) (to_lower_full db c) /\
  (is_space db c = false ->
   Forall (fun d => is_space db d = false) (to_lower_full db c)).
Proof.
  intros Hc. unfold to_lower_full.
  destruct (assoc c (lowercase db)) as [mapped|] eqn:E.
  - apply assoc_In in E.
    unfold consistent in Hdb.
    apply andb_true_iff in Hdb as [H _]. apply andb_true_iff in H as [H _].
    apply andb_true_iff in H as [_ H].
    rewrite forallb_forall in H. specialize (H _ E). cbn [snd] in H.
    destruct mapped as [|d mapped]; [discriminate|].
    rewrite forallb_forall in H.
    split; [discriminate|].
    split; [|intros _]; apply Forall_forall; intros x Hx;
      now apply untouched_spec, H.
  - split; [discriminate|]. split; [|intros Hs]; repeat constructor; auto.
    unfold to_lower_full. now rewrite E.
Qed.

Lemma lower_ucs4_spec b c rest :
  lower_ucs4 db b c rest <> [] /\
  Forall (fixed db) (lower_ucs4 db b c rest) /\
  (is_space db c = false ->
   Forall (fun d => is_space db d = false) (lower_ucs4 db b c rest)).
Proof.
  unfold lower_ucs4. destruct (N.eqb_spec c CAPITAL_SIGMA) as [E|E].
  - destruct sigmas_untouched as [H1 H2].
    apply untouched_spec in H1, H2.
    unfold handle_capital_sigma.
    destruct H1 as [F1 S1], H2 as [F2 S2].
    destruct (b && negb (cased_follows db rest));
      (split; [discriminate|]);
      (split; [|intros _]); (constructor; [assumption | constructor]).
  - now apply to_lower_full_spec.
Qed.

Lemma lower_ucs4_space b c rest :
  is_space db c = true -> lower_ucs4 db b c rest = [c].
Proof.
  intros H. destruct (space_plain c H) as (H1 & _ & _ & H4).
  unfold lower_ucs4. apply N.eqb_neq in H1. now rewrite H1.
Qed.

Lemma cased_after_space b c : is_space db c = true -> cased_after db b c = false.
Proof.
  intros H. destruct (space_plain c H) as (_ & H2 & H3 & _).
  unfold cased_after. now rewrite H3.
Qed.

Lemma do_lower_nonempty b c s : do_lower db b (c :: s) <> [].
Proof.
  simpl. destruct (lower_ucs4_spec b c s) as [H _].
  destruct (lower_ucs4 db b c s); [congruence | discriminate].
Qed.

(** *** [lower] twice *)

Lemma do_lower_fixed_out b s : Forall (fixed db) (do_lower db b s).
Proof.
  revert b. induction s as [|c s IH]; intros b; simpl; [constructor|].
  apply Forall_app. split; [apply lower_ucs4_spec | apply IH].
Qed.

Lemma do_lower_fixed b s : Forall (fixed db) s -> do_lower db b s = s.
Proof.
  intros H. revert b. induction H as [|c s [Hc Hl] _ IH]; intros b; simpl;
    [reflexivity|].
  unfold lower_ucs4. apply N.eqb_neq in Hc. rewrite Hc, Hl. simpl.
  now rewrite IH.
Qed.

Lemma unicode_lower_idem s : lower db (lower db s) = lower db s.
Proof. apply do_lower_fixed, do_lower_fixed_out. Qed.

(** *** [strip] twice *)

Lemma lstrip_head s :
  match lstrip db s with
  | [] => True
  | c :: _ => is_space db c = false
  end.
Proof.
  induction s as [|c s IH]; simpl; [exact I|].
  destruct (is_space db c) eqn:E; [exact IH | exact E].
Qed.

Lemma lstrip_fix s :
  match s with [] => True | c :: _ => is_space db c = false end ->
  lstrip db s = s.
Proof.
  destruct s as [|c s]; simpl; [reflexivity|].
  now intros ->.
Qed.

Lemma unicode_rstrip_cons c s :
  rstrip db (c :: s) =
  match rstrip db s with
  | [] => if is_space db c then [] else [c]
  | r => c :: r
  end.
Proof. reflexivity. Qed.

Lemma unicode_rstrip_idem s : rstrip db (rstrip db s) = rstrip db s.
Proof.
  induction s as [|c s IH]; [reflexivity|].
  rewrite unicode_rstrip_cons. destruct (rstrip db s) as [|d r] eqn:E.
  - destruct (is_space db c) eqn:Ec; [reflexivity|].
    rewrite unicode_rstrip_cons. simpl. now rewrite Ec.
  - rewrite unicode_rstrip_cons, IH. reflexivity.
Qed.

Lemma rstrip_head s :
  match s with [] => True | c :: _ => is_space db c = false end ->
  match rstrip db s with [] => True | c :: _ => is_space db c = false end.
Proof.
  destruct s as [|c s]; [auto|]. intros Hc. rewrite unicode_rstrip_cons.
  destruct (rstrip db s); [|exact Hc]. now rewrite Hc.
Qed.

Lemma unicode_strip_idem s : strip db (strip db s) = strip db s.
Proof.
  unfold strip.
  rewrite (lstrip_fix (rstrip db (lstrip db s))).
  - apply unicode_rstrip_idem.
  - apply rstrip_head, lstrip_head.
Qed.

(** *** [strip] and [lower] in either order *)

Lemma do_lower_lstrip s :
  do_lower db false (lstrip db s) = lstrip db (do_lower db false s).
Proof.
  induction s as [|c s IH]; [reflexivity|].
  cbn [lstrip]. destruct (is_space db c) eqn:E.
  - cbn [do_lower]. rewrite lower_ucs4_space, cased_after_space by exact E.
    cbn [app lstrip]. now rewrite E.
  - symmetry. apply lstrip_fix. cbn [do_lower].
    destruct (lower_ucs4_spec false c s) as (Hne & _ & Hs).
    specialize (Hs E).
    destruct (lower_ucs4 db false c s) as [|d l]; [congruence|].
    now inversion Hs.
Qed.

Lemma cased_follows_rstrip s :
  cased_follows db (rstrip db s) = cased_follows db s.
Proof.
  induction s as [|c s IH]; [reflexivity|].
  rewrite unicode_rstrip_cons. cbn [cased_follows].
  destruct (rstrip db s) as [|d r] eqn:E.
  - destruct (is_space db c) eqn:Ec.
    + destruct (space_plain c Ec) as (_ & H2 & H3 & _).
      now rewrite H3, H2.
    + cbn [cased_follows]. now rewrite <- IH.
  - cbn [cased_follows]. now rewrite <- IH.
Qed.

Lemma rstrip_app u t :
  u <> [] -> Forall (fun d => is_space db d = false) u ->
  rstrip db (u ++ t) = u ++ rstrip db t.
Proof.
  intros Hne H. induction H as [|d u Hd Hu IH]; [congruence|].
  cbn [app]. rewrite unicode_rstrip_cons.
  destruct u as [|e u].
  - cbn [app]. destruct (rstrip db t); [now rewrite Hd | reflexivity].
  - rewrite IH by discriminate. reflexivity.
Qed.

Lemma lower_ucs4_rstrip b c s :
  lower_ucs4 db b c (rstrip db s) = lower_ucs4 db b c s.
Proof.
  unfold lower_ucs4, handle_capital_sigma.
  now rewrite cased_follows_rstrip.
Qed.

Lemma do_lower_rstrip s :
  forall b, do_lower db b (rstrip db s) = rstrip db (do_lower db b s).
Proof.
  induction s as [|c s IH]; intros b; [reflexivity|].
  cbn [do_lower]. destruct (is_space db c) eqn:E.
  - rewrite (lower_ucs4_space b c s E). cbn [app].
    rewrite !unicode_rstrip_cons, E, <- IH.
    destruct (rstrip db s) as [|d r] eqn:Er; [reflexivity|].
    cbn [do_lower]. rewrite (lower_ucs4_space b c (d :: r) E). cbn [app].
    destruct (lower_ucs4_spec (cased_after db b c) d r) as [Hne _].
    destruct (lower_ucs4 db (cased_after db b c) d r);
      [congruence | reflexivity].
  - destruct (lower_ucs4_spec b c s) as (Hne & _ & Hs).
    rewrite rstrip_app by auto. rewrite <- IH.
    assert (Hr : rstrip db (c :: s) = c :: rstrip db s).
    { rewrite unicode_rstrip_cons. destruct (rstrip db s); [now rewrite E|reflexivity]. }
    rewrite Hr. cbn [do_lower]. now rewrite lower_ucs4_rstrip.
Qed.

Lemma unicode_lower_strip s : lower db (strip db s) = strip db (lower db s).
Proof.
  unfold lower, strip.
  now rewrite do_lower_rstrip, do_lower_lstrip.
Qed.

(** The cache key of every [str], over every consistent database. *)
Lemma cache_key_spec s :
  cache_key db s = cache_key db (strip db (lower db s)) /\
  cache_key db (cache_key db s) = cache_key db s /\
  cache_key db s = strip db (lower db s).
Proof.
  unfold cache_key. repeat split.
  - now rewrite !unicode_lower_strip, unicode_strip_idem, !unicode_lower_idem.
  - now rewrite !unicode_lower_strip, unicode_lower_idem, unicode_strip_idem.
  - apply unicode_lower_strip.
Qed.

End Methods.

Lemma UCD_consistent : consistent UCD = true.
Proof. vm_compute. reflexivity. Qed.

(** *** ASCII text

    On a text of ASCII characters the two methods are those of [PyStr],
    and the cache key is the one of [Resolution]. *)

Lemma ascii_code_point (c : ascii) :
  (nat_of_ascii c <? 128)%nat = true ->
  is_space UCD (N_of_ascii c) = PyStr.is_space c /\
  (forall b rest,
     lower_ucs4 UCD b (N_of_ascii c) rest = [N_of_ascii (PyStr.lower_char c)]) /\
  (nat_of_ascii (PyStr.lower_char c) <? 128)%nat = true.
Proof.
  destruct c as [[] [] [] [] [] [] [] []]; intros H;
    try discriminate H; vm_compute; auto.
Qed.

Lemma is_ascii_lower s :
  HandlerSpec.is_ascii s = true -> HandlerSpec.is_ascii (PyStr.lower s) = true.
Proof.
  induction s as [|c s IH]; simpl; [auto|]. intros H.
  apply andb_true_iff in H as [Hc Hs].
  destruct (ascii_code_point c Hc) as (_ & _ & ->). now apply IH.
Qed.

Lemma is_ascii_lstrip s :
  HandlerSpec.is_ascii s = true -> HandlerSpec.is_ascii (PyStr.lstrip s) = true.
Proof.
  induction s as [|c s IH]; simpl; [auto|]. intros H.
  destruct (PyStr.is_space c); [|exact H].
  apply andb_true_iff in H as [_ Hs]. now apply IH.
Qed.

Lemma is_ascii_rstrip s :
  HandlerSpec.is_ascii s = true -> HandlerSpec.is_ascii (PyStr.rstrip s) = true.
Proof.
  induction s as [|c s IH]; simpl; [auto|]. intros H.
  apply andb_true_iff in H as [Hc Hs]. specialize (IH Hs).
  destruct (PyStr.rstrip s).
  - destruct (PyStr.is_space c); [reflexivity|]. simpl. now rewrite Hc.
  - cbn [HandlerSpec.is_ascii]. now rewrite Hc.
Qed.

Lemma of_ascii_lower s :
  HandlerSpec.is_ascii s = true ->
  forall b, do_lower UCD b (of_ascii s) = of_ascii (PyStr.lower s).
Proof.
  unfold of_ascii.
  induction s as [|c s IH]; intros H b; [reflexivity|].
  cbn [HandlerSpec.is_ascii] in H. apply andb_true_iff in H as [Hc Hs].
  destruct (ascii_code_point c Hc) as (_ & Hl & _).
  cbn [list_ascii_of_string map do_lower PyStr.lower].
  now rewrite Hl, IH.
Qed.

Lemma of_ascii_lstrip s :
  HandlerSpec.is_ascii s = true ->
  lstrip UCD (of_ascii s) = of_ascii (PyStr.lstrip s).
Proof.
  unfold of_ascii.
  induction s as [|c s IH]; intros H; [reflexivity|].
  cbn [HandlerSpec.is_ascii] in H. apply andb_true_iff in H as [Hc Hs].
  destruct (ascii_code_point c Hc) as (Hsp & _ & _).
  cbn [list_ascii_of_string map lstrip PyStr.lstrip]. rewrite Hsp.
  destruct (PyStr.is_space c); [now apply IH | reflexivity].
Qed.

Lemma of_ascii_rstrip s :
  HandlerSpec.is_ascii s = true ->
  rstrip UCD (of_ascii s) = of_ascii (PyStr.rstrip s).
Proof.
  unfold of_ascii.
  induction s as [|c s IH]; intros H; [reflexivity|].
  cbn [HandlerSpec.is_ascii] in H. apply andb_true_iff in H as [Hc Hs].
  destruct (ascii_code_point c Hc) as (Hsp & _ & _).
  cbn [list_ascii_of_string map rstrip PyStr.rstrip].
  rewrite (IH Hs), Hsp.
  destruct (PyStr.rstrip s); [|reflexivity].
  cbn [list_ascii_of_string map]. now destruct (PyStr.is_space c).
Qed.

Lemma cache_key_of_ascii s :
  HandlerSpec.is_ascii s = true ->
  cache_key UCD (of_ascii s) = of_ascii (Resolution.cache_key s).
Proof.
  intros H. unfold cache_key, Resolution.cache_key, lower, strip, PyStr.strip.
  rewrite of_ascii_lstrip by exact H.
  rewrite of_ascii_rstrip by now apply is_ascii_lstrip.
  apply of_ascii_lower. now apply is_ascii_rstrip, is_ascii_lstrip.
Qed.

Example cache_key_ascii_run :
  cache_key UCD (of_ascii "  Shape Of YOU ") = of_ascii "shape of you".
Proof. vm_compute. reflexivity. Qed.

(** C8.  For every string [s], of whatever code points and the empty
    one included, the cache key of [s] is the cache key of
    [trim(lower(s))]; normalising a key again changes nothing; and the
    key, which line 325 computes as [lower(trim(s))], is
    [trim(lower(s))].  On ASCII text the key is the one that the model of
    [get_direct_stream_url] looks up. *)
Theorem cache_key_idempotent (s : str) :
  cache_key UCD s = cache_key UCD (strip UCD (lower UCD s)) /\
  cache_key UCD (cache_key UCD s) = cache_key UCD s /\
  cache_key UCD s = strip UCD (lower UCD s) /\
  forall t : string,
    HandlerSpec.is_ascii t = true ->
    cache_key UCD (of_ascii t) = of_ascii (Resolution.cache_key t).
Proof.
  destruct (cache_key_spec UCD UCD_consistent s) as (H1 & H2 & H3).
  repeat (split; [assumption|]). apply cache_key_of_ascii.
Qed.

(** "Đ" and "đ", the ideographic space, the two small sigmas of "ΌΣΟΣ",
    the two code points of the lowercase of "İ". *)
Example unicode_examples :
  lower UCD D_STROKE = d_stroke /\ strip UCD wide_spaced = [0x61; 0x62]%N /\
  lower UCD OSOS = osos /\ lower UCD I_DOT = i_dot /\
  cache_key UCD ([0x3000] ++ D_STROKE ++ [0x20])%N = d_stroke.
Proof. vm_compute. repeat split. Qed.

End UnicodeFacts.
